(** * gst-vosk: the coordination layer of [src/gstvosk.c]

    A shallow embedding of the GStreamer element that feeds PCM audio to the
    Vosk recogniser: the RNNoise frame adapter ([gst_vosk_apply_denoise]), the
    asynchronous model loader ([gst_vosk_load_model_async]), the cadence and
    catch-up policy ([gst_vosk_handle_buffer], [gst_vosk_chain]), the result
    queries and the property accessors.

    The element is modelled as built with [HAVE_RNNOISE]; with
    [enable_denoise = false] the denoise step is the identity, which is what
    the build without RNNoise does.

    Conventions.
    - A C pointer is a [pointer] (a natural number), [NULL] is [0].  A
      [const gchar *] is an [option string] ([None] is [NULL]).
    - [GstClockTime] is [guint64] and [GstClockTimeDiff] is [gint64]; both are
      [Z] with the wrap-around written out in [GST_CLOCK_DIFF].
    - [gfloat] samples are rationals ([Q]): every finite float is one, the
      conversion from [gint16] is exact and the conversion back clamps and
      truncates, as the C cast does.
    - Libvosk, RNNoise and the running clock are outside the file.  Their
      answers come from an oracle ([Externals]) that sees the history of
      calls; every call and every message the element sends is appended to
      the [trace] of the [World]. *)

From Stdlib Require Import ZArith QArith Qround List String Ascii Bool Arith Lia.
Import ListNotations.

Local Open Scope Z_scope.

(* [String] also exports a [length]; the lists' one is meant throughout. *)
Abbreviation length := Datatypes.length (only parsing).

(** ** GLib and GStreamer basics *)

Definition pointer := nat.
Definition NULL : pointer := 0%nat.

Definition is_null (p : pointer) : bool := Nat.eqb p NULL.

Definition two64 : Z := 2 ^ 64.
Definition G_MAXINT64 : Z := 2 ^ 63 - 1.
Definition G_MININT64 : Z := - 2 ^ 63.

(** The value of a 64-bit pattern read as [gint64] (two's complement). *)
Definition to_gint64 (x : Z) : Z :=
  let u := x mod two64 in
  if u <? 2 ^ 63 then u else u - two64.

Definition GST_CLOCK_TIME_NONE : Z := two64 - 1.
Definition GST_SECOND : Z := 1000000000.
Definition GST_MSECOND : Z := GST_SECOND / 1000.

(** [#define GST_CLOCK_DIFF(s, e) (GstClockTimeDiff)((e) - (s))] *)
Definition GST_CLOCK_DIFF (s e : Z) : Z := to_gint64 (e - s).

(** [g_strcmp0 (a, b) == 0]: both [NULL], or equal strings. *)
Definition g_strcmp0_eq (a b : option string) : bool :=
  match a, b with
  | None, None => true
  | Some x, Some y => String.eqb x y
  | _, _ => false
  end.

(** [!strcmp (a, b)] *)
Definition strcmp_eq (a b : string) : bool := String.eqb a b.

(** ** Constants of the file *)

Definition DEFAULT_SPEECH_MODEL : string := "/usr/share/vosk/model".
Definition DEFAULT_ENABLE_DENOISE : bool := true.
Definition RNNOISE_FRAME_SIZE : nat := 480.
Definition DEFAULT_ALTERNATIVE_NUM : Z := 0.

Definition dquote : string := String (ascii_of_nat 34) EmptyString.
Definition newline : string := String (ascii_of_nat 10) EmptyString.

(** [{\n  "partial" : ""\n}] *)
Definition VOSK_EMPTY_PARTIAL_RESULT : string :=
  ("{" ++ newline ++ "  " ++ dquote ++ "partial" ++ dquote ++ " : "
       ++ dquote ++ dquote ++ newline ++ "}")%string.

(** [{\n  "text" : ""\n}] *)
Definition VOSK_EMPTY_TEXT_RESULT : string :=
  ("{" ++ newline ++ "  " ++ dquote ++ "text" ++ dquote ++ " : "
       ++ dquote ++ dquote ++ newline ++ "}")%string.

(** [{"text": ""}] *)
Definition VOSK_EMPTY_TEXT_RESULT_ALT : string :=
  ("{" ++ dquote ++ "text" ++ dquote ++ ": " ++ dquote ++ dquote ++ "}")%string.

Inductive PropId :=
| PROP_0
| PROP_USE_SIGNALS
| PROP_SPEECH_MODEL
| PROP_ENABLE_DENOISE
| PROP_ALTERNATIVES
| PROP_CURRENT_FINAL_RESULTS
| PROP_CURRENT_RESULTS
| PROP_PARTIAL_RESULTS_INTERVAL.

(** A [GValue] of the types the properties use. *)
Inductive GValue :=
| GBoolean (b : bool)
| GString (s : option string)
| GInt (i : Z)
| GInt64 (i : Z)
| GUnset.

Definition g_value_get_boolean (v : GValue) : bool :=
  match v with GBoolean b => b | _ => false end.
Definition g_value_get_string (v : GValue) : option string :=
  match v with GString s => s | _ => None end.
Definition g_value_get_int (v : GValue) : Z :=
  match v with GInt i => i | _ => 0 end.
Definition g_value_get_int64 (v : GValue) : Z :=
  match v with GInt64 i => i | _ => 0 end.

(** ** The element *)

(** Modelled from the spec: [struct _GstVosk] is declared in [gstvosk.h],
    which is not among the sources.  The fields are those [gstvosk.c] reads
    or writes: the session, the pending operation and the denoise state of
    the specification's data model.  Their types follow their use in the
    file: [rate] is compared with [0.0] and [48000] and holds the integer
    rate of the caps; the two timestamps are [GstClockTime]; the interval is
    a [gint64] count of nanoseconds; the buffer sizes and positions are
    unsigned and stay below a thousand.  [sinkpad_rate] stands for the sink
    pad: the [rate] field of its current caps, [None] when no caps (or no
    rate) are set. *)
Record GstVosk := mkGstVosk {
  sinkpad_rate : option Z;
  recognizer : pointer;
  prev_partial : option string;
  model_path : option string;
  rate : Z;
  alternatives : Z;
  use_signals : bool;
  partial_time_interval : Z;
  last_processed_time : Z;
  last_partial : Z;
  current_operation : pointer;
  enable_denoise : bool;
  denoise_initialized : bool;
  denoise_state : pointer;
  denoise_input_buffer : option (list Q);
  denoise_output_buffer : option (list Q);
  denoise_buffer_size : nat;
  denoise_buffer_pos : nat;
  denoise_output_pos : nat
}.

(** Field assignments [vosk->f = x]. *)
Definition set_sinkpad_rate (x : option Z) (v : GstVosk) : GstVosk :=
  {| sinkpad_rate := x; recognizer := recognizer v;
     prev_partial := prev_partial v; model_path := model_path v;
     rate := rate v; alternatives := alternatives v;
     use_signals := use_signals v;
     partial_time_interval := partial_time_interval v;
     last_processed_time := last_processed_time v;
     last_partial := last_partial v;
     current_operation := current_operation v;
     enable_denoise := enable_denoise v;
     denoise_initialized := denoise_initialized v;
     denoise_state := denoise_state v;
     denoise_input_buffer := denoise_input_buffer v;
     denoise_output_buffer := denoise_output_buffer v;
     denoise_buffer_size := denoise_buffer_size v;
     denoise_buffer_pos := denoise_buffer_pos v;
     denoise_output_pos := denoise_output_pos v |}.

Definition set_recognizer (x : pointer) (v : GstVosk) : GstVosk :=
  {| sinkpad_rate := sinkpad_rate v; recognizer := x;
     prev_partial := prev_partial v; model_path := model_path v;
     rate := rate v; alternatives := alternatives v;
     use_signals := use_signals v;
     partial_time_interval := partial_time_interval v;
     last_processed_time := last_processed_time v;
     last_partial := last_partial v;
     current_operation := current_operation v;
     enable_denoise := enable_denoise v;
     denoise_initialized := denoise_initialized v;
     denoise_state := denoise_state v;
     denoise_input_buffer := denoise_input_buffer v;
     denoise_output_buffer := denoise_output_buffer v;
     denoise_buffer_size := denoise_buffer_size v;
     denoise_buffer_pos := denoise_buffer_pos v;
     denoise_output_pos := denoise_output_pos v |}.

Definition set_prev_partial (x : option string) (v : GstVosk) : GstVosk :=
  {| sinkpad_rate := sinkpad_rate v; recognizer := recognizer v;
     prev_partial := x; model_path := model_path v; rate := rate v;
     alternatives := alternatives v; use_signals := use_signals v;
     partial_time_interval := partial_time_interval v;
     last_processed_time := last_processed_time v;
     last_partial := last_partial v;
     current_operation := current_operation v;
     enable_denoise := enable_denoise v;
     denoise_initialized := denoise_initialized v;
     denoise_state := denoise_state v;
     denoise_input_buffer := denoise_input_buffer v;
     denoise_output_buffer := denoise_output_buffer v;
     denoise_buffer_size := denoise_buffer_size v;
     denoise_buffer_pos := denoise_buffer_pos v;
     denoise_output_pos := denoise_output_pos v |}.

Definition set_model_path (x : option string) (v : GstVosk) : GstVosk :=
  {| sinkpad_rate := sinkpad_rate v; recognizer := recognizer v;
     prev_partial := prev_partial v; model_path := x; rate := rate v;
     alternatives := alternatives v; use_signals := use_signals v;
     partial_time_interval := partial_time_interval v;
     last_processed_time := last_processed_time v;
     last_partial := last_partial v;
     current_operation := current_operation v;
     enable_denoise := enable_denoise v;
     denoise_initialized := denoise_initialized v;
     denoise_state := denoise_state v;
     denoise_input_buffer := denoise_input_buffer v;
     denoise_output_buffer := denoise_output_buffer v;
     denoise_buffer_size := denoise_buffer_size v;
     denoise_buffer_pos := denoise_buffer_pos v;
     denoise_output_pos := denoise_output_pos v |}.

Definition set_rate (x : Z) (v : GstVosk) : GstVosk :=
  {| sinkpad_rate := sinkpad_rate v; recognizer := recognizer v;
     prev_partial := prev_partial v; model_path := model_path v; rate := x;
     alternatives := alternatives v; use_signals := use_signals v;
     partial_time_interval := partial_time_interval v;
     last_processed_time := last_processed_time v;
     last_partial := last_partial v;
     current_operation := current_operation v;
     enable_denoise := enable_denoise v;
     denoise_initialized := denoise_initialized v;
     denoise_state := denoise_state v;
     denoise_input_buffer := denoise_input_buffer v;
     denoise_output_buffer := denoise_output_buffer v;
     denoise_buffer_size := denoise_buffer_size v;
     denoise_buffer_pos := denoise_buffer_pos v;
     denoise_output_pos := denoise_output_pos v |}.

Definition set_alternatives (x : Z) (v : GstVosk) : GstVosk :=
  {| sinkpad_rate := sinkpad_rate v; recognizer := recognizer v;
     prev_partial := prev_partial v; model_path := model_path v;
     rate := rate v; alternatives := x; use_signals := use_signals v;
     partial_time_interval := partial_time_interval v;
     last_processed_time := last_processed_time v;
     last_partial := last_partial v;
     current_operation := current_operation v;
     enable_denoise := enable_denoise v;
     denoise_initialized := denoise_initialized v;
     denoise_state := denoise_state v;
     denoise_input_buffer := denoise_input_buffer v;
     denoise_output_buffer := denoise_output_buffer v;
     denoise_buffer_size := denoise_buffer_size v;
     denoise_buffer_pos := denoise_buffer_pos v;
     denoise_output_pos := denoise_output_pos v |}.

Definition set_use_signals (x : bool) (v : GstVosk) : GstVosk :=
  {| sinkpad_rate := sinkpad_rate v; recognizer := recognizer v;
     prev_partial := prev_partial v; model_path := model_path v;
     rate := rate v; alternatives := alternatives v; use_signals := x;
     partial_time_interval := partial_time_interval v;
     last_processed_time := last_processed_time v;
     last_partial := last_partial v;
     current_operation := current_operation v;
     enable_denoise := enable_denoise v;
     denoise_initialized := denoise_initialized v;
     denoise_state := denoise_state v;
     denoise_input_buffer := denoise_input_buffer v;
     denoise_output_buffer := denoise_output_buffer v;
     denoise_buffer_size := denoise_buffer_size v;
     denoise_buffer_pos := denoise_buffer_pos v;
     denoise_output_pos := denoise_output_pos v |}.

Definition set_partial_time_interval (x : Z) (v : GstVosk) : GstVosk :=
  {| sinkpad_rate := sinkpad_rate v; recognizer := recognizer v;
     prev_partial := prev_partial v; model_path := model_path v;
     rate := rate v; alternatives := alternatives v;
     use_signals := use_signals v; partial_time_interval := x;
     last_processed_time := last_processed_time v;
     last_partial := last_partial v;
     current_operation := current_operation v;
     enable_denoise := enable_denoise v;
     denoise_initialized := denoise_initialized v;
     denoise_state := denoise_state v;
     denoise_input_buffer := denoise_input_buffer v;
     denoise_output_buffer := denoise_output_buffer v;
     denoise_buffer_size := denoise_buffer_size v;
     denoise_buffer_pos := denoise_buffer_pos v;
     denoise_output_pos := denoise_output_pos v |}.

Definition set_last_processed_time (x : Z) (v : GstVosk) : GstVosk :=
  {| sinkpad_rate := sinkpad_rate v; recognizer := recognizer v;
     prev_partial := prev_partial v; model_path := model_path v;
     rate := rate v; alternatives := alternatives v;
     use_signals := use_signals v;
     partial_time_interval := partial_time_interval v;
     last_processed_time := x; last_partial := last_partial v;
     current_operation := current_operation v;
     enable_denoise := enable_denoise v;
     denoise_initialized := denoise_initialized v;
     denoise_state := denoise_state v;
     denoise_input_buffer := denoise_input_buffer v;
     denoise_output_buffer := denoise_output_buffer v;
     denoise_buffer_size := denoise_buffer_size v;
     denoise_buffer_pos := denoise_buffer_pos v;
     denoise_output_pos := denoise_output_pos v |}.

Definition set_last_partial (x : Z) (v : GstVosk) : GstVosk :=
  {| sinkpad_rate := sinkpad_rate v; recognizer := recognizer v;
     prev_partial := prev_partial v; model_path := model_path v;
     rate := rate v; alternatives := alternatives v;
     use_signals := use_signals v;
     partial_time_interval := partial_time_interval v;
     last_processed_time := last_processed_time v; last_partial := x;
     current_operation := current_operation v;
     enable_denoise := enable_denoise v;
     denoise_initialized := denoise_initialized v;
     denoise_state := denoise_state v;
     denoise_input_buffer := denoise_input_buffer v;
     denoise_output_buffer := denoise_output_buffer v;
     denoise_buffer_size := denoise_buffer_size v;
     denoise_buffer_pos := denoise_buffer_pos v;
     denoise_output_pos := denoise_output_pos v |}.

Definition set_current_operation (x : pointer) (v : GstVosk) : GstVosk :=
  {| sinkpad_rate := sinkpad_rate v; recognizer := recognizer v;
     prev_partial := prev_partial v; model_path := model_path v;
     rate := rate v; alternatives := alternatives v;
     use_signals := use_signals v;
     partial_time_interval := partial_time_interval v;
     last_processed_time := last_processed_time v;
     last_partial := last_partial v; current_operation := x;
     enable_denoise := enable_denoise v;
     denoise_initialized := denoise_initialized v;
     denoise_state := denoise_state v;
     denoise_input_buffer := denoise_input_buffer v;
     denoise_output_buffer := denoise_output_buffer v;
     denoise_buffer_size := denoise_buffer_size v;
     denoise_buffer_pos := denoise_buffer_pos v;
     denoise_output_pos := denoise_output_pos v |}.

Definition set_enable_denoise (x : bool) (v : GstVosk) : GstVosk :=
  {| sinkpad_rate := sinkpad_rate v; recognizer := recognizer v;
     prev_partial := prev_partial v; model_path := model_path v;
     rate := rate v; alternatives := alternatives v;
     use_signals := use_signals v;
     partial_time_interval := partial_time_interval v;
     last_processed_time := last_processed_time v;
     last_partial := last_partial v;
     current_operation := current_operation v; enable_denoise := x;
     denoise_initialized := denoise_initialized v;
     denoise_state := denoise_state v;
     denoise_input_buffer := denoise_input_buffer v;
     denoise_output_buffer := denoise_output_buffer v;
     denoise_buffer_size := denoise_buffer_size v;
     denoise_buffer_pos := denoise_buffer_pos v;
     denoise_output_pos := denoise_output_pos v |}.

Definition set_denoise_initialized (x : bool) (v : GstVosk) : GstVosk :=
  {| sinkpad_rate := sinkpad_rate v; recognizer := recognizer v;
     prev_partial := prev_partial v; model_path := model_path v;
     rate := rate v; alternatives := alternatives v;
     use_signals := use_signals v;
     partial_time_interval := partial_time_interval v;
     last_processed_time := last_processed_time v;
     last_partial := last_partial v;
     current_operation := current_operation v;
     enable_denoise := enable_denoise v; denoise_initialized := x;
     denoise_state := denoise_state v;
     denoise_input_buffer := denoise_input_buffer v;
     denoise_output_buffer := denoise_output_buffer v;
     denoise_buffer_size := denoise_buffer_size v;
     denoise_buffer_pos := denoise_buffer_pos v;
     denoise_output_pos := denoise_output_pos v |}.

Definition set_denoise_state (x : pointer) (v : GstVosk) : GstVosk :=
  {| sinkpad_rate := sinkpad_rate v; recognizer := recognizer v;
     prev_partial := prev_partial v; model_path := model_path v;
     rate := rate v; alternatives := alternatives v;
     use_signals := use_signals v;
     partial_time_interval := partial_time_interval v;
     last_processed_time := last_processed_time v;
     last_partial := last_partial v;
     current_operation := current_operation v;
     enable_denoise := enable_denoise v;
     denoise_initialized := denoise_initialized v; denoise_state := x;
     denoise_input_buffer := denoise_input_buffer v;
     denoise_output_buffer := denoise_output_buffer v;
     denoise_buffer_size := denoise_buffer_size v;
     denoise_buffer_pos := denoise_buffer_pos v;
     denoise_output_pos := denoise_output_pos v |}.

Definition set_denoise_input_buffer (x : option (list Q)) (v : GstVosk) : GstVosk :=
  {| sinkpad_rate := sinkpad_rate v; recognizer := recognizer v;
     prev_partial := prev_partial v; model_path := model_path v;
     rate := rate v; alternatives := alternatives v;
     use_signals := use_signals v;
     partial_time_interval := partial_time_interval v;
     last_processed_time := last_processed_time v;
     last_partial := last_partial v;
     current_operation := current_operation v;
     enable_denoise := enable_denoise v;
     denoise_initialized := denoise_initialized v;
     denoise_state := denoise_state v; denoise_input_buffer := x;
     denoise_output_buffer := denoise_output_buffer v;
     denoise_buffer_size := denoise_buffer_size v;
     denoise_buffer_pos := denoise_buffer_pos v;
     denoise_output_pos := denoise_output_pos v |}.

Definition set_denoise_output_buffer (x : option (list Q)) (v : GstVosk) : GstVosk :=
  {| sinkpad_rate := sinkpad_rate v; recognizer := recognizer v;
     prev_partial := prev_partial v; model_path := model_path v;
     rate := rate v; alternatives := alternatives v;
     use_signals := use_signals v;
     partial_time_interval := partial_time_interval v;
     last_processed_time := last_processed_time v;
     last_partial := last_partial v;
     current_operation := current_operation v;
     enable_denoise := enable_denoise v;
     denoise_initialized := denoise_initialized v;
     denoise_state := denoise_state v;
     denoise_input_buffer := denoise_input_buffer v;
     denoise_output_buffer := x;
     denoise_buffer_size := denoise_buffer_size v;
     denoise_buffer_pos := denoise_buffer_pos v;
     denoise_output_pos := denoise_output_pos v |}.

Definition set_denoise_buffer_size (x : nat) (v : GstVosk) : GstVosk :=
  {| sinkpad_rate := sinkpad_rate v; recognizer := recognizer v;
     prev_partial := prev_partial v; model_path := model_path v;
     rate := rate v; alternatives := alternatives v;
     use_signals := use_signals v;
     partial_time_interval := partial_time_interval v;
     last_processed_time := last_processed_time v;
     last_partial := last_partial v;
     current_operation := current_operation v;
     enable_denoise := enable_denoise v;
     denoise_initialized := denoise_initialized v;
     denoise_state := denoise_state v;
     denoise_input_buffer := denoise_input_buffer v;
     denoise_output_buffer := denoise_output_buffer v;
     denoise_buffer_size := x; denoise_buffer_pos := denoise_buffer_pos v;
     denoise_output_pos := denoise_output_pos v |}.

Definition set_denoise_buffer_pos (x : nat) (v : GstVosk) : GstVosk :=
  {| sinkpad_rate := sinkpad_rate v; recognizer := recognizer v;
     prev_partial := prev_partial v; model_path := model_path v;
     rate := rate v; alternatives := alternatives v;
     use_signals := use_signals v;
     partial_time_interval := partial_time_interval v;
     last_processed_time := last_processed_time v;
     last_partial := last_partial v;
     current_operation := current_operation v;
     enable_denoise := enable_denoise v;
     denoise_initialized := denoise_initialized v;
     denoise_state := denoise_state v;
     denoise_input_buffer := denoise_input_buffer v;
     denoise_output_buffer := denoise_output_buffer v;
     denoise_buffer_size := denoise_buffer_size v; denoise_buffer_pos := x;
     denoise_output_pos := denoise_output_pos v |}.

Definition set_denoise_output_pos (x : nat) (v : GstVosk) : GstVosk :=
  {| sinkpad_rate := sinkpad_rate v; recognizer := recognizer v;
     prev_partial := prev_partial v; model_path := model_path v;
     rate := rate v; alternatives := alternatives v;
     use_signals := use_signals v;
     partial_time_interval := partial_time_interval v;
     last_processed_time := last_processed_time v;
     last_partial := last_partial v;
     current_operation := current_operation v;
     enable_denoise := enable_denoise v;
     denoise_initialized := denoise_initialized v;
     denoise_state := denoise_state v;
     denoise_input_buffer := denoise_input_buffer v;
     denoise_output_buffer := denoise_output_buffer v;
     denoise_buffer_size := denoise_buffer_size v;
     denoise_buffer_pos := denoise_buffer_pos v; denoise_output_pos := x |}.

(** A mapped [GstBuffer]: its presentation timestamp, the S16LE samples of
    its memory, whether a trailing odd byte follows them, and whether
    [gst_buffer_map] succeeds on it. *)
Record GstBuffer := mkGstBuffer {
  pts : Z;
  samples : list Z;
  odd_byte : bool;
  map_ok : bool
}.

Definition GST_BUFFER_PTS (buf : GstBuffer) : Z := pts buf.

(** [info.size], in bytes. *)
Definition info_size (buf : GstBuffer) : nat :=
  (2 * length (samples buf) + (if odd_byte buf then 1 else 0))%nat.

Definition set_samples (s : list Z) (buf : GstBuffer) : GstBuffer :=
  {| pts := pts buf; samples := s; odd_byte := odd_byte buf;
     map_ok := map_ok buf |}.

(** What the element does to the outside, in the order it does it. *)
Inductive Event :=
| Call_vosk_model_new (path : string) (ret : pointer)
| Call_vosk_model_free (model : pointer)
| Call_vosk_recognizer_new (model : pointer) (rate : Z) (ret : pointer)
| Call_vosk_recognizer_set_max_alternatives (rec : pointer) (n : Z)
| Call_vosk_recognizer_free (rec : pointer)
| Call_vosk_recognizer_reset (rec : pointer)
| Call_vosk_recognizer_accept_waveform (rec : pointer) (data : list Z) (ret : Z)
| Call_vosk_recognizer_result (rec : pointer) (ret : option string)
| Call_vosk_recognizer_partial_result (rec : pointer) (ret : option string)
| Call_vosk_recognizer_final_result (rec : pointer) (ret : option string)
| Call_rnnoise_create (ret : pointer)
| Call_rnnoise_destroy (st : pointer)
| Call_rnnoise_process_frame (st : pointer) (frame : list Q)
| Signal_result (text : string)
| Message_element (text : string)
| Message_async_start
| Message_async_done
| Element_error
| Call_gst_element_abort_state
| Call_gst_element_continue_state
| Call_g_thread_pool_push (path : string) (cancellable : pointer)
| Call_gst_pad_push (data : list Z)
| Warning_frame_dropped.

(** The libraries behind the element.  Each answer may depend on everything
    that happened before (the trace) and on the arguments of the call. *)
Class Externals := {
  vosk_model_new : list Event -> string -> pointer;
  vosk_recognizer_new : list Event -> pointer -> Z -> pointer;
  vosk_recognizer_accept_waveform : list Event -> pointer -> list Z -> Z;
  vosk_recognizer_result : list Event -> pointer -> option string;
  vosk_recognizer_partial_result : list Event -> pointer -> option string;
  vosk_recognizer_final_result : list Event -> pointer -> option string;
  rnnoise_create : list Event -> pointer;
  (** sample [i] of the frame after [rnnoise_process_frame] ran in place *)
  rnnoise_process_frame : list Event -> pointer -> list Q -> nat -> Q
}.

(** The element, the [GCancellable] objects of the heap (the object at
    pointer [p] is entry [p - 1]; [true] means cancelled) and the trace. *)
Record World := mkWorld {
  vosk : GstVosk;
  cancellables : list bool;
  trace : list Event
}.

Definition upd (f : GstVosk -> GstVosk) (w : World) : World :=
  {| vosk := f (vosk w); cancellables := cancellables w; trace := trace w |}.

Definition emit (e : Event) (w : World) : World :=
  {| vosk := vosk w; cancellables := cancellables w;
     trace := trace w ++ [e] |}.

Definition set_cancellables (c : list bool) (w : World) : World :=
  {| vosk := vosk w; cancellables := c; trace := trace w |}.

(** The events of [w'] that came after those of [w]. *)
Definition events_since (w w' : World) : list Event :=
  skipn (length (trace w)) (trace w').

(** *** GCancellable *)

Definition g_cancellable_new (w : World) : World * pointer :=
  (set_cancellables (cancellables w ++ [false]) w,
   S (length (cancellables w))).

Fixpoint set_nth_true (i : nat) (l : list bool) : list bool :=
  match l, i with
  | [], _ => []
  | _ :: t, O => true :: t
  | b :: t, S j => b :: set_nth_true j t
  end.

(** [g_cancellable_cancel] accepts [NULL] and then does nothing. *)
Definition g_cancellable_cancel (c : pointer) (w : World) : World :=
  match c with
  | O => w
  | S i => set_cancellables (set_nth_true i (cancellables w)) w
  end.

(** [g_cancellable_is_cancelled] is [FALSE] on [NULL]. *)
Definition g_cancellable_is_cancelled (w : World) (c : pointer) : bool :=
  match c with
  | O => false
  | S i => nth i (cancellables w) false
  end.

(** *** Arrays behind a pointer *)

(** [memcpy (a + off, src, |src|)]; nothing happens through [NULL]. *)
Definition array_write {A} (a : option (list A)) (off : nat) (src : list A)
  : option (list A) :=
  match a with
  | None => None
  | Some l => Some (firstn off l ++ src ++ skipn (off + length src) l)
  end.

(** The [n] cells from [a + off]. *)
Definition array_read {A} (a : option (list A)) (off n : nat) : list A :=
  match a with
  | None => []
  | Some l => firstn n (skipn off l)
  end.

(** ** Denoising *)

Definition gst_vosk_get_rate (v : GstVosk) : Z :=
  match sinkpad_rate v with
  | None => 0
  | Some r => r
  end.

Section Element.

Context {ext : Externals}.

Definition gst_vosk_init_denoise (w : World) : World * bool :=
  let v := vosk w in
  if negb (enable_denoise v) || denoise_initialized v then (w, true)
  else
    let rate := gst_vosk_get_rate v in
    if rate <=? 0 then (w, false)
    else
      (* Clean up existing state *)
      let w :=
        if is_null (denoise_state v) then w
        else upd (set_denoise_state NULL)
                 (emit (Call_rnnoise_destroy (denoise_state v)) w) in
      let w := upd (set_denoise_input_buffer None) w in
      (* Create RNNoise state *)
      let st := rnnoise_create (trace w) in
      let w := upd (set_denoise_state st) (emit (Call_rnnoise_create st) w) in
      if is_null st then (w, false)
      else
        let size := (RNNOISE_FRAME_SIZE * 2)%nat in
        let w := upd (set_denoise_buffer_size size) w in
        let w := upd (set_denoise_input_buffer (Some (repeat 0%Q size))) w in
        let w := upd (set_denoise_buffer_pos 0%nat) w in
        let w := upd (set_denoise_output_buffer (Some (repeat 0%Q size))) w in
        let w := upd (set_denoise_output_pos 0%nat) w in
        let w := upd (set_denoise_initialized true) w in
        (w, true).

(** Runs the transform in place on the frame at the start of the input
    buffer. *)
Definition gst_vosk_process_denoise_frame (w : World) : World :=
  let v := vosk w in
  if is_null (denoise_state v) || negb (denoise_initialized v) then w
  else
    let frame := array_read (denoise_input_buffer v) 0 RNNOISE_FRAME_SIZE in
    let out :=
      map (rnnoise_process_frame (trace w) (denoise_state v) frame)
          (seq 0 RNNOISE_FRAME_SIZE) in
    upd (set_denoise_input_buffer (array_write (denoise_input_buffer v) 0 out))
        (emit (Call_rnnoise_process_frame (denoise_state v) frame) w).

Definition gst_vosk_convert_s16_to_float (input : list Z) : list Q :=
  map inject_Z input.

(** [CLAMP (x, low, high)] of GLib. *)
Definition CLAMP (x low high : Q) : Q :=
  if negb (Qle_bool x high) then high
  else if negb (Qle_bool low x) then low
  else x.

(** The cast of a float in range to [gint16] drops the fraction. *)
Definition gint16_of_gfloat (x : Q) : Z := Z.quot (Qnum x) (Zpos (Qden x)).

Definition gst_vosk_convert_float_to_s16 (input : list Q) : list Z :=
  map (fun sample => gint16_of_gfloat (CLAMP sample (-32768) 32767)) input.

(** The body of [if (vosk->denoise_buffer_pos == RNNOISE_FRAME_SIZE)]: a full
    frame is denoised and appended to the output buffer when it fits. *)
Definition denoise_full_frame (w : World) : World :=
  let w := gst_vosk_process_denoise_frame w in
  let v := vosk w in
  let w :=
    if (denoise_output_pos v + RNNOISE_FRAME_SIZE <=? denoise_buffer_size v)%nat
    then
      (* Append the clean frame to our "ready" output buffer *)
      let w :=
        upd (set_denoise_output_buffer
               (array_write (denoise_output_buffer v) (denoise_output_pos v)
                  (array_read (denoise_input_buffer v) 0 RNNOISE_FRAME_SIZE)))
            w in
      upd (set_denoise_output_pos
             (denoise_output_pos v + RNNOISE_FRAME_SIZE)%nat) w
    else emit Warning_frame_dropped w in
  (* Reset input buffer *)
  upd (set_denoise_buffer_pos 0%nat) w.

(** The [while (samples_read < s16_buffer_samples)] loop.  Every turn reads at
    least one sample as long as [denoise_buffer_pos] is below the frame size;
    [fuel] bounds the number of turns and [None] means it ran out. *)
Fixpoint denoise_accumulate (fuel : nat) (w : World) (s16_buffer : list Z)
  (samples_read : nat) : option World :=
  if (length s16_buffer <=? samples_read)%nat then Some w
  else
    match fuel with
    | O => None
    | S fuel =>
      let v := vosk w in
      let to_copy :=
        Nat.min (RNNOISE_FRAME_SIZE - denoise_buffer_pos v)
                (length s16_buffer - samples_read) in
      let w :=
        upd (set_denoise_input_buffer
               (array_write (denoise_input_buffer v) (denoise_buffer_pos v)
                  (gst_vosk_convert_s16_to_float
                     (firstn to_copy (skipn samples_read s16_buffer))))) w in
      let samples_read := (samples_read + to_copy)%nat in
      let w :=
        upd (set_denoise_buffer_pos (denoise_buffer_pos v + to_copy)%nat) w in
      (* If we have a full frame, denoise it and move it to the output buffer *)
      let w :=
        if (denoise_buffer_pos (vosk w) =? RNNOISE_FRAME_SIZE)%nat
        then denoise_full_frame w
        else w in
      denoise_accumulate fuel w s16_buffer samples_read
    end.

(** The rest of [gst_vosk_apply_denoise]: the buffer takes the clean samples
    at the front of the output buffer, the remainder moves down, and what is
    missing is silence. *)
Definition denoise_drain (w : World) (s16_buffer : list Z)
  : World * list Z :=
  let v := vosk w in
  let s16_buffer_samples := length s16_buffer in
  let samples_to_write := Nat.min (denoise_output_pos v) s16_buffer_samples in
  let '(w, s16_buffer) :=
    if (0 <? samples_to_write)%nat then
      let s16_buffer :=
        gst_vosk_convert_float_to_s16
          (array_read (denoise_output_buffer v) 0 samples_to_write)
        ++ skipn samples_to_write s16_buffer in
      (* Remove the data we just used by shifting the remainder *)
      let w :=
        upd (set_denoise_output_pos
               (denoise_output_pos v - samples_to_write)%nat) w in
      let w :=
        if (0 <? denoise_output_pos (vosk w))%nat then
          upd (set_denoise_output_buffer
                 (array_write (denoise_output_buffer v) 0
                    (array_read (denoise_output_buffer v) samples_to_write
                       (denoise_output_pos (vosk w))))) w
        else w in
      (w, s16_buffer)
    else (w, s16_buffer) in
  (* Not enough clean audio: fill the rest with silence. *)
  let s16_buffer :=
    if (samples_to_write <? s16_buffer_samples)%nat then
      firstn samples_to_write s16_buffer
      ++ repeat 0 (s16_buffer_samples - samples_to_write)
    else s16_buffer in
  (w, s16_buffer).

(** [gst_vosk_apply_denoise] on the samples of the mapped buffer.  The loop
    is given one unit of fuel per sample, which is enough whenever
    [denoise_buffer_pos] is below the frame size ([denoise_accumulate_runs]);
    outside of that the C loop writes past its buffer, and the model leaves
    the buffer alone. *)
Definition gst_vosk_apply_denoise (w : World) (s16_buffer : list Z)
  : World * list Z :=
  let v := vosk w in
  if negb (enable_denoise v) || negb (denoise_initialized v)
  then (w, s16_buffer)
  else if negb (rate v =? 48000) then (w, s16_buffer)
  else
    match denoise_accumulate (length s16_buffer) w s16_buffer 0 with
    | Some w => denoise_drain w s16_buffer
    | None => (w, s16_buffer)
    end.

(** ** The recogniser *)

Definition gst_vosk_recognizer_new (w : World) (model : pointer)
  : World * bool :=
  let w := upd (set_rate (gst_vosk_get_rate (vosk w))) w in
  if rate (vosk w) <=? 0 then (w, false)
  else if is_null model then (w, false)
  else
    (* Setup denoise after we have the sample rate *)
    let w := if enable_denoise (vosk w) then fst (gst_vosk_init_denoise w)
             else w in
    let r := vosk_recognizer_new (trace w) model (rate (vosk w)) in
    let w := emit (Call_vosk_recognizer_new model (rate (vosk w)) r) w in
    let w := upd (set_recognizer r) w in
    let w := emit (Call_vosk_recognizer_set_max_alternatives
                     (recognizer (vosk w)) (alternatives (vosk w))) w in
    (w, true).

Definition gst_vosk_reset (w : World) : World :=
  let w :=
    if is_null (recognizer (vosk w)) then w
    else upd (set_recognizer NULL)
             (emit (Call_vosk_recognizer_free (recognizer (vosk w))) w) in
  let w := upd (set_prev_partial None) w in
  (* Reset denoise state *)
  let w :=
    match denoise_input_buffer (vosk w) with
    | None => w
    | Some _ =>
      let w := upd (set_denoise_buffer_pos 0%nat) w in
      upd (set_denoise_input_buffer
             (array_write (denoise_input_buffer (vosk w)) 0
                (repeat 0%Q (denoise_buffer_size (vosk w))))) w
    end in
  let w := upd (set_denoise_initialized false) w in
  let w := upd (set_last_processed_time GST_CLOCK_TIME_NONE) w in
  upd (set_rate 0) w.

Definition gst_vosk_cancel_model_loading (w : World) : World :=
  if is_null (current_operation (vosk w)) then w
  else
    let w := g_cancellable_cancel (current_operation (vosk w)) w in
    upd (set_current_operation NULL) w.

(** ** Loading the model *)

Record GstVoskThreadData := mkThreadData {
  path : string;
  cancellable : pointer
}.

(** The label [clean:] of the loader. *)
Definition load_model_clean (status : GstVoskThreadData) (w : World) : World :=
  g_cancellable_cancel (cancellable status) w.

(** What the loader does once it holds the lock, from [GST_VOSK_LOCK] to its
    end. *)
Definition load_model_locked (status : GstVoskThreadData) (model : pointer)
  (w : World) : World :=
  (* This is a point of no return for loading model *)
  let w := upd (set_current_operation NULL) w in
  if g_cancellable_is_cancelled w (cancellable status) then
    let w := emit (Call_vosk_model_free model) w in
    load_model_clean status w
  else if is_null model then
    let w := emit Element_error w in
    let w := emit Call_gst_element_abort_state w in
    load_model_clean status w
  else
    let w := fst (gst_vosk_recognizer_new w model) in
    let w := emit (Call_vosk_model_free model) w in
    let w := emit Message_async_done w in
    let w := emit Call_gst_element_continue_state w in
    load_model_clean status w.

(** The worker of the thread pool.  The model is built without the lock;
    [meanwhile] is what the other threads did to the world between the first
    check of the flag and the moment the worker gets the lock. *)
Definition gst_vosk_load_model_async (meanwhile : World -> World)
  (status : GstVoskThreadData) (w : World) : World :=
  (* Thread might have been cancelled while waiting, so check that *)
  if g_cancellable_is_cancelled w (cancellable status) then
    load_model_clean status w
  else
    let model := vosk_model_new (trace w) (path status) in
    let w := emit (Call_vosk_model_new (path status) model) w in
    let w := meanwhile w in
    load_model_locked status model w.

Inductive GstStateChangeReturn :=
| GST_STATE_CHANGE_FAILURE
| GST_STATE_CHANGE_SUCCESS
| GST_STATE_CHANGE_ASYNC.

(** Returns the request pushed to the pool, if any, next to the result. *)
Definition gst_vosk_check_model_path (w : World)
  : World * GstStateChangeReturn * option GstVoskThreadData :=
  match model_path (vosk w) with
  | None => (emit Element_error w, GST_STATE_CHANGE_FAILURE, None)
  | Some model_path =>
    let w := upd (set_last_processed_time GST_CLOCK_TIME_NONE) w in
    if negb (is_null (recognizer (vosk w))) then
      (w, GST_STATE_CHANGE_SUCCESS, None)
    else
      (* Start loading a new model *)
      let '(w, c) := g_cancellable_new w in
      let w := upd (set_current_operation c) w in
      let thread_data := {| path := model_path; cancellable := c |} in
      let w := emit (Call_g_thread_pool_push model_path c) w in
      let w := emit Message_async_start w in
      (w, GST_STATE_CHANGE_ASYNC, Some thread_data)
  end.

Inductive GstStateChange :=
| GST_STATE_CHANGE_NULL_TO_READY
| GST_STATE_CHANGE_READY_TO_PAUSED
| GST_STATE_CHANGE_PAUSED_TO_PLAYING
| GST_STATE_CHANGE_PLAYING_TO_PAUSED
| GST_STATE_CHANGE_PAUSED_TO_READY
| GST_STATE_CHANGE_READY_TO_NULL
| GST_STATE_CHANGE_NULL_TO_NULL
| GST_STATE_CHANGE_READY_TO_READY
| GST_STATE_CHANGE_PAUSED_TO_PAUSED
| GST_STATE_CHANGE_PLAYING_TO_PLAYING.

(** [parent_ok] is whether the parent class accepts the transition. *)
Definition gst_vosk_change_state (parent_ok : bool) (w : World)
  (transition : GstStateChange)
  : World * GstStateChangeReturn * option GstVoskThreadData :=
  let '(w, ret, pushed) :=
    match transition with
    | GST_STATE_CHANGE_READY_TO_PAUSED
    | GST_STATE_CHANGE_PAUSED_TO_PAUSED => gst_vosk_check_model_path w
    | _ => (w, GST_STATE_CHANGE_SUCCESS, None)
    end in
  match ret with
  | GST_STATE_CHANGE_FAILURE => (w, GST_STATE_CHANGE_FAILURE, pushed)
  | _ =>
    if negb parent_ok then (w, GST_STATE_CHANGE_FAILURE, pushed)
    else
      let w :=
        match transition with
        | GST_STATE_CHANGE_READY_TO_READY
        | GST_STATE_CHANGE_PAUSED_TO_READY =>
          gst_vosk_reset (gst_vosk_cancel_model_loading w)
        | _ => w
        end in
      (w, ret, pushed)
  end.

(** ** Properties and result queries *)

Definition gst_vosk_set_num_alternatives (w : World) : World :=
  if negb (is_null (recognizer (vosk w))) then
    emit (Call_vosk_recognizer_set_max_alternatives
            (recognizer (vosk w)) (alternatives (vosk w))) w
  else w.

Inductive GstState :=
| GST_STATE_VOID_PENDING
| GST_STATE_NULL
| GST_STATE_READY
| GST_STATE_PAUSED
| GST_STATE_PLAYING.

Definition gst_vosk_set_model_path (state : GstState) (w : World)
  (model_path' : option string) : World :=
  match state with
  | GST_STATE_READY | GST_STATE_NULL =>
    if g_strcmp0_eq model_path' (model_path (vosk w)) then w
    else upd (set_model_path model_path') w
  | _ => w
  end.

(** [state] is the state of the element when the property is set. *)
Definition gst_vosk_set_property (state : GstState) (w : World)
  (prop_id : PropId) (value : GValue) : World :=
  match prop_id with
  | PROP_USE_SIGNALS => upd (set_use_signals (g_value_get_boolean value)) w
  | PROP_SPEECH_MODEL =>
    gst_vosk_set_model_path state w (g_value_get_string value)
  | PROP_ENABLE_DENOISE =>
    let w := upd (set_enable_denoise (g_value_get_boolean value)) w in
    (* Force re-initialization *)
    upd (set_denoise_initialized false) w
  | PROP_ALTERNATIVES =>
    if alternatives (vosk w) =? g_value_get_int value then w
    else
      let w := upd (set_alternatives (g_value_get_int value)) w in
      gst_vosk_set_num_alternatives w
  | PROP_PARTIAL_RESULTS_INTERVAL =>
    (* a [gint64] product: two's complement wrap-around where the C
       standard leaves the overflow undefined *)
    upd (set_partial_time_interval
           (to_gint64 (g_value_get_int64 value * GST_MSECOND))) w
  | _ => w
  end.

(** The payload is one of the strings the function mutes. *)
Definition final_result_is_empty (json_txt : option string) : bool :=
  match json_txt with
  | None => true
  | Some s => strcmp_eq s VOSK_EMPTY_TEXT_RESULT
              || strcmp_eq s VOSK_EMPTY_TEXT_RESULT_ALT
  end.

(** MUST be called with lock held *)
Definition gst_vosk_final_result (w : World) : World * option string :=
  if is_null (recognizer (vosk w)) then (w, None)
  else
    let json_txt := vosk_recognizer_final_result (trace w) (recognizer (vosk w)) in
    let w := emit (Call_vosk_recognizer_final_result (recognizer (vosk w))
                     json_txt) w in
    let w := upd (set_prev_partial None) w in
    if final_result_is_empty json_txt then (w, None) else (w, json_txt).

Definition result_is_empty (json_txt : option string) : bool :=
  match json_txt with
  | None => true
  | Some s => strcmp_eq s VOSK_EMPTY_TEXT_RESULT
  end.

Definition gst_vosk_result (w : World) : World * option string :=
  if is_null (recognizer (vosk w)) then (w, None)
  else
    let json_txt := vosk_recognizer_result (trace w) (recognizer (vosk w)) in
    let w := emit (Call_vosk_recognizer_result (recognizer (vosk w))
                     json_txt) w in
    let w := upd (set_prev_partial None) w in
    (* Don't send message if empty *)
    if result_is_empty json_txt then (w, None) else (w, json_txt).

Definition gst_vosk_get_property (w : World) (prop_id : PropId)
  : World * GValue :=
  match prop_id with
  | PROP_USE_SIGNALS => (w, GBoolean (use_signals (vosk w)))
  | PROP_SPEECH_MODEL => (w, GString (model_path (vosk w)))
  | PROP_ENABLE_DENOISE => (w, GBoolean (enable_denoise (vosk w)))
  | PROP_ALTERNATIVES => (w, GInt (alternatives (vosk w)))
  | PROP_CURRENT_FINAL_RESULTS =>
    let '(w, txt) := gst_vosk_final_result w in (w, GString txt)
  | PROP_CURRENT_RESULTS =>
    let '(w, txt) := gst_vosk_result w in (w, GString txt)
  | PROP_PARTIAL_RESULTS_INTERVAL =>
    (w, GInt64 (Z.quot (partial_time_interval (vosk w)) GST_MSECOND))
  | PROP_0 => (w, GUnset)
  end.

Definition gst_vosk_message_new (w : World) (text_results : option string)
  : World :=
  match text_results with
  | None => w
  | Some text =>
    if use_signals (vosk w) then emit (Signal_result text) w
    else emit (Message_element text) w
  end.

Definition gst_vosk_final_result_msg (w : World) : World :=
  let '(w, json_txt) := gst_vosk_final_result w in
  match json_txt with
  | Some _ => gst_vosk_message_new w json_txt
  | None => w
  end.

Definition gst_vosk_flush (w : World) : World :=
  if negb (is_null (recognizer (vosk w))) then
    emit (Call_vosk_recognizer_reset (recognizer (vosk w))) w
  else w.

Inductive GstEventType :=
| GST_EVENT_FLUSH_START
| GST_EVENT_FLUSH_STOP
| GST_EVENT_EOS
| GST_EVENT_OTHER.

Definition gst_vosk_sink_event (w : World) (event : GstEventType) : World :=
  match event with
  | GST_EVENT_FLUSH_START => gst_vosk_flush w
  | GST_EVENT_EOS =>
    (* Cancel any ongoing model loading *)
    let w := gst_vosk_cancel_model_loading w in
    gst_vosk_final_result_msg w
  | _ => w
  end.

Definition gst_vosk_result_msg (w : World) : World :=
  let '(w, json_txt) := gst_vosk_result w in
  match json_txt with
  | Some _ => gst_vosk_message_new w json_txt
  | None => w
  end.

Definition partial_result_is_empty (json_txt : option string) : bool :=
  match json_txt with
  | None => true
  | Some s => strcmp_eq s VOSK_EMPTY_PARTIAL_RESULT
              || strcmp_eq s VOSK_EMPTY_TEXT_RESULT_ALT
  end.

Definition gst_vosk_partial_result (w : World) : World :=
  let json_txt :=
    vosk_recognizer_partial_result (trace w) (recognizer (vosk w)) in
  let w := emit (Call_vosk_recognizer_partial_result (recognizer (vosk w))
                   json_txt) w in
  if partial_result_is_empty json_txt then w
  (* To avoid posting message unnecessarily, make sure there is a change. *)
  else if g_strcmp0_eq json_txt (prev_partial (vosk w)) then w
  else
    let w := upd (set_prev_partial json_txt) w in
    gst_vosk_message_new w json_txt.

(** ** The streaming thread *)

(** [current_time] is what [gst_element_get_current_running_time] returns
    when the buffer is handled.  The buffer comes back as the denoise step
    left it. *)
Definition gst_vosk_handle_buffer (w : World) (buf : GstBuffer)
  (current_time : Z) : World * GstBuffer :=
  if negb (map_ok buf) then (w, buf)
  else if (info_size buf =? 0)%nat then (w, buf)
  else
    (* Apply denoising if enabled *)
    let '(w, data) := gst_vosk_apply_denoise w (samples buf) in
    let buf := set_samples data buf in
    let result :=
      vosk_recognizer_accept_waveform (trace w) (recognizer (vosk w))
        (samples buf) in
    let w := emit (Call_vosk_recognizer_accept_waveform
                     (recognizer (vosk w)) (samples buf) result) w in
    if result =? -1 then (w, buf)
    else
      let diff_time := GST_CLOCK_DIFF (GST_BUFFER_PTS buf) current_time in
      let skip :=
        if diff_time >? GST_SECOND / 2 then
          (* Check results every half second nevertheless. *)
          let diff_time :=
            GST_CLOCK_DIFF (last_processed_time (vosk w)) (GST_BUFFER_PTS buf) in
          diff_time <? Z.shiftl GST_SECOND 1 / 10
        else false in
      if skip then (w, buf)
      else
        let w := upd (set_last_processed_time (GST_BUFFER_PTS buf)) w in
        if result =? 1 then
          let w := gst_vosk_result_msg w in
          let w := upd (set_last_partial (GST_BUFFER_PTS buf)) w in
          (w, buf)
        else if partial_time_interval (vosk w) <? 0 then (w, buf)
        else
          let diff_time :=
            GST_CLOCK_DIFF (last_partial (vosk w)) (GST_BUFFER_PTS buf) in
          if partial_time_interval (vosk w) <? diff_time then
            let w := gst_vosk_partial_result w in
            let w := upd (set_last_partial (GST_BUFFER_PTS buf)) w in
            (w, buf)
          else (w, buf).

Definition gst_vosk_chain (w : World) (buf : GstBuffer) (current_time : Z)
  : World * GstBuffer :=
  let '(w, buf) :=
    if negb (is_null (recognizer (vosk w))) then
      let w :=
        if last_processed_time (vosk w) =? GST_CLOCK_TIME_NONE
        then upd (set_last_processed_time (GST_BUFFER_PTS buf)) w
        else w in
      gst_vosk_handle_buffer w buf current_time
    else
      (* PREROLL: the model is still being loaded; only take the time. *)
      let w :=
        if last_processed_time (vosk w) =? GST_CLOCK_TIME_NONE
        then upd (set_last_processed_time (GST_BUFFER_PTS buf)) w
        else w in
      (w, buf) in
  (emit (Call_gst_pad_push (samples buf)) w, buf).

End Element.

(** The element as [gst_vosk_init] leaves it (the other fields are zeroed by
    GObject). *)
Definition gst_vosk_init : GstVosk :=
  {| sinkpad_rate := None;
     recognizer := NULL;
     prev_partial := None;
     model_path := Some DEFAULT_SPEECH_MODEL;
     rate := 0;
     alternatives := DEFAULT_ALTERNATIVE_NUM;
     use_signals := false;
     partial_time_interval := 0;
     last_processed_time := 0;
     last_partial := 0;
     current_operation := NULL;
     enable_denoise := DEFAULT_ENABLE_DENOISE;
     denoise_initialized := false;
     denoise_state := NULL;
     denoise_input_buffer := None;
     denoise_output_buffer := None;
     denoise_buffer_size := 0%nat;
     denoise_buffer_pos := 0%nat;
     denoise_output_pos := 0%nat |}.

(** ** Reading traces *)

Definition is_query (e : Event) : bool :=
  match e with
  | Call_vosk_recognizer_result _ _
  | Call_vosk_recognizer_partial_result _ _
  | Call_vosk_recognizer_final_result _ _ => true
  | _ => false
  end.

Definition is_partial_query (e : Event) : bool :=
  match e with
  | Call_vosk_recognizer_partial_result _ _ => true
  | _ => false
  end.

Definition is_emission (e : Event) : bool :=
  match e with
  | Signal_result _ | Message_element _ => true
  | _ => false
  end.

Definition is_accept_waveform (e : Event) : bool :=
  match e with
  | Call_vosk_recognizer_accept_waveform _ _ _ => true
  | _ => false
  end.

Definition is_process_frame (e : Event) : bool :=
  match e with
  | Call_rnnoise_process_frame _ _ => true
  | _ => false
  end.

(** The events of the denoise step. *)
Definition is_denoise_event (e : Event) : bool :=
  match e with
  | Call_rnnoise_process_frame _ _ | Warning_frame_dropped => true
  | _ => false
  end.

Definition is_error (e : Event) : bool :=
  match e with
  | Element_error | Call_gst_element_abort_state => true
  | _ => false
  end.

Definition is_install (e : Event) : bool :=
  match e with
  | Call_vosk_recognizer_new _ _ _ => true
  | _ => false
  end.

Definition queries (evs : list Event) : list Event := filter is_query evs.
Definition emissions (evs : list Event) : list Event := filter is_emission evs.
Definition fed (evs : list Event) : list Event := filter is_accept_waveform evs.
Definition frames_run (evs : list Event) : nat :=
  length (filter is_process_frame evs).

(** How [gst_vosk_message_new] delivers a text. *)
Definition emission_of (v : GstVosk) (text : string) : Event :=
  if use_signals v then Signal_result text else Message_element text.

(** The fields the denoise step never touches. *)
Definition outside_denoise (v : GstVosk) :=
  (sinkpad_rate v, recognizer v, prev_partial v, model_path v, rate v,
   alternatives v, use_signals v, partial_time_interval v,
   last_processed_time v, last_partial v, current_operation v).

(** The clean samples waiting in the output buffer. *)
Definition output_queue (v : GstVosk) : list Q :=
  array_read (denoise_output_buffer v) 0 (denoise_output_pos v).

(** The denoise step is the real one, not the pass-through. *)
Definition denoise_active (v : GstVosk) : Prop :=
  enable_denoise v = true /\ denoise_initialized v = true /\ rate v = 48000.

(** The buffers [gst_vosk_init_denoise] allocates, as every later step keeps
    them: a state, two buffers of [denoise_buffer_size] cells that hold at
    least a frame, and an output position within the buffer. *)
Definition denoise_buffers_ok (v : GstVosk) : Prop :=
  denoise_state v <> NULL /\
  (exists ib, denoise_input_buffer v = Some ib
              /\ length ib = denoise_buffer_size v) /\
  (exists ob, denoise_output_buffer v = Some ob
              /\ length ob = denoise_buffer_size v) /\
  (RNNOISE_FRAME_SIZE <= denoise_buffer_size v)%nat /\
  (denoise_output_pos v <= denoise_buffer_size v)%nat.

(** Between two buffers the input buffer holds less than a frame. *)
Definition denoise_wf (v : GstVosk) : Prop :=
  denoise_buffers_ok v /\
  (denoise_buffer_pos v < RNNOISE_FRAME_SIZE)%nat.

(** ** Engines for the examples *)

(** An engine whose answers do not depend on the history; its noise
    suppression returns the frame as it is. *)
Definition fixed_engine (accept : Z) (result partial final : option string)
  : Externals :=
  {| vosk_model_new := fun _ _ => 1%nat;
     vosk_recognizer_new := fun _ _ _ => 1%nat;
     vosk_recognizer_accept_waveform := fun _ _ _ => accept;
     vosk_recognizer_result := fun _ _ => result;
     vosk_recognizer_partial_result := fun _ _ => partial;
     vosk_recognizer_final_result := fun _ _ => final;
     rnnoise_create := fun _ => 1%nat;
     rnnoise_process_frame := fun _ _ frame i => nth i frame 0%Q |}.

(** [{"text": "hello"}] and [{"partial": "hel"}] *)
Definition hello_text : string :=
  ("{" ++ dquote ++ "text" ++ dquote ++ ": " ++ dquote ++ "hello"
       ++ dquote ++ "}")%string.
Definition hel_partial : string :=
  ("{" ++ dquote ++ "partial" ++ dquote ++ ": " ++ dquote ++ "hel"
       ++ dquote ++ "}")%string.

(** A ready element: recogniser [1] bound at 16 kHz, no denoising, partial
    results every 200 ms. *)
Definition ready_vosk : GstVosk :=
  set_enable_denoise false
    (set_partial_time_interval (200 * GST_MSECOND)
       (set_rate 16000
          (set_recognizer 1%nat
             (set_sinkpad_rate (Some 16000) gst_vosk_init)))).

(** ** Vocabulary of the statements *)

(** [w'] comes from [w] by denoise work only. *)
Definition denoise_step (w w' : World) : Prop :=
  outside_denoise (vosk w') = outside_denoise (vosk w) /\
  cancellables w' = cancellables w /\
  exists evs, trace w' = trace w ++ evs
              /\ forallb is_denoise_event evs = true.

(** The messages a text gives rise to. *)
Definition emission_events (v : GstVosk) (txt : option string) : list Event :=
  match txt with
  | None => []
  | Some s => [emission_of v s]
  end.

(** The buffer is held back by the catch-up rule. *)
Definition throttled (v : GstVosk) (buf : GstBuffer) (current_time : Z) : Prop :=
  GST_CLOCK_DIFF (pts buf) current_time > 500 * GST_MSECOND /\
  GST_CLOCK_DIFF (last_processed_time v) (pts buf) < 200 * GST_MSECOND.

(** The time since the last partial query is over the interval. *)
Definition partial_due (v : GstVosk) (buf : GstBuffer) : Prop :=
  partial_time_interval v < GST_CLOCK_DIFF (last_partial v) (pts buf).

(** What handling a buffer does, case by case, for the world [w'] it leaves
    and the events [evs] it adds. *)
Definition buffer_outcome (v : GstVosk) (buf : GstBuffer) (current_time : Z)
  (ret : Z) (v' : GstVosk) (evs : list Event) : Prop :=
  let r := recognizer v in
  (ret = -1 ->
   queries evs = [] /\ emissions evs = [] /\
   outside_denoise v' = outside_denoise v) /\
  (throttled v buf current_time ->
   queries evs = [] /\ emissions evs = [] /\
   outside_denoise v' = outside_denoise v) /\
  (ret <> -1 -> ~ throttled v buf current_time ->
   last_processed_time v' = pts buf /\
   (ret = 1 -> r <> NULL ->
    exists txt,
      queries evs = [Call_vosk_recognizer_result r txt] /\
      emissions evs =
        (if result_is_empty txt then [] else emission_events v txt) /\
      last_partial v' = pts buf /\
      prev_partial v' = None) /\
   (ret = 1 -> r = NULL ->
    queries evs = [] /\ emissions evs = [] /\
    last_partial v' = pts buf /\ prev_partial v' = prev_partial v) /\
   (ret <> 1 -> partial_time_interval v < 0 ->
    queries evs = [] /\ emissions evs = [] /\
    last_partial v' = last_partial v /\ prev_partial v' = prev_partial v) /\
   (ret <> 1 -> 0 <= partial_time_interval v -> partial_due v buf ->
    exists txt,
      queries evs = [Call_vosk_recognizer_partial_result r txt] /\
      emissions evs =
        (if partial_result_is_empty txt
            || g_strcmp0_eq txt (prev_partial v)
         then [] else emission_events v txt) /\
      last_partial v' = pts buf /\
      prev_partial v' =
        (if partial_result_is_empty txt
            || g_strcmp0_eq txt (prev_partial v)
         then prev_partial v else txt)) /\
   (ret <> 1 -> 0 <= partial_time_interval v -> ~ partial_due v buf ->
    queries evs = [] /\ emissions evs = [] /\
    last_partial v' = last_partial v /\ prev_partial v' = prev_partial v)).


Section Recognize.

Context {ext : Externals}.

(** [gst_vosk_handle_buffer] from the call of [vosk_recognizer_accept_waveform]
    on, for a buffer that was mapped and denoised. *)
Definition recognize_buffer (w : World) (buf : GstBuffer) (current_time : Z)
  : World * GstBuffer :=
  let result :=
    vosk_recognizer_accept_waveform (trace w) (recognizer (vosk w))
      (samples buf) in
  let w := emit (Call_vosk_recognizer_accept_waveform
                   (recognizer (vosk w)) (samples buf) result) w in
  if result =? -1 then (w, buf)
  else
    let diff_time := GST_CLOCK_DIFF (GST_BUFFER_PTS buf) current_time in
    let skip :=
      if diff_time >? GST_SECOND / 2 then
        let diff_time :=
          GST_CLOCK_DIFF (last_processed_time (vosk w)) (GST_BUFFER_PTS buf) in
        diff_time <? Z.shiftl GST_SECOND 1 / 10
      else false in
    if skip then (w, buf)
    else
      let w := upd (set_last_processed_time (GST_BUFFER_PTS buf)) w in
      if result =? 1 then
        let w := gst_vosk_result_msg w in
        let w := upd (set_last_partial (GST_BUFFER_PTS buf)) w in
        (w, buf)
      else if partial_time_interval (vosk w) <? 0 then (w, buf)
      else
        let diff_time :=
          GST_CLOCK_DIFF (last_partial (vosk w)) (GST_BUFFER_PTS buf) in
        if partial_time_interval (vosk w) <? diff_time then
          let w := gst_vosk_partial_result w in
          let w := upd (set_last_partial (GST_BUFFER_PTS buf)) w in
          (w, buf)
        else (w, buf).

End Recognize.

(** ** The statements of the specification as worded, and inputs to try
    them on *)

Definition world_of (v : GstVosk) : World :=
  {| vosk := v; cancellables := []; trace := [] |}.

(** A buffer of one sample with timestamp [ts]. *)
Definition one_sample_buffer (ts : Z) : GstBuffer :=
  {| pts := ts; samples := [0]; odd_byte := false; map_ok := true |}.

(** The engine reports a final boundary and has [hello_text] as result. *)
Definition final_engine : Externals :=
  fixed_engine 1 (Some hello_text) (Some hel_partial) (Some hello_text).

(** The engine reports no boundary and has [hel_partial] as partial
    result. *)
Definition partial_engine : Externals :=
  fixed_engine 0 (Some hello_text) (Some hel_partial) (Some hello_text).

(** The ready element that last processed a buffer stamped [ts]. *)
Definition ready_world_at (ts : Z) : World :=
  world_of (set_last_processed_time ts ready_vosk).

(** C1 with "exceeds 200 ms" read as written: while lagging by more than
    500 ms a query is made only if more than 200 ms passed since the last
    processed buffer, and otherwise the buffer is fed and not queried. *)
Definition catch_up_claim_as_stated : Prop :=
  forall (ext : Externals) (w : World) (buf : GstBuffer) (t : Z),
    recognizer (vosk w) <> NULL ->
    map_ok buf = true -> info_size buf <> 0%nat ->
    let evs := events_since w (fst (gst_vosk_handle_buffer w buf t)) in
    let elapsed := GST_CLOCK_DIFF (last_processed_time (vosk w)) (pts buf) in
    GST_CLOCK_DIFF (pts buf) t > 500 * GST_MSECOND ->
    (queries evs <> [] -> elapsed > 200 * GST_MSECOND) /\
    (~ elapsed > 200 * GST_MSECOND -> fed evs <> [] /\ queries evs = []).

(** C2 as written: whenever the engine answers 1 for a buffer, the result is
    queried and emitted, exactly once, the last-partial time is the buffer's
    and the cache of the previous partial is cleared. *)
Definition final_boundary_claim_as_stated : Prop :=
  forall (ext : Externals) (w : World) (buf : GstBuffer) (t : Z)
         (r : pointer) (d : list Z),
    recognizer (vosk w) <> NULL ->
    map_ok buf = true -> info_size buf <> 0%nat ->
    let w' := fst (gst_vosk_handle_buffer w buf t) in
    let evs := events_since w w' in
    In (Call_vosk_recognizer_accept_waveform r d 1) evs ->
    (exists txt, queries evs = [Call_vosk_recognizer_result r txt]) /\
    length (emissions evs) = 1%nat /\
    last_partial (vosk w') = pts buf /\
    prev_partial (vosk w') = None.

(** C3 as written: with no final boundary and a non-negative interval, a
    partial query is made exactly when the time since the last partial is
    over the interval. *)
Definition partial_cadence_claim_as_stated : Prop :=
  forall (ext : Externals) (w : World) (buf : GstBuffer) (t : Z)
         (r : pointer) (d : list Z),
    recognizer (vosk w) <> NULL ->
    map_ok buf = true -> info_size buf <> 0%nat ->
    let evs := events_since w (fst (gst_vosk_handle_buffer w buf t)) in
    In (Call_vosk_recognizer_accept_waveform r d 0) evs ->
    0 <= partial_time_interval (vosk w) ->
    (filter is_partial_query evs <> [] <-> partial_due (vosk w) buf).

(** C5 as written: the first buffer after activation sets the baseline and
    nothing is emitted for it. *)
Definition first_buffer_claim_as_stated : Prop :=
  forall (ext : Externals) (w : World) (buf : GstBuffer) (t : Z),
    last_processed_time (vosk w) = GST_CLOCK_TIME_NONE ->
    let w' := fst (gst_vosk_chain w buf t) in
    last_processed_time (vosk w') = pts buf /\
    emissions (events_since w w') = [].

(** C4 as written: a flush resets the recogniser, keeps the handle, the rate
    and the model, and clears the cache of the previous partial. *)
Definition flush_claim_as_stated : Prop :=
  forall (ext : Externals) (w : World),
    recognizer (vosk w) <> NULL ->
    let w' := gst_vosk_sink_event w GST_EVENT_FLUSH_START in
    events_since w w' = [Call_vosk_recognizer_reset (recognizer (vosk w))] /\
    recognizer (vosk w') = recognizer (vosk w) /\
    rate (vosk w') = rate (vosk w) /\
    model_path (vosk w') = model_path (vosk w) /\
    prev_partial (vosk w') = None.

(** The payloads the file names as empty, and [NULL]. *)
Definition empty_sentinels : list (option string) :=
  [None; Some VOSK_EMPTY_PARTIAL_RESULT; Some VOSK_EMPTY_TEXT_RESULT;
   Some VOSK_EMPTY_TEXT_RESULT_ALT].

(** C6 as written: each of the three queries mutes each of the empty
    payloads. *)
Definition sentinel_claim_as_stated : Prop :=
  forall (ext : Externals) (w : World) (s : option string),
    In s empty_sentinels ->
    recognizer (vosk w) <> NULL ->
    (vosk_recognizer_final_result (trace w) (recognizer (vosk w)) = s ->
     snd (gst_vosk_final_result w) = None /\
     emissions (events_since w (gst_vosk_final_result_msg w)) = []) /\
    (vosk_recognizer_result (trace w) (recognizer (vosk w)) = s ->
     snd (gst_vosk_result w) = None /\
     emissions (events_since w (gst_vosk_result_msg w)) = []) /\
    (vosk_recognizer_partial_result (trace w) (recognizer (vosk w)) = s ->
     emissions (events_since w (gst_vosk_partial_result w)) = []).

(** The session of the specification's data model: sample rate, recogniser
    handle, alternatives, partial interval, the two timestamps and the cache
    of the previous partial. *)
Definition session_state (v : GstVosk) :=
  (rate v, recognizer v, alternatives v, partial_time_interval v,
   last_processed_time v, last_partial v, prev_partial v).

(** An element that just started loading its model, and the request it
    pushed to the pool. *)
Definition loading_world : World :=
  fst (fst (gst_vosk_check_model_path
              (world_of (set_sinkpad_rate (Some 16000) gst_vosk_init)))).

Definition loading_request : GstVoskThreadData :=
  {| path := DEFAULT_SPEECH_MODEL; cancellable := 1%nat |}.

(** Writing and reading the [partial-results-interval] property. *)
Definition set_partial_results_interval (w : World) (ms : Z) : World :=
  gst_vosk_set_property GST_STATE_NULL w PROP_PARTIAL_RESULTS_INTERVAL
    (GInt64 ms).

Definition get_partial_results_interval {ext : Externals} (w : World)
  : GValue :=
  snd (gst_vosk_get_property w PROP_PARTIAL_RESULTS_INTERVAL).

(** The largest number of milliseconds whose nanoseconds fit a [gint64]. *)
Definition MAX_INTERVAL_MS : Z := G_MAXINT64 / GST_MSECOND.

(** Buffers that go through the denoise step one after the other. *)
Fixpoint feed_chunks {ext : Externals} (w : World) (chunks : list (list Z))
  : World :=
  match chunks with
  | [] => w
  | s16 :: chunks => feed_chunks (fst (gst_vosk_apply_denoise w s16)) chunks
  end.

(** One turn of the loop of [gst_vosk_apply_denoise]: the world and the
    number of samples read after it. *)
Definition accumulate_turn {ext : Externals} (w : World) (s16_buffer : list Z)
  (samples_read : nat) : World * nat :=
  let v := vosk w in
  let to_copy :=
    Nat.min (RNNOISE_FRAME_SIZE - denoise_buffer_pos v)
            (length s16_buffer - samples_read) in
  let w :=
    upd (set_denoise_input_buffer
           (array_write (denoise_input_buffer v) (denoise_buffer_pos v)
              (gst_vosk_convert_s16_to_float
                 (firstn to_copy (skipn samples_read s16_buffer))))) w in
  let w :=
    upd (set_denoise_buffer_pos (denoise_buffer_pos v + to_copy)%nat) w in
  let w :=
    if (denoise_buffer_pos (vosk w) =? RNNOISE_FRAME_SIZE)%nat
    then denoise_full_frame w
    else w in
  (w, (samples_read + to_copy)%nat).

(** The fields of the denoise step. *)
Definition denoise_fields (v : GstVosk) :=
  (enable_denoise v, denoise_initialized v, denoise_state v,
   denoise_input_buffer v, denoise_output_buffer v, denoise_buffer_size v,
   denoise_buffer_pos v, denoise_output_pos v).

(** Whenever the denoise step is marked initialised its buffers are set
    up. *)
Definition denoise_inv (v : GstVosk) : Prop :=
  denoise_initialized v = true -> denoise_wf v.

(** What can happen to an element: the calls GStreamer and GObject make into
    the file, the stages of the loader thread, and new caps on the sink
    pad. *)
Inductive vosk_step {ext : Externals} : World -> World -> Prop :=
| step_chain (w : World) (buf : GstBuffer) (t : Z) :
    vosk_step w (fst (gst_vosk_chain w buf t))
| step_sink_event (w : World) (e : GstEventType) :
    vosk_step w (gst_vosk_sink_event w e)
| step_set_property (s : GstState) (w : World) (p : PropId) (x : GValue) :
    vosk_step w (gst_vosk_set_property s w p x)
| step_get_property (w : World) (p : PropId) :
    vosk_step w (fst (gst_vosk_get_property w p))
| step_change_state (parent_ok : bool) (w : World) (tr : GstStateChange) :
    vosk_step w (fst (fst (gst_vosk_change_state parent_ok w tr)))
| step_load_model_new (w : World) (status : GstVoskThreadData) :
    vosk_step w
      (emit (Call_vosk_model_new (path status)
               (vosk_model_new (trace w) (path status))) w)
| step_load_locked (w : World) (status : GstVoskThreadData) (model : pointer) :
    vosk_step w (load_model_locked status model w)
| step_load_clean (w : World) (status : GstVoskThreadData) :
    vosk_step w (load_model_clean status w)
| step_caps (w : World) (r : option Z) :
    vosk_step w (upd (set_sinkpad_rate r) w).

(** The worlds an element can be in. *)
Inductive reachable {ext : Externals} : World -> Prop :=
| reachable_init : reachable (world_of gst_vosk_init)
| reachable_step (w w' : World) :
    reachable w -> vosk_step w w' -> reachable w'.

(** An element that went from creation to streaming at 48 kHz with the
    default settings: caps on the sink pad, the change to PAUSED, and a model
    load that ran to its end. *)
Definition caps_world : World :=
  upd (set_sinkpad_rate (Some 48000)) (world_of gst_vosk_init).

Definition paused_world : World :=
  fst (fst (gst_vosk_change_state true caps_world
              GST_STATE_CHANGE_READY_TO_PAUSED)).

Definition model_built_world : World :=
  emit (Call_vosk_model_new (path loading_request)
          (@vosk_model_new final_engine (trace paused_world)
             (path loading_request)))
       paused_world.

Definition streaming_world : World :=
  @load_model_locked final_engine loading_request 1%nat model_built_world.

(** ** Vocabulary of the further properties *)

(** A sample fits a [gint16]. *)
Definition is_gint16 (z : Z) : Prop := -32768 <= z <= 32767.

(** The samples waiting in the input buffer for their frame to fill. *)
Definition pending_samples (v : GstVosk) : list Q :=
  array_read (denoise_input_buffer v) 0 (denoise_buffer_pos v).

(** The frames handed to [rnnoise_process_frame], in order. *)
Definition frames_of (evs : list Event) : list (list Q) :=
  flat_map (fun e => match e with
                     | Call_rnnoise_process_frame _ frame => [frame]
                     | _ => []
                     end) evs.

(** An initialised denoise step has its buffers set up, two frames long. *)
Definition denoise_sized (v : GstVosk) : Prop :=
  denoise_inv v /\
  (denoise_initialized v = true ->
   denoise_buffer_size v = (2 * RNNOISE_FRAME_SIZE)%nat).

(** The settings and handles a buffer must not change. *)
Definition config_fields (v : GstVosk) :=
  (sinkpad_rate v, recognizer v, model_path v, rate v, alternatives v,
   use_signals v, partial_time_interval v, current_operation v).

(** What the streaming thread may ask of the engine and send out for a
    buffer: feed the installed recogniser, query its result or its partial
    result (never the final result), and deliver a text the way
    [use_signals] says. *)
Definition engine_event_ok (v : GstVosk) (e : Event) : bool :=
  match e with
  | Call_vosk_recognizer_accept_waveform r _ _
  | Call_vosk_recognizer_result r _
  | Call_vosk_recognizer_partial_result r _ => Nat.eqb r (recognizer v)
  | Signal_result _ => use_signals v
  | Message_element _ => negb (use_signals v)
  | _ => false
  end.

(** The first thing [gst_vosk_chain] does in either branch: a buffer that
    finds no last-processed time leaves its own. *)
Definition chain_baseline (w : World) (buf : GstBuffer) : World :=
  if last_processed_time (vosk w) =? GST_CLOCK_TIME_NONE
  then upd (set_last_processed_time (GST_BUFFER_PTS buf)) w
  else w.

(** Any number of steps of the element, one after the other. *)
Inductive vosk_steps {ext : Externals} : World -> World -> Prop :=
| steps_refl (w : World) : vosk_steps w w
| steps_step (w w' w'' : World) :
    vosk_steps w w' -> vosk_step w' w'' -> vosk_steps w w''.

(** The token is one that [g_cancellable_new] gave out. *)
Definition token_allocated (w : World) (c : pointer) : Prop :=
  (0 < c <= length (cancellables w))%nat.

(** Flags are only ever raised and tokens only ever added. *)
Definition cancellables_grow (l l' : list bool) : Prop :=
  (length l <= length l')%nat /\
  forall i, nth i l false = true -> nth i l' false = true.

(** Creating or destroying the RNNoise state. *)
Definition is_rnnoise_setup (e : Event) : bool :=
  match e with
  | Call_rnnoise_create _ | Call_rnnoise_destroy _ => true
  | _ => false
  end.

(** *** Recogniser handles

    The handles [vosk_recognizer_new] returned and [vosk_recognizer_free]
    has not taken back since.  An event is in order when it frees or uses a
    handle only while the handle is live. *)
Definition handle_is_live (r : pointer) (live : list pointer) : bool :=
  existsb (Nat.eqb r) live.

Definition handle_step (live : list pointer) (e : Event)
  : option (list pointer) :=
  match e with
  | Call_vosk_recognizer_new _ _ r => Some (r :: live)
  | Call_vosk_recognizer_free r =>
    if handle_is_live r live
    then Some (filter (fun h => negb (Nat.eqb r h)) live)
    else None
  | Call_vosk_recognizer_set_max_alternatives r _
  | Call_vosk_recognizer_reset r
  | Call_vosk_recognizer_accept_waveform r _ _
  | Call_vosk_recognizer_result r _
  | Call_vosk_recognizer_partial_result r _
  | Call_vosk_recognizer_final_result r _ =>
    if handle_is_live r live then Some live else None
  | _ => Some live
  end.

(** The live handles after [evs], or [None] if some event of [evs] was out
    of order. *)
Fixpoint handles_after (live : list pointer) (evs : list Event)
  : option (list pointer) :=
  match evs with
  | [] => Some live
  | e :: evs =>
    match handle_step live e with
    | Some live => handles_after live evs
    | None => None
    end
  end.

(** The event uses no recogniser handle but, possibly, [r]. *)
Definition uses_only (r : pointer) (e : Event) : bool :=
  match e with
  | Call_vosk_recognizer_new _ _ _ | Call_vosk_recognizer_free _ => false
  | Call_vosk_recognizer_set_max_alternatives r' _
  | Call_vosk_recognizer_reset r'
  | Call_vosk_recognizer_accept_waveform r' _ _
  | Call_vosk_recognizer_result r' _
  | Call_vosk_recognizer_partial_result r' _
  | Call_vosk_recognizer_final_result r' _ => Nat.eqb r' r
  | _ => true
  end.

(** The event concerns no recogniser handle at all. *)
Definition no_handle (e : Event) : bool :=
  match e with
  | Call_vosk_recognizer_new _ _ _ | Call_vosk_recognizer_free _
  | Call_vosk_recognizer_set_max_alternatives _ _
  | Call_vosk_recognizer_reset _
  | Call_vosk_recognizer_accept_waveform _ _ _
  | Call_vosk_recognizer_result _ _
  | Call_vosk_recognizer_partial_result _ _
  | Call_vosk_recognizer_final_result _ _ => false
  | _ => true
  end.

(** The recogniser the element holds is live after all that happened. *)
Definition recognizer_safe (w : World) : Prop :=
  exists live,
    handles_after [] (trace w) = Some live /\
    (recognizer (vosk w) <> NULL ->
     handle_is_live (recognizer (vosk w)) live = true).

(** *** Clean samples

    What the transform answered for the frames of [evs] that were queued,
    frame by frame, after the frames [acc]: each [rnnoise_process_frame]
    call adds its answer, which is the answer of the library given all that
    happened before the call ([hist] is what happened before [evs]), and a
    frame-dropped warning takes back the frame just processed, which was not
    queued. *)
Fixpoint clean_frames {ext : Externals} (hist evs : list Event)
  (acc : list (list Q)) : list (list Q) :=
  match evs with
  | [] => acc
  | e :: evs' =>
    clean_frames (hist ++ [e]) evs'
      match e with
      | Call_rnnoise_process_frame st frame =>
        acc ++ [map (rnnoise_process_frame hist st frame)
                    (seq 0 RNNOISE_FRAME_SIZE)]
      | Warning_frame_dropped => removelast acc
      | _ => acc
      end
  end.

(** [z] is the 16-bit sample for the float [x]: [x] limited to the range of
    a [gint16], with its fraction dropped. *)
Definition clean_sample_of (x : Q) (z : Z) : Prop :=
  ((32767 < x)%Q -> z = 32767) /\
  ((x < -32768)%Q -> z = -32768) /\
  ((-32768 <= x <= 32767)%Q ->
   ((0 <= x)%Q -> (inject_Z z <= x < inject_Z (z + 1))%Q) /\
   ((x <= 0)%Q -> (inject_Z (z - 1) < x <= inject_Z z)%Q)).

(** * Properties *)

(** ** Traces *)

Lemma events_since_app (w w' : World) (evs : list Event) :
  trace w' = trace w ++ evs -> events_since w w' = evs.
Proof.
  unfold events_since. intros ->.
  rewrite skipn_app, skipn_all, Nat.sub_diag. reflexivity.
Qed.

Lemma filter_none {A} (p q : A -> bool) (l : list A) :
  (forall x, p x = true -> q x = false) ->
  forallb p l = true -> filter q l = [].
Proof.
  intros Hpq. induction l as [|x l IH]; cbn; [reflexivity|].
  intros H. apply andb_prop in H as [Hx Hl].
  rewrite (Hpq x Hx). auto.
Qed.

Lemma denoise_events_no_query (evs : list Event) :
  forallb is_denoise_event evs = true -> queries evs = [].
Proof. apply filter_none. intros []; cbn; congruence. Qed.

Lemma denoise_events_no_emission (evs : list Event) :
  forallb is_denoise_event evs = true -> emissions evs = [].
Proof. apply filter_none. intros []; cbn; congruence. Qed.

Lemma denoise_events_not_fed (evs : list Event) :
  forallb is_denoise_event evs = true -> fed evs = [].
Proof. apply filter_none. intros []; cbn; congruence. Qed.

Lemma denoise_events_no_partial_query (evs : list Event) :
  forallb is_denoise_event evs = true -> filter is_partial_query evs = [].
Proof. apply filter_none. intros []; cbn; congruence. Qed.

(** ** The denoise step leaves the rest of the element alone *)

Section DenoiseFrame.

Context {ext : Externals}.

Lemma denoise_step_refl (w : World) : denoise_step w w.
Proof.
  repeat split. exists []. split; [now rewrite app_nil_r | reflexivity].
Qed.

Lemma denoise_step_trans (w1 w2 w3 : World) :
  denoise_step w1 w2 -> denoise_step w2 w3 -> denoise_step w1 w3.
Proof.
  intros (Ho & Hc & e1 & Ht & He) (Ho' & Hc' & e2 & Ht' & He').
  repeat split; [congruence | congruence |].
  exists (e1 ++ e2). split.
  - rewrite Ht', Ht, app_assoc. reflexivity.
  - rewrite forallb_app, He, He'. reflexivity.
Qed.

Lemma denoise_step_emit (w : World) (e : Event) :
  is_denoise_event e = true -> denoise_step w (emit e w).
Proof.
  intros He. repeat split. exists [e]. cbn. now rewrite He.
Qed.

Lemma gst_vosk_process_denoise_frame_step (w : World) :
  denoise_step w (gst_vosk_process_denoise_frame w).
Proof.
  unfold gst_vosk_process_denoise_frame.
  destruct (_ || _); [apply denoise_step_refl|].
  repeat split. eexists [_]. cbn. split; reflexivity.
Qed.

Lemma denoise_full_frame_step (w : World) :
  denoise_step w (denoise_full_frame w).
Proof.
  unfold denoise_full_frame.
  pose proof (gst_vosk_process_denoise_frame_step w) as H.
  set (w1 := gst_vosk_process_denoise_frame w) in *.
  eapply denoise_step_trans; [exact H|].
  destruct (_ <=? _)%nat.
  - repeat split. exists []. cbn. now rewrite app_nil_r.
  - repeat split. exists [Warning_frame_dropped]. cbn. auto.
Qed.

Lemma denoise_accumulate_step (fuel : nat) :
  forall (w : World) (s16 : list Z) (read : nat) (w' : World),
    denoise_accumulate fuel w s16 read = Some w' -> denoise_step w w'.
Proof.
  induction fuel as [|fuel IH]; intros w s16 read w'; cbn [denoise_accumulate].
  - destruct (_ <=? _)%nat; [|discriminate].
    intros [= <-]. apply denoise_step_refl.
  - destruct (_ <=? _)%nat.
    + intros [= <-]. apply denoise_step_refl.
    + intros H. apply IH in H.
      eapply denoise_step_trans; [|exact H].
      match goal with
      | |- denoise_step _ (if ?c then denoise_full_frame ?x else _) =>
        assert (Hx : denoise_step w x)
          by (repeat split; exists []; cbn; now rewrite app_nil_r);
        destruct c; [|exact Hx];
        eapply denoise_step_trans; [exact Hx | apply denoise_full_frame_step]
      end.
Qed.

Lemma denoise_drain_step (w : World) (s16 : list Z) :
  denoise_step w (fst (denoise_drain w s16)).
Proof.
  unfold denoise_drain. cbv zeta.
  repeat match goal with
         | |- context [if ?c then _ else _] => destruct c
         end;
    cbn; repeat split; exists []; cbn; now rewrite app_nil_r.
Qed.

Lemma gst_vosk_apply_denoise_step (w : World) (s16 : list Z) :
  denoise_step w (fst (gst_vosk_apply_denoise w s16)).
Proof.
  unfold gst_vosk_apply_denoise.
  destruct (_ || _); [apply denoise_step_refl|].
  destruct (negb _); [apply denoise_step_refl|].
  destruct (denoise_accumulate _ _ _ _) as [wa|] eqn:E;
    [|apply denoise_step_refl].
  eapply denoise_step_trans.
  - eapply denoise_accumulate_step; exact E.
  - apply denoise_drain_step.
Qed.

End DenoiseFrame.

(** ** Proof steps used throughout *)

Arguments GST_CLOCK_DIFF : simpl never.
Arguments result_is_empty : simpl never.
Arguments partial_result_is_empty : simpl never.
Arguments final_result_is_empty : simpl never.
Arguments g_strcmp0_eq : simpl never.

Ltac bool_hyps :=
  repeat match goal with
         | H : (_ =? _) = true |- _ => apply Z.eqb_eq in H
         | H : (_ =? _) = false |- _ => apply Z.eqb_neq in H
         | H : (_ <? _) = true |- _ => apply Z.ltb_lt in H
         | H : (_ <? _) = false |- _ => apply Z.ltb_ge in H
         | H : (_ >? _) = true |- _ => rewrite Z.gtb_ltb in H; apply Z.ltb_lt in H
         | H : (_ >? _) = false |- _ => rewrite Z.gtb_ltb in H; apply Z.ltb_ge in H
         | H : is_null _ = true |- _ => apply Nat.eqb_eq in H
         | H : is_null _ = false |- _ => apply Nat.eqb_neq in H
         end.

Ltac split_cases :=
  repeat match goal with
         | |- context [if ?c then _ else _] => destruct c eqn:?
         | |- context [match ?x with Some _ => _ | None => _ end] =>
           destruct x eqn:?
         end.

Ltac since :=
  repeat match goal with
         | |- context [events_since ?w ?w'] =>
           erewrite (events_since_app w w')
             by (cbn [trace emit upd vosk]; rewrite <- ?app_assoc; reflexivity)
         end.

(** ** One buffer through the recogniser *)

Section HandleBuffer.

Context {ext : Externals}.

Lemma gst_vosk_handle_buffer_eq (w : World) (buf : GstBuffer) (t : Z) :
  gst_vosk_handle_buffer w buf t =
  if negb (map_ok buf) then (w, buf)
  else if (info_size buf =? 0)%nat then (w, buf)
  else
    let '(w1, data) := gst_vosk_apply_denoise w (samples buf) in
    recognize_buffer w1 (set_samples data buf) t.
Proof. reflexivity. Qed.

Lemma GST_SECOND_half : GST_SECOND / 2 = 500 * GST_MSECOND.
Proof. reflexivity. Qed.

Lemma GST_SECOND_fifth : Z.shiftl GST_SECOND 1 / 10 = 200 * GST_MSECOND.
Proof. reflexivity. Qed.

Lemma recognize_buffer_spec (w : World) (buf : GstBuffer) (t : Z) :
  let ret :=
    vosk_recognizer_accept_waveform (trace w) (recognizer (vosk w))
      (samples buf) in
  let w' := fst (recognize_buffer w buf t) in
  snd (recognize_buffer w buf t) = buf /\
  cancellables w' = cancellables w /\
  (exists rest, trace w' = trace w ++ rest) /\
  fed (events_since w w') =
    [Call_vosk_recognizer_accept_waveform (recognizer (vosk w))
       (samples buf) ret] /\
  buffer_outcome (vosk w) buf t ret (vosk w') (events_since w w').
Proof.
  cbv zeta. unfold recognize_buffer, buffer_outcome, throttled, partial_due.
  cbv zeta. rewrite GST_SECOND_half, GST_SECOND_fifth.
  unfold gst_vosk_result_msg, gst_vosk_result, gst_vosk_partial_result, gst_vosk_message_new, GST_BUFFER_PTS.
  set (ret := vosk_recognizer_accept_waveform _ _ _).
  set (acc := Call_vosk_recognizer_accept_waveform _ _ _).
  change (500 * GST_MSECOND) with 500000000 in *; change (200 * GST_MSECOND) with 200000000 in *.
  cbn [vosk emit upd trace cancellables].
  destruct (ret =? -1) eqn:E1;
  destruct (GST_CLOCK_DIFF (pts buf) t >? 500000000) eqn:E2;
  destruct (GST_CLOCK_DIFF (last_processed_time (vosk w)) (pts buf) <? 200000000) eqn:E3.
  all: split_cases; bool_hyps; cbn in *; since.
  all: (split; [reflexivity|]).
  all: (split; [reflexivity|]).
  all: (split; [eexists; rewrite <- ?app_assoc; reflexivity|]).
  all: (split; [reflexivity|]).
  all: repeat match goal with |- _ /\ _ => split | |- _ -> _ => intro end; try lia; try tauto; try reflexivity; try congruence.
  all: try (exfalso; tauto).
  all: subst acc; eexists; (split; [reflexivity|]); cbn;
    unfold emission_events, emission_of;
    repeat match goal with
           | H : result_is_empty _ = _ |- _ => rewrite H
           | H : partial_result_is_empty _ = _ |- _ => rewrite H
           | H : g_strcmp0_eq _ _ = _ |- _ => rewrite H
           | H : use_signals _ = _ |- _ => rewrite H
           end; cbn; auto.
Qed.

Lemma buffer_outcome_transport (v1 v : GstVosk) (buf1 buf : GstBuffer) (t ret : Z)
  (v' : GstVosk) (evs1 evs : list Event) :
  outside_denoise v1 = outside_denoise v ->
  pts buf1 = pts buf ->
  queries evs = queries evs1 ->
  emissions evs = emissions evs1 ->
  buffer_outcome v1 buf1 t ret v' evs1 ->
  buffer_outcome v buf t ret v' evs.
Proof.
  intros Ho Hp Hq He.
  unfold buffer_outcome, throttled, partial_due, emission_events, emission_of.
  rewrite Hq, He, Hp, Ho.
  unfold outside_denoise in Ho.
  injection Ho as E1 E2 E3 E4 E5 E6 E7 E8 E9 E10 E11.
  rewrite ?E1, ?E2, ?E3, ?E4, ?E5, ?E6, ?E7, ?E8, ?E9, ?E10, ?E11.
  intros H; exact H.
Qed.

Lemma In_fed (e a : Event) (evs : list Event) :
  fed evs = [a] -> In e evs -> is_accept_waveform e = true -> e = a.
Proof.
  intros Hf Hin He.
  assert (Hi : In e (fed evs)) by (apply filter_In; auto).
  rewrite Hf in Hi. destruct Hi as [<-|[]]. reflexivity.
Qed.

Lemma gst_vosk_handle_buffer_spec (w : World) (buf : GstBuffer) (t : Z) :
  map_ok buf = true -> info_size buf <> 0%nat ->
  let w' := fst (gst_vosk_handle_buffer w buf t) in
  cancellables w' = cancellables w /\
  exists d ret,
    fed (events_since w w') =
      [Call_vosk_recognizer_accept_waveform (recognizer (vosk w)) d ret] /\
    buffer_outcome (vosk w) buf t ret (vosk w') (events_since w w').
Proof.
  intros Hmap Hsize. cbv zeta.
  rewrite gst_vosk_handle_buffer_eq, Hmap.
  apply Nat.eqb_neq in Hsize. rewrite Hsize. cbn [negb].
  pose proof (gst_vosk_apply_denoise_step w (samples buf)) as Hd.
  destruct (gst_vosk_apply_denoise w (samples buf)) as [w1 data].
  cbn [fst] in Hd. destruct Hd as (Ho & Hc & evsd & Ht & Hev).
  pose proof (recognize_buffer_spec w1 (set_samples data buf) t) as Hr.
  cbv zeta in Hr.
  set (w' := fst (recognize_buffer w1 (set_samples data buf) t)) in *.
  destruct Hr as (_ & Hc' & (rest & Ht') & Hfed & Hout).
  rewrite (events_since_app w1 w' rest Ht') in Hfed, Hout.
  assert (Hs : events_since w w' = evsd ++ rest).
  { apply events_since_app. rewrite Ht', Ht, app_assoc. reflexivity. }
  rewrite Hs. split; [congruence|].
  assert (Hrec : recognizer (vosk w1) = recognizer (vosk w)).
  { unfold outside_denoise in Ho. congruence. }
  rewrite Hrec in Hfed, Hout.
  eexists _, _. split.
  - unfold fed in *. rewrite filter_app.
    fold (fed evsd). rewrite (denoise_events_not_fed _ Hev).
    cbn [app]. rewrite Hfed. reflexivity.
  - eapply (buffer_outcome_transport (vosk w1) (vosk w) (set_samples data buf));
      [exact Ho | reflexivity | | | exact Hout].
    + unfold queries. rewrite filter_app. fold (queries evsd).
      now rewrite (denoise_events_no_query _ Hev).
    + unfold emissions. rewrite filter_app. fold (emissions evsd).
      now rewrite (denoise_events_no_emission _ Hev).
Qed.


Lemma events_since_refl (w : World) : events_since w w = [].
Proof. apply events_since_app. now rewrite app_nil_r. Qed.

Lemma gst_vosk_handle_buffer_unmapped (w : World) (buf : GstBuffer) (t : Z) :
  map_ok buf = false \/ info_size buf = 0%nat ->
  gst_vosk_handle_buffer w buf t = (w, buf).
Proof.
  rewrite gst_vosk_handle_buffer_eq. intros [->| ->]; [reflexivity|].
  now destruct (negb _).
Qed.

Lemma gst_vosk_handle_buffer_extends (w : World) (buf : GstBuffer) (t : Z) :
  exists evs, trace (fst (gst_vosk_handle_buffer w buf t)) = trace w ++ evs.
Proof.
  rewrite gst_vosk_handle_buffer_eq.
  destruct (negb _); [exists []; now rewrite app_nil_r|].
  destruct (_ =? _)%nat; [exists []; now rewrite app_nil_r|].
  pose proof (gst_vosk_apply_denoise_step w (samples buf)) as Hd.
  destruct (gst_vosk_apply_denoise w (samples buf)) as [w1 data].
  destruct Hd as (_ & _ & evsd & Ht & _). cbn [fst] in Ht.
  destruct (recognize_buffer_spec w1 (set_samples data buf) t)
    as (_ & _ & (rest & Ht') & _).
  exists (evsd ++ rest). rewrite Ht', Ht, app_assoc. reflexivity.
Qed.

Lemma partial_queries_of_queries (evs : list Event) :
  filter is_partial_query evs = filter is_partial_query (queries evs).
Proof.
  unfold queries. induction evs as [|e evs IH]; [reflexivity|].
  destruct e; cbn; rewrite ?IH; reflexivity.
Qed.

Lemma GST_CLOCK_DIFF_same (x : Z) : GST_CLOCK_DIFF x x = 0.
Proof. unfold GST_CLOCK_DIFF. rewrite Z.sub_diag. reflexivity. Qed.

Lemma throttled_dec (v : GstVosk) (buf : GstBuffer) (t : Z) :
  throttled v buf t \/ ~ throttled v buf t.
Proof. unfold throttled. lia. Qed.

End HandleBuffer.

(** ** The cadence and catch-up policy *)

Section Cadence.

Context {ext : Externals}.

(** C1 (amended).  While a buffer lags the running time by more than 500 ms
    it is still fed to the recogniser, once; a result query is made for it
    only if at least 200 ms lie between the last processed timestamp and its
    own, and below 200 ms no query is made and nothing is emitted. *)
Theorem catch_up_throttles_queries (w : World) (buf : GstBuffer) (t : Z) :
  map_ok buf = true -> info_size buf <> 0%nat ->
  GST_CLOCK_DIFF (pts buf) t > 500 * GST_MSECOND ->
  let evs := events_since w (fst (gst_vosk_handle_buffer w buf t)) in
  let elapsed := GST_CLOCK_DIFF (last_processed_time (vosk w)) (pts buf) in
  (exists d ret,
      fed evs =
        [Call_vosk_recognizer_accept_waveform (recognizer (vosk w)) d ret]) /\
  (queries evs <> [] -> 200 * GST_MSECOND <= elapsed) /\
  (elapsed < 200 * GST_MSECOND -> queries evs = [] /\ emissions evs = []).
Proof.
  intros Hmap Hsize Hlag. cbv zeta.
  destruct (gst_vosk_handle_buffer_spec w buf t Hmap Hsize)
    as (_ & d & ret & Hfed & _ & Hthr & _).
  split; [eauto|].
  assert (Hlow : GST_CLOCK_DIFF (last_processed_time (vosk w)) (pts buf)
                 < 200 * GST_MSECOND ->
                 queries (events_since w (fst (gst_vosk_handle_buffer w buf t)))
                 = [] /\
                 emissions (events_since w (fst (gst_vosk_handle_buffer w buf t)))
                 = []).
  { intros He. destruct Hthr as (Hq & Hem & _); [split; assumption|].
    split; assumption. }
  split; [|exact Hlow].
  intros Hq.
  destruct (Z_lt_le_dec
              (GST_CLOCK_DIFF (last_processed_time (vosk w)) (pts buf))
              (200 * GST_MSECOND)) as [He|He]; [|exact He].
  destruct (Hlow He) as [Hq' _]. contradiction.
Qed.

(** C2 (amended).  When the engine answers 1 for a buffer that the catch-up
    rule does not hold back, the result is queried, once and by
    [vosk_recognizer_result] only; it is emitted once unless it is [NULL] or
    the empty text, the last-partial and last-processed times become the
    buffer's timestamp and the cache of the previous partial is cleared. *)
Theorem final_boundary_query (w : World) (buf : GstBuffer) (t : Z)
  (r : pointer) (d : list Z) :
  recognizer (vosk w) <> NULL ->
  map_ok buf = true -> info_size buf <> 0%nat ->
  let w' := fst (gst_vosk_handle_buffer w buf t) in
  let evs := events_since w w' in
  In (Call_vosk_recognizer_accept_waveform r d 1) evs ->
  ~ throttled (vosk w) buf t ->
  exists txt,
    queries evs = [Call_vosk_recognizer_result (recognizer (vosk w)) txt] /\
    emissions evs =
      (if result_is_empty txt then [] else emission_events (vosk w) txt) /\
    (length (emissions evs) <= 1)%nat /\
    last_partial (vosk w') = pts buf /\
    last_processed_time (vosk w') = pts buf /\
    prev_partial (vosk w') = None.
Proof.
  intros Hrec Hmap Hsize. cbv zeta. intros Hin Hthr.
  destruct (gst_vosk_handle_buffer_spec w buf t Hmap Hsize)
    as (_ & d' & ret & Hfed & _ & _ & Hrun).
  assert (Hret : ret = 1).
  { pose proof (In_fed _ _ _ Hfed Hin eq_refl) as E. congruence. }
  subst ret.
  destruct Hrun as (Hlpt & Hfinal & _); [discriminate | exact Hthr |].
  destruct (Hfinal eq_refl Hrec) as (txt & Hq & Hem & Hlp & Hpp).
  exists txt. repeat split; try assumption.
  rewrite Hem. destruct (result_is_empty txt); [cbn; lia|].
  destruct txt; cbn; lia.
Qed.

(** C3 (amended).  With a negative interval no buffer ever leads to a partial
    query.  With a non-negative interval, for a buffer the engine answered
    neither 1 nor -1 for and that the catch-up rule does not hold back, the
    partial result is queried exactly when the buffer's timestamp minus the
    last-partial time is over the interval; the payload is emitted when it is
    not an empty one and differs from the cached one, which it then replaces,
    and the last-partial time becomes the buffer's timestamp. *)
Theorem partial_query_cadence (w : World) (buf : GstBuffer) (t : Z) :
  let w' := fst (gst_vosk_handle_buffer w buf t) in
  let evs := events_since w w' in
  (partial_time_interval (vosk w) < 0 -> filter is_partial_query evs = []) /\
  (forall (r : pointer) (d : list Z) (ret : Z),
      map_ok buf = true -> info_size buf <> 0%nat ->
      In (Call_vosk_recognizer_accept_waveform r d ret) evs ->
      ret <> 1 -> ret <> -1 ->
      ~ throttled (vosk w) buf t ->
      0 <= partial_time_interval (vosk w) ->
      (partial_due (vosk w) buf ->
       exists txt,
         queries evs =
           [Call_vosk_recognizer_partial_result (recognizer (vosk w)) txt] /\
         emissions evs =
           (if partial_result_is_empty txt
               || g_strcmp0_eq txt (prev_partial (vosk w))
            then [] else emission_events (vosk w) txt) /\
         last_partial (vosk w') = pts buf /\
         prev_partial (vosk w') =
           (if partial_result_is_empty txt
               || g_strcmp0_eq txt (prev_partial (vosk w))
            then prev_partial (vosk w) else txt)) /\
      (~ partial_due (vosk w) buf ->
       queries evs = [] /\ emissions evs = [] /\
       last_partial (vosk w') = last_partial (vosk w) /\
       prev_partial (vosk w') = prev_partial (vosk w))).
Proof.
  cbv zeta. split.
  - intros Hneg.
    destruct (map_ok buf) eqn:Hmap;
      [|rewrite gst_vosk_handle_buffer_unmapped by auto;
        now rewrite events_since_refl].
    destruct (Nat.eq_dec (info_size buf) 0) as [Hz|Hsize];
      [rewrite gst_vosk_handle_buffer_unmapped by auto;
       now rewrite events_since_refl|].
    destruct (gst_vosk_handle_buffer_spec w buf t Hmap Hsize)
      as (_ & d & ret & _ & Herr & Hthr & Hrun).
    rewrite partial_queries_of_queries.
    destruct (Z.eq_dec ret (-1)) as [E|E];
      [destruct (Herr E) as (-> & _); reflexivity|].
    destruct (throttled_dec (vosk w) buf t) as [T|T];
      [destruct (Hthr T) as (-> & _); reflexivity|].
    destruct (Hrun E T) as (_ & Hfin & Hnull & Hoff & _).
    destruct (Z.eq_dec ret 1) as [E1|E1].
    + destruct (Nat.eq_dec (recognizer (vosk w)) NULL) as [N|N].
      * destruct (Hnull E1 N) as (-> & _); reflexivity.
      * destruct (Hfin E1 N) as (txt & -> & _); reflexivity.
    + destruct (Hoff E1 Hneg) as (-> & _); reflexivity.
  - intros r d ret Hmap Hsize Hin H1 Herr Hthr Hpos.
    destruct (gst_vosk_handle_buffer_spec w buf t Hmap Hsize)
      as (_ & d' & ret' & Hfed & _ & _ & Hrun).
    assert (Hret : ret' = ret).
    { pose proof (In_fed _ _ _ Hfed Hin eq_refl) as E. congruence. }
    subst ret'.
    destruct (Hrun Herr Hthr) as (_ & _ & _ & _ & Hdue & Hnot).
    split; intros Hd; [exact (Hdue H1 Hpos Hd) | exact (Hnot H1 Hpos Hd)].
Qed.

Lemma gst_vosk_handle_buffer_baseline (w : World) (buf : GstBuffer) (t : Z)
  (evs : list Event) :
  last_processed_time (vosk w) = pts buf ->
  trace (fst (gst_vosk_handle_buffer w buf t)) = trace w ++ evs ->
  last_processed_time (vosk (fst (gst_vosk_handle_buffer w buf t))) = pts buf /\
  (GST_CLOCK_DIFF (pts buf) t > 500 * GST_MSECOND ->
   queries evs = [] /\ emissions evs = []).
Proof.
  intros Hl Hext.
  assert (Hcase : (map_ok buf = false \/ info_size buf = 0%nat)
                  \/ (map_ok buf = true /\ info_size buf <> 0%nat)).
  { destruct (map_ok buf); [|auto].
    destruct (Nat.eq_dec (info_size buf) 0); auto. }
  destruct Hcase as [Hun|[Hmap Hsize]].
  - rewrite (gst_vosk_handle_buffer_unmapped w buf t Hun) in *.
    cbn [fst] in *. split; [exact Hl|]. intros _.
    assert (evs = []) as ->; [|auto].
    apply (app_inv_head (trace w)). now rewrite app_nil_r.
  - destruct (gst_vosk_handle_buffer_spec w buf t Hmap Hsize)
      as (_ & d & ret & _ & Herr & Hthr & Hrun).
    rewrite (events_since_app _ _ _ Hext) in Herr, Hthr, Hrun.
    assert (Hel : GST_CLOCK_DIFF (last_processed_time (vosk w)) (pts buf)
                  < 200 * GST_MSECOND).
    { rewrite Hl, GST_CLOCK_DIFF_same. reflexivity. }
    split.
    + destruct (Z.eq_dec ret (-1)) as [E|E].
      { destruct (Herr E) as (_ & _ & Ho).
        unfold outside_denoise in Ho. congruence. }
      destruct (throttled_dec (vosk w) buf t) as [T|T].
      { destruct (Hthr T) as (_ & _ & Ho).
        unfold outside_denoise in Ho. congruence. }
      destruct (Hrun E T) as (Hl' & _). exact Hl'.
    + intros Hlag. destruct Hthr as (Hq & Hem & _); [split; assumption|].
      split; assumption.
Qed.

(** C5 (amended).  When the last-processed time has no value, the timestamp
    of the next buffer becomes the baseline.  If no recogniser is installed
    nothing else happens to the element and the buffer is only passed on.  If
    one is installed the buffer is handled like any other with no time
    elapsed: when it lags by more than 500 ms no query is made and nothing is
    emitted for it. *)
Theorem first_buffer_baseline (w : World) (buf : GstBuffer) (t : Z) :
  last_processed_time (vosk w) = GST_CLOCK_TIME_NONE ->
  let w' := fst (gst_vosk_chain w buf t) in
  let evs := events_since w w' in
  last_processed_time (vosk w') = pts buf /\
  (recognizer (vosk w) = NULL ->
   vosk w' = set_last_processed_time (pts buf) (vosk w) /\
   evs = [Call_gst_pad_push (samples buf)]) /\
  (recognizer (vosk w) <> NULL ->
   GST_CLOCK_DIFF (pts buf) t > 500 * GST_MSECOND ->
   queries evs = [] /\ emissions evs = []).
Proof.
  intros Hnone. cbv zeta. unfold gst_vosk_chain. rewrite Hnone.
  rewrite Z.eqb_refl.
  destruct (is_null (recognizer (vosk w))) eqn:Hnull; cbn [negb].
  - apply Nat.eqb_eq in Hnull. cbn [fst]. since.
    split; [reflexivity|]. split; [intros _; split; reflexivity|].
    intros Hn; contradiction.
  - apply Nat.eqb_neq in Hnull.
    set (w0 := upd (set_last_processed_time (GST_BUFFER_PTS buf)) w).
    destruct (gst_vosk_handle_buffer_extends w0 buf t) as (evs & Hext).
    destruct (gst_vosk_handle_buffer_baseline w0 buf t evs eq_refl Hext)
      as [Hlpt Hlate].
    destruct (gst_vosk_handle_buffer w0 buf t) as [wh bh] eqn:Eh.
    cbn [fst] in *.
    assert (Hs : events_since w (emit (Call_gst_pad_push (samples bh)) wh)
                 = evs ++ [Call_gst_pad_push (samples bh)]).
    { apply events_since_app. cbn. rewrite Hext. cbn.
      now rewrite <- app_assoc. }
    rewrite Hs. split; [exact Hlpt|]. split; [contradiction|].
    intros _ Hlag. destruct (Hlate Hlag) as [Hq Hem].
    unfold queries, emissions in *. rewrite !filter_app, Hq, Hem.
    split; reflexivity.
Qed.

End Cadence.

(** *** The cadence claims on concrete buffers *)

(** C1 fails as worded: a buffer stamped exactly 200 ms after the last
    processed one, handled 800 ms late, is queried. *)
Lemma catch_up_claim_counterexample :
  GST_CLOCK_DIFF (1200 * GST_MSECOND) (2000 * GST_MSECOND)
  = 800 * GST_MSECOND /\
  GST_CLOCK_DIFF (1000 * GST_MSECOND) (1200 * GST_MSECOND)
  = 200 * GST_MSECOND /\
  queries
    (events_since (ready_world_at (1000 * GST_MSECOND))
       (fst (@gst_vosk_handle_buffer final_engine
               (ready_world_at (1000 * GST_MSECOND))
               (one_sample_buffer (1200 * GST_MSECOND))
               (2000 * GST_MSECOND))))
  = [Call_vosk_recognizer_result 1%nat (Some hello_text)] /\
  ~ catch_up_claim_as_stated.
Proof.
  split; [reflexivity|]. split; [reflexivity|]. split; [reflexivity|].
  intros H.
  destruct (H final_engine (ready_world_at (1000 * GST_MSECOND))
              (one_sample_buffer (1200 * GST_MSECOND)) (2000 * GST_MSECOND))
    as [Hq _].
  - discriminate.
  - reflexivity.
  - discriminate.
  - reflexivity.
  - assert (Hgt : GST_CLOCK_DIFF (1000 * GST_MSECOND) (1200 * GST_MSECOND)
                  > 200 * GST_MSECOND).
    { apply Hq. vm_compute. discriminate. }
    vm_compute in Hgt. discriminate.
Qed.

Lemma catch_up_throttles_queries_witness :
  GST_CLOCK_DIFF (1100 * GST_MSECOND) (2000 * GST_MSECOND) > 500 * GST_MSECOND /\
  queries
    (events_since (ready_world_at (1000 * GST_MSECOND))
       (fst (@gst_vosk_handle_buffer final_engine
               (ready_world_at (1000 * GST_MSECOND))
               (one_sample_buffer (1100 * GST_MSECOND))
               (2000 * GST_MSECOND)))) = [].
Proof.
  split; [reflexivity|].
  destruct (@catch_up_throttles_queries final_engine
              (ready_world_at (1000 * GST_MSECOND))
              (one_sample_buffer (1100 * GST_MSECOND)) (2000 * GST_MSECOND)
              eq_refl ltac:(vm_compute; lia) eq_refl) as (_ & _ & H).
  apply H. reflexivity.
Defined.

(** C2 fails as worded: the engine reports a final boundary for a buffer
    that is 900 ms late and 100 ms after the last processed one; the result
    is not queried. *)
Lemma final_boundary_claim_counterexample :
  events_since (ready_world_at (1000 * GST_MSECOND))
    (fst (@gst_vosk_handle_buffer final_engine
            (ready_world_at (1000 * GST_MSECOND))
            (one_sample_buffer (1100 * GST_MSECOND))
            (2000 * GST_MSECOND)))
  = [Call_vosk_recognizer_accept_waveform 1%nat [0] 1] /\
  ~ final_boundary_claim_as_stated.
Proof.
  split; [reflexivity|].
  intros H.
  destruct (H final_engine (ready_world_at (1000 * GST_MSECOND))
              (one_sample_buffer (1100 * GST_MSECOND)) (2000 * GST_MSECOND)
              1%nat [0])
    as [[txt Hq] _].
  - discriminate.
  - reflexivity.
  - discriminate.
  - vm_compute. left. reflexivity.
  - vm_compute in Hq. discriminate.
Qed.

Lemma final_boundary_query_witness :
  exists txt,
    queries
      (events_since (ready_world_at (1000 * GST_MSECOND))
         (fst (@gst_vosk_handle_buffer final_engine
                 (ready_world_at (1000 * GST_MSECOND))
                 (one_sample_buffer (1200 * GST_MSECOND))
                 (1200 * GST_MSECOND))))
    = [Call_vosk_recognizer_result 1%nat txt].
Proof.
  destruct (@final_boundary_query final_engine
              (ready_world_at (1000 * GST_MSECOND))
              (one_sample_buffer (1200 * GST_MSECOND)) (1200 * GST_MSECOND)
              1%nat [0]) as (txt & Hq & _).
  - vm_compute. lia.
  - reflexivity.
  - vm_compute. lia.
  - vm_compute. left. reflexivity.
  - unfold throttled. vm_compute. intros [Hlag _]. discriminate.
  - exists txt. exact Hq.
Defined.

(** C3 fails as worded: a partial result is due for a buffer that the
    catch-up rule holds back; it is not queried. *)
Lemma partial_cadence_claim_counterexample :
  partial_due (vosk (ready_world_at (1000 * GST_MSECOND)))
    (one_sample_buffer (1100 * GST_MSECOND)) /\
  events_since (ready_world_at (1000 * GST_MSECOND))
    (fst (@gst_vosk_handle_buffer partial_engine
            (ready_world_at (1000 * GST_MSECOND))
            (one_sample_buffer (1100 * GST_MSECOND))
            (2000 * GST_MSECOND)))
  = [Call_vosk_recognizer_accept_waveform 1%nat [0] 0] /\
  ~ partial_cadence_claim_as_stated.
Proof.
  split; [reflexivity|]. split; [reflexivity|].
  intros H.
  destruct (H partial_engine (ready_world_at (1000 * GST_MSECOND))
              (one_sample_buffer (1100 * GST_MSECOND)) (2000 * GST_MSECOND)
              1%nat [0])
    as [_ Hdue].
  - discriminate.
  - reflexivity.
  - discriminate.
  - vm_compute. left. reflexivity.
  - vm_compute. discriminate.
  - apply Hdue; [|reflexivity]. unfold partial_due. reflexivity.
Qed.

Lemma partial_query_cadence_witness :
  exists txt,
    queries
      (events_since (ready_world_at (1000 * GST_MSECOND))
         (fst (@gst_vosk_handle_buffer partial_engine
                 (ready_world_at (1000 * GST_MSECOND))
                 (one_sample_buffer (1300 * GST_MSECOND))
                 (1300 * GST_MSECOND))))
    = [Call_vosk_recognizer_partial_result 1%nat txt].
Proof.
  destruct (@partial_query_cadence partial_engine
              (ready_world_at (1000 * GST_MSECOND))
              (one_sample_buffer (1300 * GST_MSECOND)) (1300 * GST_MSECOND))
    as (_ & H).
  destruct (H 1%nat [0] 0) as ((txt & Hq & _) & _).
  - reflexivity.
  - vm_compute. lia.
  - vm_compute. left. reflexivity.
  - lia.
  - lia.
  - unfold throttled. vm_compute. intros [Hlag _]. discriminate.
  - vm_compute. discriminate.
  - unfold partial_due. reflexivity.
  - exists txt. exact Hq.
Defined.

(** C5 fails as worded: with a recogniser installed and no lag, the first
    buffer after activation can carry a final boundary, and its result is
    emitted. *)
Lemma first_buffer_claim_counterexample :
  emissions
    (events_since (ready_world_at GST_CLOCK_TIME_NONE)
       (fst (@gst_vosk_chain final_engine (ready_world_at GST_CLOCK_TIME_NONE)
               (one_sample_buffer 0) 0)))
  = [Message_element hello_text] /\
  ~ first_buffer_claim_as_stated.
Proof.
  split; [reflexivity|].
  intros H.
  destruct (H final_engine (ready_world_at GST_CLOCK_TIME_NONE)
              (one_sample_buffer 0) 0 eq_refl) as [_ Hem].
  vm_compute in Hem. discriminate.
Qed.

Lemma first_buffer_baseline_witness :
  last_processed_time
    (vosk (fst (@gst_vosk_chain final_engine
                  (ready_world_at GST_CLOCK_TIME_NONE)
                  (one_sample_buffer 0) (1000 * GST_MSECOND)))) = 0.
Proof.
  destruct (@first_buffer_baseline final_engine
              (ready_world_at GST_CLOCK_TIME_NONE)
              (one_sample_buffer 0) (1000 * GST_MSECOND) eq_refl)
    as (H & _).
  exact H.
Defined.

(** ** Flush *)

Section Flush.

Context {ext : Externals}.

(** C4.  A flush with a recogniser installed resets the recogniser and
    keeps the handle, the rate and the model, as the claim says, but it does
    not clear the cache of the previous partial, which every other path that
    ends an utterance does ([gst_vosk_result], [gst_vosk_final_result],
    [gst_vosk_reset]).  The stale cache mutes the first partial result after
    the flush when its text is the one cached before: the engine is asked
    and nothing is delivered, where with the cache cleared the text is
    delivered. *)
Theorem flush_keeps_stale_partial (w : World) (p : string) :
  recognizer (vosk w) <> NULL ->
  prev_partial (vosk w) = Some p ->
  partial_result_is_empty (Some p) = false ->
  let r := recognizer (vosk w) in
  let w1 := gst_vosk_sink_event w GST_EVENT_FLUSH_START in
  vosk_recognizer_partial_result (trace w1) r = Some p ->
  events_since w w1 = [Call_vosk_recognizer_reset r] /\
  recognizer (vosk w1) = r /\
  rate (vosk w1) = rate (vosk w) /\
  model_path (vosk w1) = model_path (vosk w) /\
  prev_partial (vosk w1) = Some p /\
  prev_partial (vosk (fst (gst_vosk_result w))) = None /\
  prev_partial (vosk (fst (gst_vosk_final_result w))) = None /\
  prev_partial (vosk (gst_vosk_reset w)) = None /\
  events_since w1 (gst_vosk_partial_result w1)
  = [Call_vosk_recognizer_partial_result r (Some p)] /\
  events_since w1 (gst_vosk_partial_result (upd (set_prev_partial None) w1))
  = [Call_vosk_recognizer_partial_result r (Some p); emission_of (vosk w) p].
Proof.
  intros Hrec Hprev Hne. cbv zeta. cbn [gst_vosk_sink_event].
  unfold gst_vosk_flush.
  apply Nat.eqb_neq in Hrec. unfold is_null. rewrite Hrec. cbn [negb].
  intros Hp.
  split; [since; reflexivity|].
  split; [reflexivity|]. split; [reflexivity|]. split; [reflexivity|].
  split; [exact Hprev|].
  split; [unfold gst_vosk_result, is_null; rewrite Hrec;
          now destruct (result_is_empty _)|].
  split; [unfold gst_vosk_final_result, is_null; rewrite Hrec;
          now destruct (final_result_is_empty _)|].
  split; [unfold gst_vosk_reset, is_null; rewrite Hrec; cbn [vosk upd emit];
          now destruct (denoise_input_buffer _)|].
  unfold gst_vosk_partial_result.
  cbn [trace vosk emit upd recognizer prev_partial set_prev_partial] in *.
  rewrite Hp, Hne.
  change (prev_partial (set_prev_partial None (vosk w))) with (@None string).
  rewrite Hprev. unfold g_strcmp0_eq. rewrite String.eqb_refl.
  split; [since; reflexivity|].
  unfold gst_vosk_message_new, emission_of.
  change (use_signals (vosk (upd (set_prev_partial (Some p))
            (emit (Call_vosk_recognizer_partial_result (recognizer (vosk w))
                     (Some p))
               (upd (set_prev_partial None)
                  (emit (Call_vosk_recognizer_reset (recognizer (vosk w)))
                     w))))))
    with (use_signals (vosk w)).
  destruct (use_signals (vosk w)); since; reflexivity.
Qed.

End Flush.

(** The element does not do what C4 says: the flush leaves a cached partial
    in place. *)
Lemma flush_claim_counterexample :
  prev_partial
    (vosk (@gst_vosk_sink_event final_engine
             (world_of (set_prev_partial (Some hel_partial) ready_vosk))
             GST_EVENT_FLUSH_START))
  = Some hel_partial /\
  ~ flush_claim_as_stated.
Proof.
  split; [reflexivity|].
  intros H.
  destruct (H final_engine
              (world_of (set_prev_partial (Some hel_partial) ready_vosk)))
    as (_ & _ & _ & _ & Hpp).
  - discriminate.
  - vm_compute in Hpp. discriminate.
Qed.

Lemma flush_keeps_stale_partial_witness :
  events_since
    (@gst_vosk_sink_event partial_engine
       (world_of (set_prev_partial (Some hel_partial) ready_vosk))
       GST_EVENT_FLUSH_START)
    (@gst_vosk_partial_result partial_engine
       (@gst_vosk_sink_event partial_engine
          (world_of (set_prev_partial (Some hel_partial) ready_vosk))
          GST_EVENT_FLUSH_START))
  = [Call_vosk_recognizer_partial_result 1%nat (Some hel_partial)].
Proof.
  destruct (@flush_keeps_stale_partial partial_engine
              (world_of (set_prev_partial (Some hel_partial) ready_vosk))
              hel_partial) as (_ & _ & _ & _ & _ & _ & _ & _ & H & _).
  - vm_compute. lia.
  - reflexivity.
  - reflexivity.
  - reflexivity.
  - exact H.
Defined.

(** ** Empty payloads *)

Section EmptyPayloads.

Context {ext : Externals}.

(** C6 (amended).  Each query mutes [NULL] and its own empty payloads: the
    final result the two empty texts, the current result the indented empty
    text, the partial result the empty partial and the compact empty text.
    The query then yields nothing, the only event is the call itself (no
    message, no error), and a muted partial leaves the element untouched. *)
Theorem empty_payloads_muted (w : World) :
  recognizer (vosk w) <> NULL ->
  let r := recognizer (vosk w) in
  (forall s,
      In s [None; Some VOSK_EMPTY_TEXT_RESULT; Some VOSK_EMPTY_TEXT_RESULT_ALT] ->
      vosk_recognizer_final_result (trace w) r = s ->
      snd (gst_vosk_final_result w) = None /\
      events_since w (gst_vosk_final_result_msg w)
      = [Call_vosk_recognizer_final_result r s]) /\
  (forall s,
      In s [None; Some VOSK_EMPTY_TEXT_RESULT] ->
      vosk_recognizer_result (trace w) r = s ->
      snd (gst_vosk_result w) = None /\
      events_since w (gst_vosk_result_msg w)
      = [Call_vosk_recognizer_result r s]) /\
  (forall s,
      In s [None; Some VOSK_EMPTY_PARTIAL_RESULT;
            Some VOSK_EMPTY_TEXT_RESULT_ALT] ->
      vosk_recognizer_partial_result (trace w) r = s ->
      events_since w (gst_vosk_partial_result w)
      = [Call_vosk_recognizer_partial_result r s] /\
      vosk (gst_vosk_partial_result w) = vosk w).
Proof.
  intros Hrec. cbv zeta. apply Nat.eqb_neq in Hrec.
  split; [|split]; intros s Hin Hs;
    unfold gst_vosk_final_result_msg, gst_vosk_result_msg,
      gst_vosk_final_result, gst_vosk_result, gst_vosk_partial_result;
    unfold is_null; rewrite ?Hrec, Hs; clear Hs;
    cbn [In] in Hin;
    repeat (destruct Hin as [<-|Hin]; [since; split; reflexivity|]);
    contradiction.
Qed.

End EmptyPayloads.

(** C6 fails as worded: the final query does not mute the empty partial
    payload. *)
Lemma sentinel_claim_counterexample :
  events_since (world_of ready_vosk)
    (@gst_vosk_final_result_msg
       (fixed_engine 0 None None (Some VOSK_EMPTY_PARTIAL_RESULT))
       (world_of ready_vosk))
  = [Call_vosk_recognizer_final_result 1%nat (Some VOSK_EMPTY_PARTIAL_RESULT);
     Message_element VOSK_EMPTY_PARTIAL_RESULT] /\
  ~ sentinel_claim_as_stated.
Proof.
  split; [reflexivity|].
  intros H.
  destruct (H (fixed_engine 0 None None (Some VOSK_EMPTY_PARTIAL_RESULT))
              (world_of ready_vosk) (Some VOSK_EMPTY_PARTIAL_RESULT))
    as ((Hnone & _) & _).
  - right. left. reflexivity.
  - discriminate.
  - reflexivity.
  - vm_compute in Hnone. discriminate.
Qed.

Lemma empty_payloads_muted_witness :
  events_since (world_of ready_vosk)
    (@gst_vosk_final_result_msg
       (fixed_engine 0 None None (Some VOSK_EMPTY_TEXT_RESULT_ALT))
       (world_of ready_vosk))
  = [Call_vosk_recognizer_final_result 1%nat
       (Some VOSK_EMPTY_TEXT_RESULT_ALT)].
Proof.
  destruct (@empty_payloads_muted
              (fixed_engine 0 None None (Some VOSK_EMPTY_TEXT_RESULT_ALT))
              (world_of ready_vosk)) as (Hfinal & _).
  - vm_compute. lia.
  - destruct (Hfinal (Some VOSK_EMPTY_TEXT_RESULT_ALT)) as (_ & Hev).
    + cbn. auto.
    + reflexivity.
    + exact Hev.
Defined.

(** What the three queries let through among the payloads named empty: the
    current result lets the compact empty text through, which the final
    result mutes. *)
Example gst_vosk_result_lets_compact_empty_text_through :
  events_since (world_of ready_vosk)
    (@gst_vosk_result_msg
       (fixed_engine 0 (Some VOSK_EMPTY_TEXT_RESULT_ALT) None None)
       (world_of ready_vosk))
  = [Call_vosk_recognizer_result 1%nat (Some VOSK_EMPTY_TEXT_RESULT_ALT);
     Message_element VOSK_EMPTY_TEXT_RESULT_ALT].
Proof. reflexivity. Qed.

(** ** The frame adapter of the denoise step *)

Lemma length_array_write {A} (l src : list A) (off : nat) :
  (off + length src <= length l)%nat ->
  length (firstn off l ++ src ++ skipn (off + length src) l) = length l.
Proof.
  intros H. rewrite !length_app, length_firstn, length_skipn. lia.
Qed.

Lemma firstn_array_write {A} (l src : list A) (off : nat) :
  (off <= length l)%nat ->
  firstn (off + length src)
    (firstn off l ++ src ++ skipn (off + length src) l)
  = firstn off l ++ src.
Proof.
  intros H. rewrite app_assoc.
  rewrite firstn_app.
  replace (off + length src - length (firstn off l ++ src))%nat with 0%nat
    by (rewrite length_app, length_firstn; lia).
  rewrite firstn_O, app_nil_r.
  apply firstn_all2. rewrite length_app, length_firstn. lia.
Qed.

Lemma frames_run_app (a b : list Event) :
  frames_run (a ++ b) = (frames_run a + frames_run b)%nat.
Proof. unfold frames_run. now rewrite filter_app, length_app. Qed.

Arguments RNNOISE_FRAME_SIZE : simpl never.

Section Denoise.

Context {ext : Externals}.

Lemma denoise_full_frame_spec (w : World) :
  denoise_buffers_ok (vosk w) ->
  denoise_initialized (vosk w) = true ->
  let v := vosk w in
  let v' := vosk (denoise_full_frame w) in
  denoise_buffers_ok v' /\
  denoise_buffer_pos v' = 0%nat /\
  denoise_initialized v' = true /\
  enable_denoise v' = enable_denoise v /\
  denoise_buffer_size v' = denoise_buffer_size v /\
  exists evs,
    trace (denoise_full_frame w) = trace w ++ evs /\
    frames_run evs = 1%nat /\
    if (denoise_output_pos v + RNNOISE_FRAME_SIZE <=? denoise_buffer_size v)%nat
    then
      denoise_output_pos v' = (denoise_output_pos v + RNNOISE_FRAME_SIZE)%nat /\
      exists frame,
        length frame = RNNOISE_FRAME_SIZE /\
        output_queue v' = output_queue v ++ frame
    else
      denoise_output_pos v' = denoise_output_pos v /\
      denoise_output_buffer v' = denoise_output_buffer v /\
      In Warning_frame_dropped evs.
Proof.
  intros (Hst & (ib & Hib & Lib) & (ob & Hob & Lob) & Hsize & Hopos) Hinit.
  cbv zeta. unfold denoise_full_frame, gst_vosk_process_denoise_frame.
  apply Nat.eqb_neq in Hst. unfold is_null. rewrite Hst, Hinit.
  cbn [orb negb]. unfold output_queue, denoise_buffers_ok.
  rewrite Hib.
  set (out := map _ (seq 0 RNNOISE_FRAME_SIZE)).
  assert (Lout : length out = RNNOISE_FRAME_SIZE)
    by (unfold out; now rewrite length_map, length_seq).
  assert (HF : firstn RNNOISE_FRAME_SIZE (out ++ skipn (length out) ib) = out).
  { rewrite <- Lout at 1.
    now rewrite firstn_app, Nat.sub_diag, firstn_O, app_nil_r, firstn_all. }
  assert (Lib' : length (out ++ skipn (length out) ib)
                 = denoise_buffer_size (vosk w)).
  { rewrite length_app, length_skipn. lia. }
  cbn. rewrite Hob.
  destruct (_ <=? _)%nat eqn:Hfit; cbn; rewrite ?Hob, ?Hib; cbn; rewrite ?HF.
  - apply Nat.leb_le in Hfit.
    split; [|split; [reflexivity|split; [exact Hinit|split; [reflexivity|
             split; [reflexivity|]]]]].
    + split; [now apply Nat.eqb_neq|].
      split; [eexists; split; [reflexivity|exact Lib']|].
      split; [|split; [exact Hsize|exact Hfit]].
      eexists; split; [reflexivity|].
      rewrite length_array_write; [exact Lob|lia].
    + eexists. split; [reflexivity|]. split; [reflexivity|].
      split; [reflexivity|]. exists out. split; [exact Lout|].
      rewrite <- Lout at 1. apply firstn_array_write. lia.
  - split; [|split; [reflexivity|split; [exact Hinit|split; [reflexivity|
             split; [reflexivity|]]]]].
    + split; [now apply Nat.eqb_neq|].
      split; [eexists; split; [reflexivity|exact Lib']|].
      split; [eexists; split; [reflexivity|exact Lob]|].
      split; [exact Hsize|exact Hopos].
    + eexists. split; [now rewrite <- app_assoc|].
      split; [reflexivity|]. split; [reflexivity|]. split; [reflexivity|].
      cbn. auto.
Qed.

Lemma accumulate_unfold (fuel : nat) (w : World) (s16 : list Z) (read : nat) :
  denoise_accumulate (S fuel) w s16 read =
  if (length s16 <=? read)%nat then Some w
  else let '(w2, read2) := accumulate_turn w s16 read in
       denoise_accumulate fuel w2 s16 read2.
Proof. reflexivity. Qed.

(** One turn reads at least one sample, runs the transform if and only if it
    completes a frame, and only ever adds to the end of the output queue. *)
Lemma accumulate_turn_spec (w : World) (s16 : list Z) (read : nat) :
  denoise_wf (vosk w) ->
  denoise_initialized (vosk w) = true ->
  (read < length s16)%nat ->
  let v := vosk w in
  let w2 := fst (accumulate_turn w s16 read) in
  let read2 := snd (accumulate_turn w s16 read) in
  let v2 := vosk w2 in
  denoise_wf v2 /\
  denoise_initialized v2 = true /\
  enable_denoise v2 = enable_denoise v /\
  denoise_buffer_size v2 = denoise_buffer_size v /\
  (read < read2 <= length s16)%nat /\
  exists evs added,
    trace w2 = trace w ++ evs /\
    (RNNOISE_FRAME_SIZE * frames_run evs + denoise_buffer_pos v2
     = denoise_buffer_pos v + (read2 - read))%nat /\
    output_queue v2 = output_queue v ++ added.
Proof.
  intros ((Hst & (ib & Hib & Lib) & (ob & Hob & Lob) & Hsize & Hopos) & Hpos)
         Hinit Hread.
  cbv zeta. unfold accumulate_turn. cbv zeta. cbn [fst snd].
  set (to_copy := Nat.min _ _).
  assert (Htc : (1 <= to_copy <= length s16 - read
                 /\ denoise_buffer_pos (vosk w) + to_copy
                    <= RNNOISE_FRAME_SIZE)%nat)
    by (unfold to_copy; lia).
  set (src := gst_vosk_convert_s16_to_float _).
  assert (Lsrc : length src = to_copy).
  { unfold src, gst_vosk_convert_s16_to_float.
    rewrite length_map, length_firstn, length_skipn. lia. }
  set (w1 := upd (set_denoise_buffer_pos _) (upd _ w)).
  assert (Hok1 : denoise_buffers_ok (vosk w1)).
  { unfold w1, denoise_buffers_ok. cbn. rewrite Hib, Hob. cbn.
    split; [exact Hst|].
    split; [eexists; split; [reflexivity|]|].
    { rewrite length_array_write; [exact Lib|lia]. }
    split; [eexists; split; [reflexivity|exact Lob]|].
    split; assumption. }
  assert (Hq1 : output_queue (vosk w1) = output_queue (vosk w)) by reflexivity.
  destruct (_ =? _)%nat eqn:Hfull.
  - apply Nat.eqb_eq in Hfull.
    destruct (denoise_full_frame_spec w1 Hok1 Hinit)
      as (Hok & Hp0 & Hi & He & Hs & evs & Htr & Hfr & Hfit).
    split; [split; [exact Hok|rewrite Hp0; unfold RNNOISE_FRAME_SIZE; lia]|].
    split; [exact Hi|]. split; [exact He|]. split; [exact Hs|].
    split; [lia|].
    exists evs.
    destruct (_ <=? _)%nat.
    + destruct Hfit as (_ & frame & _ & Hq). exists frame.
      split; [exact Htr|]. split; [|now rewrite Hq, Hq1].
      rewrite Hfr, Hp0. cbn in Hfull. lia.
    + destruct Hfit as (Hop & Hbuf & _). exists [].
      split; [exact Htr|]. split; [rewrite Hfr, Hp0; cbn in Hfull; lia|].
      rewrite app_nil_r. unfold output_queue. now rewrite Hop, Hbuf.
  - apply Nat.eqb_neq in Hfull. rename Hfull into Hpart.
    cbn in Hpart.
    split; [split; [exact Hok1|cbn; lia]|].
    split; [exact Hinit|]. split; [reflexivity|]. split; [reflexivity|].
    split; [lia|].
    exists [], []. split; [now rewrite app_nil_r|].
    split; [cbn; lia|]. now rewrite app_nil_r.
Qed.

(** The loop ends within one unit of fuel per sample left, has run the
    transform once per completed frame, and has only added to the end of the
    output queue. *)
Lemma denoise_accumulate_spec (s16 : list Z) (fuel : nat) :
  forall (w : World) (read : nat),
    denoise_wf (vosk w) ->
    denoise_initialized (vosk w) = true ->
    (read <= length s16)%nat ->
    (length s16 - read <= fuel)%nat ->
    exists w',
      denoise_accumulate fuel w s16 read = Some w' /\
      denoise_wf (vosk w') /\
      denoise_initialized (vosk w') = true /\
      enable_denoise (vosk w') = enable_denoise (vosk w) /\
      denoise_buffer_size (vosk w') = denoise_buffer_size (vosk w) /\
      exists evs added,
        trace w' = trace w ++ evs /\
        (RNNOISE_FRAME_SIZE * frames_run evs + denoise_buffer_pos (vosk w')
         = denoise_buffer_pos (vosk w) + (length s16 - read))%nat /\
        output_queue (vosk w') = output_queue (vosk w) ++ added.
Proof.
  assert (Hstop : forall w read,
             denoise_wf (vosk w) ->
             denoise_initialized (vosk w) = true ->
             (length s16 <= read)%nat ->
             (length s16 <=? read)%nat = true ->
             exists w',
               Some w = Some w' /\
               denoise_wf (vosk w') /\
               denoise_initialized (vosk w') = true /\
               enable_denoise (vosk w') = enable_denoise (vosk w) /\
               denoise_buffer_size (vosk w') = denoise_buffer_size (vosk w) /\
               exists evs added,
                 trace w' = trace w ++ evs /\
                 (RNNOISE_FRAME_SIZE * frames_run evs
                  + denoise_buffer_pos (vosk w')
                  = denoise_buffer_pos (vosk w) + (length s16 - read))%nat /\
                 output_queue (vosk w') = output_queue (vosk w) ++ added).
  { intros w read Hwf Hinit Hle _. exists w.
    repeat (split; [auto; fail|]).
    exists [], []. rewrite !app_nil_r. repeat split. cbn. lia. }
  induction fuel as [|fuel IH]; intros w read Hwf Hinit Hread Hfuel.
  - cbn [denoise_accumulate].
    assert (Hle : (length s16 <= read)%nat) by lia.
    rewrite (proj2 (Nat.leb_le _ _) Hle).
    apply Hstop; auto. now apply Nat.leb_le.
  - rewrite accumulate_unfold.
    destruct (length s16 <=? read)%nat eqn:Hdone.
    + apply Hstop; auto. now apply Nat.leb_le.
    + apply Nat.leb_gt in Hdone.
      destruct (accumulate_turn_spec w s16 read Hwf Hinit Hdone)
        as (Hwf2 & Hinit2 & Hen2 & Hsz2 & Hr2 & evs1 & add1 & Ht1 & Hf1 & Hq1).
      destruct (accumulate_turn w s16 read) as [w2 read2].
      cbn [fst snd] in *.
      destruct (IH w2 read2 Hwf2 Hinit2 ltac:(lia) ltac:(lia))
        as (w' & Hacc & Hwf' & Hinit' & Hen' & Hsz' & evs2 & add2
            & Ht2 & Hf2 & Hq2).
      exists w'. split; [exact Hacc|]. split; [exact Hwf'|].
      split; [exact Hinit'|]. split; [congruence|]. split; [congruence|].
      exists (evs1 ++ evs2), (add1 ++ add2).
      split; [now rewrite Ht2, Ht1, app_assoc|].
      split; [rewrite frames_run_app; lia|].
      now rewrite Hq2, Hq1, app_assoc.
Qed.

Lemma denoise_accumulate_runs (w : World) (s16 : list Z) :
  denoise_wf (vosk w) ->
  denoise_initialized (vosk w) = true ->
  exists w', denoise_accumulate (length s16) w s16 0 = Some w'.
Proof.
  intros Hwf Hinit.
  destruct (denoise_accumulate_spec s16 (length s16) w 0%nat Hwf Hinit)
    as (w' & H & _); [lia|lia|]. eauto.
Qed.

Lemma output_queue_length (v : GstVosk) :
  denoise_buffers_ok v -> length (output_queue v) = denoise_output_pos v.
Proof.
  intros (_ & _ & (ob & Hob & Lob) & _ & Hopos).
  unfold output_queue. rewrite Hob. cbn.
  rewrite length_firstn. lia.
Qed.

(** The second half of the step: the buffer takes the front of the queue,
    the queue loses it, and silence fills the rest. *)
Lemma denoise_drain_spec (w : World) (s16 : list Z) :
  denoise_buffers_ok (vosk w) ->
  let v := vosk w in
  let v' := vosk (fst (denoise_drain w s16)) in
  let k := Nat.min (denoise_output_pos v) (length s16) in
  snd (denoise_drain w s16)
  = gst_vosk_convert_float_to_s16 (firstn k (output_queue v))
    ++ repeat 0 (length s16 - k) /\
  output_queue v' = skipn k (output_queue v) /\
  denoise_output_pos v' = (denoise_output_pos v - k)%nat /\
  denoise_buffers_ok v' /\
  denoise_buffer_pos v' = denoise_buffer_pos v /\
  denoise_initialized v' = denoise_initialized v /\
  enable_denoise v' = enable_denoise v /\
  denoise_buffer_size v' = denoise_buffer_size v /\
  trace (fst (denoise_drain w s16)) = trace w.
Proof.
  intros (Hst & Hib & (ob & Hob & Lob) & Hsize & Hopos).
  cbv zeta. unfold denoise_drain, output_queue, denoise_buffers_ok. cbv zeta.
  set (k := Nat.min _ _). rewrite Hob.
  assert (Hk : (k <= denoise_output_pos (vosk w) /\ k <= length s16)%nat)
    by (unfold k; lia).
  assert (Hfk : firstn k (firstn (denoise_output_pos (vosk w)) ob)
                = firstn k ob).
  { rewrite firstn_firstn. f_equal. lia. }
  assert (Lconv : length (gst_vosk_convert_float_to_s16 (firstn k ob)) = k).
  { unfold gst_vosk_convert_float_to_s16.
    rewrite length_map, length_firstn. lia. }
  cbn [array_read skipn]. rewrite Hfk.
  destruct (0 <? k)%nat eqn:Hk0.
  - apply Nat.ltb_lt in Hk0. cbn [vosk upd denoise_output_pos
      set_denoise_output_pos].
    assert (Hout :
      (if (k <? length s16)%nat
       then firstn k (gst_vosk_convert_float_to_s16 (firstn k ob)
                      ++ skipn k s16)
            ++ repeat 0 (length s16 - k)
       else gst_vosk_convert_float_to_s16 (firstn k ob) ++ skipn k s16)
      = gst_vosk_convert_float_to_s16 (firstn k ob)
        ++ repeat 0 (length s16 - k)).
    { destruct (k <? length s16)%nat eqn:Hkn.
      - rewrite <- Lconv at 1.
        now rewrite firstn_app, Nat.sub_diag, firstn_O, app_nil_r, firstn_all.
      - apply Nat.ltb_ge in Hkn.
        rewrite skipn_all2 by lia.
        replace (length s16 - k)%nat with 0%nat by lia. reflexivity. }
    destruct (0 <? denoise_output_pos (vosk w) - k)%nat eqn:Hrem;
      cbn [fst snd]; (split; [exact Hout|]); cbn; rewrite ?Hob, ?Hib; cbn.
    + apply Nat.ltb_lt in Hrem.
      set (R := firstn (denoise_output_pos (vosk w) - k) (skipn k ob)).
      assert (LR : length R = (denoise_output_pos (vosk w) - k)%nat).
      { unfold R. rewrite length_firstn, length_skipn. lia. }
      split.
      { rewrite skipn_firstn_comm. fold R.
        rewrite <- LR at 1.
        now rewrite firstn_app, Nat.sub_diag, firstn_O, app_nil_r, firstn_all. }
      split; [reflexivity|].
      split; [|repeat split].
      split; [exact Hst|]. split; [exact Hib|].
      split; [|split; [exact Hsize|lia]].
      eexists; split; [reflexivity|].
      rewrite length_app, length_skipn. lia.
    + apply Nat.ltb_ge in Hrem.
      assert (Hz : (denoise_output_pos (vosk w) - k = 0)%nat) by lia.
      rewrite Hz. split.
      { cbn. symmetry. apply skipn_all2. rewrite length_firstn. lia. }
      split; [reflexivity|].
      split; [|repeat split].
      split; [exact Hst|]. split; [exact Hib|].
      split; [eexists; split; [reflexivity|exact Lob]|].
      split; [exact Hsize|lia].
  - apply Nat.ltb_ge in Hk0. assert (k = 0)%nat as Hkz by lia.
    cbn [fst snd]. rewrite Hkz. cbn [firstn skipn app]. rewrite Nat.sub_0_r.
    unfold array_read. rewrite ?Hob. cbn [skipn].
    split.
    { destruct (0 <? length s16)%nat eqn:Hn; [reflexivity|].
      apply Nat.ltb_ge in Hn. destruct s16; [reflexivity|cbn in Hn; lia]. }
    split; [reflexivity|]. split; [lia|].
    split; [|repeat split].
    split; [exact Hst|]. split; [exact Hib|].
    split; [eexists; split; [reflexivity|exact Lob]|].
    split; assumption.
Qed.

Lemma denoise_events_no_error (evs : list Event) :
  forallb is_denoise_event evs = true -> filter is_error evs = [].
Proof. apply filter_none. intros []; cbn; congruence. Qed.

(** The whole step on one buffer. *)
Lemma gst_vosk_apply_denoise_spec (w : World) (s16 : list Z) :
  denoise_active (vosk w) ->
  denoise_wf (vosk w) ->
  let w' := fst (gst_vosk_apply_denoise w s16) in
  exists wa evs added,
    denoise_accumulate (length s16) w s16 0 = Some wa /\
    denoise_buffers_ok (vosk wa) /\
    denoise_buffer_size (vosk wa) = denoise_buffer_size (vosk w) /\
    output_queue (vosk wa) = output_queue (vosk w) ++ added /\
    trace w' = trace w ++ evs /\
    (RNNOISE_FRAME_SIZE * frames_run evs + denoise_buffer_pos (vosk w')
     = denoise_buffer_pos (vosk w) + length s16)%nat /\
    denoise_active (vosk w') /\
    denoise_wf (vosk w') /\
    denoise_buffer_size (vosk w') = denoise_buffer_size (vosk w) /\
    let n := Nat.min (denoise_output_pos (vosk wa)) (length s16) in
    snd (gst_vosk_apply_denoise w s16)
    = gst_vosk_convert_float_to_s16 (firstn n (output_queue (vosk wa)))
      ++ repeat 0 (length s16 - n) /\
    output_queue (vosk w') = skipn n (output_queue (vosk wa)) /\
    denoise_output_pos (vosk w') = (denoise_output_pos (vosk wa) - n)%nat.
Proof.
  intros (Hen & Hinit & Hrate) Hwf. cbv zeta.
  destruct (denoise_accumulate_spec s16 (length s16) w 0%nat Hwf Hinit)
    as (wa & Hacc & Hwfa & Hinita & Hena & Hsza & evs & added
        & Htr & Hfr & Hq); [lia|lia|].
  pose proof (denoise_accumulate_step _ _ _ _ _ Hacc) as (Hout & _).
  destruct Hwfa as [Hoka Hposa].
  destruct (denoise_drain_spec wa s16 Hoka)
    as (Hs & Hq' & Hop' & Hok' & Hpos' & Hinit' & Hen' & Hsz' & Htr').
  unfold gst_vosk_apply_denoise. rewrite Hen, Hinit, Hrate, Hacc.
  cbn [negb orb Z.eqb Pos.eqb].
  exists wa, evs, added.
  split; [reflexivity|]. split; [exact Hoka|]. split; [exact Hsza|].
  split; [exact Hq|]. split; [congruence|].
  split; [rewrite Hpos'; lia|].
  split.
  { unfold denoise_active. rewrite Hen', Hinit', Hena, Hinita.
    repeat split; try assumption.
    pose proof (denoise_drain_step wa s16) as (Hout' & _).
    unfold outside_denoise in Hout, Hout'. congruence. }
  split; [split; [exact Hok'|now rewrite Hpos']|].
  split; [congruence|].
  split; [exact Hs|]. split; [exact Hq'|exact Hop'].
Qed.

Lemma feed_chunks_spec (chunks : list (list Z)) :
  forall w : World,
    denoise_active (vosk w) ->
    denoise_wf (vosk w) ->
    exists evs,
      trace (feed_chunks w chunks) = trace w ++ evs /\
      (RNNOISE_FRAME_SIZE * frames_run evs
       + denoise_buffer_pos (vosk (feed_chunks w chunks))
       = denoise_buffer_pos (vosk w) + length (List.concat chunks))%nat /\
      denoise_wf (vosk (feed_chunks w chunks)).
Proof.
  induction chunks as [|s16 chunks IH]; intros w Hact Hwf.
  - exists []. cbn. rewrite app_nil_r. repeat split; [lia|apply Hwf..].
  - destruct (gst_vosk_apply_denoise_spec w s16 Hact Hwf)
      as (_ & evs1 & _ & _ & _ & _ & _ & Htr1 & Hfr1 & Hact1 & Hwf1 & _).
    destruct (IH _ Hact1 Hwf1) as (evs2 & Htr2 & Hfr2 & Hwf2).
    exists (evs1 ++ evs2). cbn [feed_chunks List.concat].
    split; [now rewrite Htr2, Htr1, app_assoc|].
    split; [rewrite frames_run_app, length_app; lia|exact Hwf2].
Qed.

(** Frames run and samples drained, from any element whose denoise buffers
    are set up. *)
Lemma denoise_frames_and_drain_wf (w : World) :
  denoise_active (vosk w) ->
  denoise_wf (vosk w) ->
  (forall (chunks : list (list Z)) (k : nat),
      length (List.concat chunks) = (k * RNNOISE_FRAME_SIZE)%nat ->
      frames_run (events_since w (feed_chunks w chunks)) = k) /\
  (forall s16 : list Z,
      exists wa,
        denoise_accumulate (length s16) w s16 0 = Some wa /\
        let w' := fst (gst_vosk_apply_denoise w s16) in
        let n := Nat.min (denoise_output_pos (vosk wa)) (length s16) in
        snd (gst_vosk_apply_denoise w s16)
        = gst_vosk_convert_float_to_s16 (firstn n (output_queue (vosk wa)))
          ++ repeat 0 (length s16 - n) /\
        output_queue (vosk w') = skipn n (output_queue (vosk wa)) /\
        denoise_output_pos (vosk w') = (denoise_output_pos (vosk wa) - n)%nat /\
        filter is_error (events_since w w') = []).
Proof.
  intros Hact Hwf. split.
  - intros chunks k Hlen.
    destruct (feed_chunks_spec chunks w Hact Hwf)
      as (evs & Htr & Hfr & (_ & Hpos')).
    rewrite (events_since_app _ _ _ Htr).
    destruct Hwf as (_ & Hpos).
    unfold RNNOISE_FRAME_SIZE in *. lia.
  - intros s16.
    destruct (gst_vosk_apply_denoise_spec w s16 Hact Hwf)
      as (wa & evs & added & Hacc & _ & _ & _ & Htr & _ & _ & _ & _
          & Hs & Hq & Hop).
    exists wa. split; [exact Hacc|]. cbv zeta.
    split; [exact Hs|]. split; [exact Hq|]. split; [exact Hop|].
    destruct (gst_vosk_apply_denoise_step w s16)
      as (_ & _ & evs' & Htr' & Hev).
    rewrite (events_since_app _ _ _ Htr').
    now apply denoise_events_no_error.
Qed.

(** The output position and the queue through one denoise step, from any
    element whose denoise buffers are set up. *)
Lemma denoise_output_bounded_wf (w w0 : World) (s16 : list Z) :
  denoise_active (vosk w) ->
  denoise_wf (vosk w) ->
  denoise_buffers_ok (vosk w0) ->
  denoise_initialized (vosk w0) = true ->
  (exists wa added,
      denoise_accumulate (length s16) w s16 0 = Some wa /\
      (denoise_output_pos (vosk wa) <= denoise_buffer_size (vosk wa))%nat /\
      denoise_buffer_size (vosk wa) = denoise_buffer_size (vosk w) /\
      output_queue (vosk wa) = output_queue (vosk w) ++ added) /\
  (let v' := vosk (fst (gst_vosk_apply_denoise w s16)) in
   (denoise_output_pos v' <= denoise_buffer_size v')%nat /\
   denoise_buffer_size v' = denoise_buffer_size (vosk w)) /\
  (let v0 := vosk w0 in
   let v0' := vosk (denoise_full_frame w0) in
   if (denoise_output_pos v0 + RNNOISE_FRAME_SIZE
       <=? denoise_buffer_size v0)%nat
   then
     denoise_output_pos v0'
     = (denoise_output_pos v0 + RNNOISE_FRAME_SIZE)%nat /\
     (denoise_output_pos v0' <= denoise_buffer_size v0')%nat /\
     exists frame,
       length frame = RNNOISE_FRAME_SIZE /\
       output_queue v0' = output_queue v0 ++ frame
   else
     denoise_output_pos v0' = denoise_output_pos v0 /\
     denoise_output_buffer v0' = denoise_output_buffer v0 /\
     In Warning_frame_dropped (events_since w0 (denoise_full_frame w0))).
Proof.
  intros Hact Hwf Hok0 Hinit0.
  destruct (gst_vosk_apply_denoise_spec w s16 Hact Hwf)
    as (wa & evs & added & Hacc & Hoka & Hsza & Hq & _ & _ & _ & Hwf' & Hsz'
        & _).
  split; [|split].
  - exists wa, added. split; [exact Hacc|].
    split; [apply Hoka|]. split; [exact Hsza|exact Hq].
  - cbv zeta. split; [apply Hwf'|exact Hsz'].
  - cbv zeta.
    destruct (denoise_full_frame_spec w0 Hok0 Hinit0)
      as (Hok' & _ & _ & _ & Hs & evs0 & Htr & _ & Hfit).
    rewrite (events_since_app _ _ _ Htr).
    destruct (_ <=? _)%nat.
    + destruct Hfit as (Hop & frame & Lf & Hqf).
      split; [exact Hop|]. split; [apply Hok'|].
      exists frame. split; assumption.
    + exact Hfit.
Qed.

(** The element [gst_vosk_init_denoise] leaves is set up as the step
    expects. *)
Lemma gst_vosk_init_denoise_wf (w : World) :
  enable_denoise (vosk w) = true ->
  denoise_initialized (vosk w) = false ->
  snd (gst_vosk_init_denoise w) = true ->
  let v' := vosk (fst (gst_vosk_init_denoise w)) in
  denoise_wf v' /\ denoise_initialized v' = true /\
  denoise_output_pos v' = 0%nat /\ denoise_buffer_size v' = 960%nat.
Proof.
  intros Hen Hinit. unfold gst_vosk_init_denoise.
  rewrite Hen, Hinit. cbn [negb orb].
  destruct (_ <=? 0); [discriminate|].
  cbn [vosk upd emit trace].
  match goal with
  | |- context [is_null (rnnoise_create ?t)] =>
    set (st := rnnoise_create t);
    destruct (is_null st) eqn:Hst; [discriminate|]
  end.
  intros _. cbn.
  apply Nat.eqb_neq in Hst.
  unfold denoise_wf, denoise_buffers_ok. cbn.
  assert (Hbuf : exists b : list Q,
             Some (repeat 0%Q (RNNOISE_FRAME_SIZE * 2)) = Some b
             /\ length b = (RNNOISE_FRAME_SIZE * 2)%nat)
    by (eexists; split; [reflexivity|apply repeat_length]).
  split; [|repeat split].
  split; [|unfold RNNOISE_FRAME_SIZE; lia].
  split; [exact Hst|]. split; [exact Hbuf|]. split; [exact Hbuf|].
  unfold RNNOISE_FRAME_SIZE; lia.
Qed.

End Denoise.

(** ** The denoise buffers are set up in every reachable world *)

Section Invariant.

Context {ext : Externals}.

Lemma denoise_inv_fields (v v' : GstVosk) :
  denoise_fields v' = denoise_fields v -> denoise_inv v -> denoise_inv v'.
Proof.
  unfold denoise_fields, denoise_inv, denoise_wf, denoise_buffers_ok.
  intros [= E1 E2 E3 E4 E5 E6 E7 E8].
  rewrite ?E2, ?E3, ?E4, ?E5, ?E6, ?E7, ?E8. auto.
Qed.

Lemma denoise_inv_uninitialized (v : GstVosk) :
  denoise_initialized v = false -> denoise_inv v.
Proof. unfold denoise_inv. congruence. Qed.

Lemma gst_vosk_apply_denoise_inv (w : World) (s16 : list Z) :
  denoise_inv (vosk w) ->
  denoise_inv (vosk (fst (gst_vosk_apply_denoise w s16))).
Proof.
  intros Hinv.
  destruct (enable_denoise (vosk w)) eqn:Hen;
    [|unfold gst_vosk_apply_denoise; now rewrite Hen].
  destruct (denoise_initialized (vosk w)) eqn:Hinit;
    [|unfold gst_vosk_apply_denoise; now rewrite Hen, Hinit].
  destruct (rate (vosk w) =? 48000) eqn:Hrate;
    [|unfold gst_vosk_apply_denoise; now rewrite Hen, Hinit, Hrate].
  apply Z.eqb_eq in Hrate.
  destruct (gst_vosk_apply_denoise_spec w s16)
    as (_ & _ & _ & _ & _ & _ & _ & _ & _ & _ & Hwf & _).
  - repeat split; assumption.
  - apply Hinv, Hinit.
  - intros _. exact Hwf.
Qed.

Lemma recognize_buffer_denoise_fields (w : World) (buf : GstBuffer) (t : Z) :
  denoise_fields (vosk (fst (recognize_buffer w buf t)))
  = denoise_fields (vosk w).
Proof.
  unfold recognize_buffer, gst_vosk_result_msg, gst_vosk_result,
    gst_vosk_partial_result, gst_vosk_message_new.
  cbv zeta. split_cases; reflexivity.
Qed.

Lemma gst_vosk_handle_buffer_inv (w : World) (buf : GstBuffer) (t : Z) :
  denoise_inv (vosk w) ->
  denoise_inv (vosk (fst (gst_vosk_handle_buffer w buf t))).
Proof.
  intros Hinv. rewrite gst_vosk_handle_buffer_eq.
  destruct (negb _); [exact Hinv|].
  destruct (_ =? _)%nat; [exact Hinv|].
  pose proof (gst_vosk_apply_denoise_inv w (samples buf) Hinv) as H.
  destruct (gst_vosk_apply_denoise w (samples buf)) as [w1 data].
  eapply denoise_inv_fields; [apply recognize_buffer_denoise_fields|exact H].
Qed.

Lemma gst_vosk_init_denoise_inv (w : World) :
  denoise_inv (vosk w) -> denoise_inv (vosk (fst (gst_vosk_init_denoise w))).
Proof.
  intros Hinv.
  destruct (enable_denoise (vosk w)) eqn:Hen;
    [|unfold gst_vosk_init_denoise; now rewrite Hen].
  destruct (denoise_initialized (vosk w)) eqn:Hinit;
    [unfold gst_vosk_init_denoise; now rewrite Hen, Hinit|].
  destruct (snd (gst_vosk_init_denoise w)) eqn:Hret.
  - intros _. now apply gst_vosk_init_denoise_wf.
  - apply denoise_inv_uninitialized.
    revert Hret. unfold gst_vosk_init_denoise. rewrite Hen, Hinit.
    cbn [negb orb]. destruct (_ <=? 0); [intros _; exact Hinit|].
    cbv zeta. destruct (is_null (rnnoise_create _)); [|discriminate].
    intros _. destruct (is_null (denoise_state (vosk w))); exact Hinit.
Qed.

Lemma gst_vosk_recognizer_new_inv (w : World) (model : pointer) :
  denoise_inv (vosk w) ->
  denoise_inv (vosk (fst (gst_vosk_recognizer_new w model))).
Proof.
  intros Hinv. unfold gst_vosk_recognizer_new. cbv zeta.
  set (w0 := upd (set_rate _) w).
  assert (H0 : denoise_inv (vosk w0)) by exact Hinv.
  destruct (_ <=? 0); [exact H0|].
  destruct (is_null model); [exact H0|].
  cbn [fst].
  destruct (enable_denoise (vosk w0));
    [apply (gst_vosk_init_denoise_inv w0 H0)|exact H0].
Qed.

Lemma g_cancellable_cancel_vosk (c : pointer) (w : World) :
  vosk (g_cancellable_cancel c w) = vosk w.
Proof. destruct c; reflexivity. Qed.

Lemma gst_vosk_cancel_model_loading_fields (w : World) :
  denoise_fields (vosk (gst_vosk_cancel_model_loading w))
  = denoise_fields (vosk w).
Proof.
  unfold gst_vosk_cancel_model_loading.
  destruct (is_null _); [reflexivity|].
  cbn [vosk upd]. rewrite g_cancellable_cancel_vosk. reflexivity.
Qed.

Lemma gst_vosk_reset_inv (w : World) : denoise_inv (vosk (gst_vosk_reset w)).
Proof.
  apply denoise_inv_uninitialized. unfold gst_vosk_reset. reflexivity.
Qed.

Lemma gst_vosk_final_result_fields (w : World) :
  denoise_fields (vosk (fst (gst_vosk_final_result w)))
  = denoise_fields (vosk w).
Proof. unfold gst_vosk_final_result. split_cases; reflexivity. Qed.

Lemma gst_vosk_final_result_msg_fields (w : World) :
  denoise_fields (vosk (gst_vosk_final_result_msg w))
  = denoise_fields (vosk w).
Proof.
  unfold gst_vosk_final_result_msg, gst_vosk_final_result,
    gst_vosk_message_new.
  split_cases; reflexivity.
Qed.

Lemma load_model_locked_inv (status : GstVoskThreadData) (model : pointer)
  (w : World) :
  denoise_inv (vosk w) -> denoise_inv (vosk (load_model_locked status model w)).
Proof.
  intros Hinv. unfold load_model_locked, load_model_clean. cbv zeta.
  destruct (g_cancellable_is_cancelled _ _);
    [rewrite g_cancellable_cancel_vosk; exact Hinv|].
  destruct (is_null model);
    [rewrite g_cancellable_cancel_vosk; exact Hinv|].
  rewrite g_cancellable_cancel_vosk. cbn [vosk emit].
  apply (gst_vosk_recognizer_new_inv (upd (set_current_operation NULL) w)).
  exact Hinv.
Qed.

Lemma vosk_step_denoise_inv (w w' : World) :
  vosk_step w w' -> denoise_inv (vosk w) -> denoise_inv (vosk w').
Proof.
  intros Hstep Hinv. destruct Hstep.
  - unfold gst_vosk_chain.
    destruct (negb _).
    + match goal with
      | |- context [gst_vosk_handle_buffer ?x buf t] =>
        pose proof (gst_vosk_handle_buffer_inv x buf t) as H;
        destruct (gst_vosk_handle_buffer x buf t) as [wh bh]
      end.
      cbn [fst vosk emit] in *. apply H.
      destruct (_ =? _); exact Hinv.
    + cbn [fst vosk emit]. destruct (_ =? _); exact Hinv.
  - destruct e; cbn [gst_vosk_sink_event]; try exact Hinv.
    + unfold gst_vosk_flush. destruct (negb _); exact Hinv.
    + eapply denoise_inv_fields; [apply gst_vosk_final_result_msg_fields|].
      eapply denoise_inv_fields;
        [apply gst_vosk_cancel_model_loading_fields|exact Hinv].
  - destruct p; cbn [gst_vosk_set_property]; try exact Hinv.
    + unfold gst_vosk_set_model_path. destruct s; try exact Hinv;
        destruct (g_strcmp0_eq _ _); exact Hinv.
    + now apply denoise_inv_uninitialized.
    + destruct (_ =? _); [exact Hinv|].
      unfold gst_vosk_set_num_alternatives.
      destruct (negb _); exact Hinv.
  - destruct p; cbn [gst_vosk_get_property fst]; try exact Hinv.
    + pose proof (gst_vosk_final_result_fields w) as H.
      destruct (gst_vosk_final_result w) as [w1 txt].
      eapply denoise_inv_fields; [exact H|exact Hinv].
    + unfold gst_vosk_result. split_cases; exact Hinv.
  - unfold gst_vosk_change_state, gst_vosk_check_model_path.
    destruct tr; cbn [fst]; destruct parent_ok; cbn [negb fst];
      try exact Hinv; try apply gst_vosk_reset_inv;
      destruct (model_path (vosk w)); cbn [fst]; try exact Hinv;
      destruct (negb _); cbn [fst]; exact Hinv.
  - exact Hinv.
  - now apply load_model_locked_inv.
  - unfold load_model_clean. rewrite g_cancellable_cancel_vosk. exact Hinv.
  - exact Hinv.
Qed.

(** In every reachable world an initialised denoise step has its buffers
    set up, so the statements about the step apply whenever it is active. *)
Theorem reachable_denoise_inv (w : World) :
  reachable w -> denoise_inv (vosk w).
Proof.
  induction 1 as [|w w' _ IH Hstep].
  - now apply denoise_inv_uninitialized.
  - exact (vosk_step_denoise_inv w w' Hstep IH).
Qed.

(** The loader is a sequence of steps if the other threads are. *)
Lemma gst_vosk_load_model_async_reachable (meanwhile : World -> World)
  (status : GstVoskThreadData) (w : World) :
  (forall x, reachable x -> reachable (meanwhile x)) ->
  reachable w ->
  reachable (gst_vosk_load_model_async meanwhile status w).
Proof.
  intros Hm Hw. unfold gst_vosk_load_model_async.
  destruct (g_cancellable_is_cancelled w (cancellable status)).
  - eapply reachable_step; [exact Hw|apply step_load_clean].
  - cbv zeta. eapply reachable_step; [|apply step_load_locked].
    apply Hm. eapply reachable_step; [exact Hw|apply step_load_model_new].
Qed.

End Invariant.

(** ** The frame adapter in reachable worlds *)

Section DenoiseClaims.

Context {ext : Externals}.

(** C8.  In any world the element can be in, an initialised denoise step has
    its output position within the buffer size.  With denoising active, the
    step on a buffer keeps the position within the size, which does not
    change, both after the frames of the buffer were added and after the
    buffer was filled from the queue; what the queue held before is still at
    its front when the new frames are behind it.  A completed frame is
    appended only if all of it fits; otherwise it is dropped with a warning
    and the output buffer and its position stay as they were. *)
Theorem denoise_output_never_overflows (w : World) :
  reachable w ->
  (denoise_initialized (vosk w) = true ->
   (denoise_output_pos (vosk w) <= denoise_buffer_size (vosk w))%nat) /\
  (denoise_active (vosk w) ->
   forall s16 : list Z,
     (exists wa added,
         denoise_accumulate (length s16) w s16 0 = Some wa /\
         (denoise_output_pos (vosk wa) <= denoise_buffer_size (vosk wa))%nat /\
         denoise_buffer_size (vosk wa) = denoise_buffer_size (vosk w) /\
         output_queue (vosk wa) = output_queue (vosk w) ++ added) /\
     (let v' := vosk (fst (gst_vosk_apply_denoise w s16)) in
      (denoise_output_pos v' <= denoise_buffer_size v')%nat /\
      denoise_buffer_size v' = denoise_buffer_size (vosk w))) /\
  (forall w0 : World,
      denoise_buffers_ok (vosk w0) ->
      denoise_initialized (vosk w0) = true ->
      let v0 := vosk w0 in
      let v0' := vosk (denoise_full_frame w0) in
      if (denoise_output_pos v0 + RNNOISE_FRAME_SIZE
          <=? denoise_buffer_size v0)%nat
      then
        denoise_output_pos v0'
        = (denoise_output_pos v0 + RNNOISE_FRAME_SIZE)%nat /\
        (denoise_output_pos v0' <= denoise_buffer_size v0')%nat /\
        exists frame,
          length frame = RNNOISE_FRAME_SIZE /\
          output_queue v0' = output_queue v0 ++ frame
      else
        denoise_output_pos v0' = denoise_output_pos v0 /\
        denoise_output_buffer v0' = denoise_output_buffer v0 /\
        In Warning_frame_dropped (events_since w0 (denoise_full_frame w0))).
Proof.
  intros Hreach. pose proof (reachable_denoise_inv w Hreach) as Hinv.
  split; [|split].
  - intros Hinit. apply (Hinv Hinit).
  - intros Hact s16.
    assert (Hwf : denoise_wf (vosk w)) by (apply Hinv; apply Hact).
    destruct (denoise_output_bounded_wf w w s16 Hact Hwf)
      as (Hacc & Hafter & _); [apply Hwf|apply Hact|].
    split; assumption.
  - intros w0 Hok0 Hinit0.
    pose proof (denoise_full_frame_spec w0 Hok0 Hinit0)
      as (Hok' & _ & _ & _ & Hs & evs0 & Htr & _ & Hfit).
    cbv zeta. rewrite (events_since_app _ _ _ Htr).
    destruct (_ <=? _)%nat.
    + destruct Hfit as (Hop & frame & Lf & Hqf).
      split; [exact Hop|]. split; [apply Hok'|].
      exists frame. split; assumption.
    + exact Hfit.
Qed.

End DenoiseClaims.

(** *** The frame adapter on concrete buffers *)

Lemma streaming_world_reachable : @reachable final_engine streaming_world.
Proof.
  unfold streaming_world.
  eapply reachable_step; [|apply step_load_locked].
  unfold model_built_world.
  eapply reachable_step; [|apply step_load_model_new].
  unfold paused_world.
  eapply reachable_step; [|apply step_change_state].
  unfold caps_world.
  eapply reachable_step; [|apply step_caps].
  apply reachable_init.
Defined.

Lemma denoise_output_never_overflows_witness :
  (denoise_output_pos
     (vosk (fst (@gst_vosk_apply_denoise final_engine streaming_world
                   (repeat 0%Z 1440%nat))))
   <= 960)%nat.
Proof.
  destruct (@denoise_output_never_overflows final_engine streaming_world)
    as (_ & H & _).
  - unfold streaming_world.
    eapply reachable_step; [|apply step_load_locked].
    unfold model_built_world.
    eapply reachable_step; [|apply step_load_model_new].
    unfold paused_world.
    eapply reachable_step; [|apply step_change_state].
    unfold caps_world.
    eapply reachable_step; [|apply step_caps].
    apply reachable_init.
  - destruct (H ltac:(repeat split) (repeat 0%Z 1440%nat))
      as (_ & Hle & Hs).
    rewrite Hs in Hle. exact Hle.
Defined.

(** Three frames in one buffer: the transform runs three times, the third
    frame finds the output buffer full and is dropped, and the buffer comes
    back with two frames of sound and one of silence. *)
Example three_frames_in_one_buffer :
  let r := @gst_vosk_apply_denoise final_engine streaming_world
             (repeat 7%Z 1440%nat) in
  frames_run (events_since streaming_world (fst r)) = 3%nat /\
  filter (fun e => match e with Warning_frame_dropped => true | _ => false end)
    (events_since streaming_world (fst r)) = [Warning_frame_dropped] /\
  snd r = repeat 7%Z 960%nat ++ repeat 0%Z 480%nat /\
  denoise_output_pos (vosk (fst r)) = 0%nat.
Proof. vm_compute. repeat split. Qed.

(** ** Cancelling a load *)

Lemma set_nth_true_same (i : nat) (l : list bool) :
  nth i l false = true -> set_nth_true i l = l.
Proof.
  revert i. induction l as [|b l IH]; intros [|i]; cbn; try reflexivity.
  - intros ->. reflexivity.
  - intros H. now rewrite IH.
Qed.

Lemma g_cancellable_cancel_cancelled (w : World) (c : pointer) :
  g_cancellable_is_cancelled w c = true -> g_cancellable_cancel c w = w.
Proof.
  destruct c as [|i]; cbn; [discriminate|].
  intros H. unfold set_cancellables. rewrite (set_nth_true_same _ _ H).
  destruct w; reflexivity.
Qed.

Section Loader.

Context {ext : Externals}.

(** C9.  A load whose flag is set when the worker looks is not installed.
    If the flag is set at the first look, the worker leaves the world as it
    is.  If it is set at the second look, made under the lock after the model
    was built, the worker frees the model and nothing else: no recogniser is
    created, the session (rate, handle, alternatives, interval, timestamps,
    cached partial) is the one it found, and the only field it wrote is the
    slot of the pending operation, which it empties before it looks. *)
Theorem cancelled_load_is_not_installed (meanwhile : World -> World)
  (status : GstVoskThreadData) (w : World) :
  let w' := gst_vosk_load_model_async meanwhile status w in
  (g_cancellable_is_cancelled w (cancellable status) = true -> w' = w) /\
  (g_cancellable_is_cancelled w (cancellable status) = false ->
   let model := vosk_model_new (trace w) (path status) in
   let locked :=
     meanwhile (emit (Call_vosk_model_new (path status) model) w) in
   g_cancellable_is_cancelled locked (cancellable status) = true ->
   events_since locked w' = [Call_vosk_model_free model] /\
   filter is_install (events_since locked w') = [] /\
   recognizer (vosk w') = recognizer (vosk locked) /\
   session_state (vosk w') = session_state (vosk locked) /\
   vosk w' = set_current_operation NULL (vosk locked) /\
   cancellables w' = cancellables locked).
Proof.
  cbv zeta. unfold gst_vosk_load_model_async. split.
  - intros Hc. rewrite Hc. unfold load_model_clean.
    now apply g_cancellable_cancel_cancelled.
  - intros Hc Hc'. rewrite Hc. cbv zeta. unfold load_model_locked.
    set (locked := meanwhile _) in *.
    change (g_cancellable_is_cancelled
              (upd (set_current_operation NULL) locked) (cancellable status))
      with (g_cancellable_is_cancelled locked (cancellable status)).
    rewrite Hc'. unfold load_model_clean.
    rewrite g_cancellable_cancel_cancelled by exact Hc'.
    since. repeat split.
Qed.

End Loader.

(** The load is cancelled by a deactivation while the model is built. *)
Lemma cancelled_load_is_not_installed_witness :
  recognizer
    (vosk (@gst_vosk_load_model_async final_engine
             gst_vosk_cancel_model_loading loading_request loading_world))
  = NULL.
Proof.
  destruct (@cancelled_load_is_not_installed final_engine
              gst_vosk_cancel_model_loading loading_request loading_world)
    as (_ & H).
  destruct H as (_ & _ & Hrec & _).
  - reflexivity.
  - reflexivity.
  - rewrite Hrec. reflexivity.
Defined.

(** The same load, left alone, installs a recogniser. *)
Example uncancelled_load_installs :
  let w' := @gst_vosk_load_model_async final_engine (fun w => w)
              loading_request loading_world in
  recognizer (vosk w') = 1%nat /\
  filter is_install (events_since loading_world w')
  = [Call_vosk_recognizer_new 1%nat 16000 1%nat].
Proof. vm_compute. split; reflexivity. Qed.

(** ** The partial-results-interval property *)

Lemma to_gint64_in_range (x : Z) :
  G_MININT64 <= x <= G_MAXINT64 -> to_gint64 x = x.
Proof.
  unfold to_gint64, G_MININT64, G_MAXINT64, two64. intros H.
  destruct (Z_lt_le_dec x 0) as [Hn|Hp].
  - replace (x mod 2 ^ 64) with (x + 2 ^ 64).
    + destruct (x + 2 ^ 64 <? 2 ^ 63) eqn:E; [apply Z.ltb_lt in E|]; lia.
    + apply Z.mod_unique with (q := -1); lia.
  - rewrite Z.mod_small by lia.
    destruct (x <? 2 ^ 63) eqn:E; [reflexivity|apply Z.ltb_ge in E; lia].
Qed.

(** Between timestamps below [2 ^ 63] the clock difference is the plain
    one. *)
Lemma GST_CLOCK_DIFF_exact (s e : Z) :
  0 <= s <= G_MAXINT64 -> 0 <= e <= G_MAXINT64 -> GST_CLOCK_DIFF s e = e - s.
Proof.
  intros Hs He. unfold GST_CLOCK_DIFF. apply to_gint64_in_range.
  unfold G_MININT64, G_MAXINT64 in *. lia.
Qed.

(** Up to [MAX_INTERVAL_MS] the value set is the value read. *)
Lemma partial_results_interval_roundtrip {ext : Externals} (w : World) (ms : Z) :
  -1 <= ms <= MAX_INTERVAL_MS ->
  get_partial_results_interval (set_partial_results_interval w ms) = GInt64 ms.
Proof.
  intros H. unfold get_partial_results_interval, set_partial_results_interval.
  cbn. f_equal.
  rewrite to_gint64_in_range.
  - apply Z.quot_mul. discriminate.
  - unfold MAX_INTERVAL_MS, G_MAXINT64, G_MININT64, GST_MSECOND, GST_SECOND in *.
    change (1000000000 / 1000) with 1000000 in *.
    change ((2 ^ 63 - 1) / 1000000) with 9223372036854 in H. lia.
Qed.

(** No [gint64] divided by one million gives a value above
    [MAX_INTERVAL_MS]: whatever the overflowing product leaves in the field,
    such a value cannot be read back. *)
Lemma partial_results_interval_unrepresentable {ext : Externals} (w : World)
  (stored ms : Z) :
  G_MININT64 <= stored <= G_MAXINT64 ->
  MAX_INTERVAL_MS < ms ->
  get_partial_results_interval (upd (set_partial_time_interval stored) w)
  <> GInt64 ms.
Proof.
  intros Hs Hms. unfold get_partial_results_interval. cbn.
  intros [= E].
  assert (Hq : Z.quot stored GST_MSECOND <= Z.quot G_MAXINT64 GST_MSECOND).
  { apply Z.quot_le_mono; [reflexivity|apply Hs]. }
  change (Z.quot G_MAXINT64 GST_MSECOND) with 9223372036854 in Hq.
  change MAX_INTERVAL_MS with 9223372036854 in Hms.
  change GST_MSECOND with 1000000 in *. lia.
Qed.

(** C10 at the top of the accepted range.  Setting the property to
    [G_MAXINT64], which its declaration accepts, stores [-1000000] with the
    product wrapping around, and the property then reads [-1]: the value set
    is lost and partial results are switched off. *)
Theorem partial_results_interval_overflow {ext : Externals} (w : World) :
  partial_time_interval (vosk (set_partial_results_interval w G_MAXINT64))
  = -1000000 /\
  get_partial_results_interval (set_partial_results_interval w G_MAXINT64)
  = GInt64 (-1).
Proof. split; reflexivity. Qed.

(** * Further properties *)

(** ** Sample conversion *)

Lemma CLAMP_in_range (x : Q) :
  (-32768 <= CLAMP x (-32768) 32767 <= 32767)%Q.
Proof.
  unfold CLAMP.
  destruct (Qle_bool x 32767) eqn:Hhigh; cbn [negb].
  - destruct (Qle_bool (-32768) x) eqn:Hlow; cbn [negb].
    + apply Qle_bool_iff in Hhigh, Hlow. split; assumption.
    + split; [apply Qle_refl|]. unfold Qle. cbn. lia.
  - split; [|apply Qle_refl]. unfold Qle. cbn. lia.
Qed.

Lemma gint16_of_gfloat_in_range (x : Q) :
  (-32768 <= x <= 32767)%Q -> is_gint16 (gint16_of_gfloat x).
Proof.
  destruct x as [n d]. unfold Qle, is_gint16, gint16_of_gfloat.
  cbn [Qnum Qden]. intros [Hlow Hhigh].
  assert (Hd : 0 < Z.pos d) by lia.
  pose proof (Z.quot_le_mono (-32768 * Z.pos d) n (Z.pos d) Hd) as Hl.
  pose proof (Z.quot_le_mono n (32767 * Z.pos d) (Z.pos d) Hd) as Hh.
  rewrite Z.quot_mul in Hl, Hh by lia.
  split; [apply Hl|apply Hh]; lia.
Qed.

(** X1.  Whatever the noise suppression leaves in a frame, the samples
    written back to the buffer fit a [gint16]: the conversion clamps before
    it casts. *)
Theorem gst_vosk_convert_float_to_s16_in_range (input : list Q) :
  Forall is_gint16 (gst_vosk_convert_float_to_s16 input) /\
  length (gst_vosk_convert_float_to_s16 input) = length input.
Proof.
  unfold gst_vosk_convert_float_to_s16. split; [|apply length_map].
  apply Forall_map, Forall_forall. intros x _.
  apply gint16_of_gfloat_in_range, CLAMP_in_range.
Qed.

(** X2.  Converting [gint16] samples to float and back gives the samples
    again. *)
Theorem gst_vosk_convert_roundtrip (input : list Z) :
  Forall is_gint16 input ->
  gst_vosk_convert_float_to_s16 (gst_vosk_convert_s16_to_float input) = input.
Proof.
  unfold gst_vosk_convert_float_to_s16, gst_vosk_convert_s16_to_float.
  rewrite map_map. induction 1 as [|z l Hz _ IH]; [reflexivity|].
  cbn [map]. rewrite IH. f_equal.
  unfold is_gint16 in Hz. unfold CLAMP.
  assert (Hhigh : Qle_bool (inject_Z z) 32767 = true)
    by (apply Qle_bool_iff; unfold Qle; cbn; lia).
  assert (Hlow : Qle_bool (-32768) (inject_Z z) = true)
    by (apply Qle_bool_iff; unfold Qle; cbn; lia).
  rewrite Hhigh, Hlow. cbn [negb].
  unfold gint16_of_gfloat. cbn. apply Z.quot_1_r.
Qed.

Lemma gst_vosk_convert_roundtrip_witness :
  gst_vosk_convert_float_to_s16
    (gst_vosk_convert_s16_to_float [-32768; -1; 0; 7; 32767])
  = [-32768; -1; 0; 7; 32767].
Proof.
  apply gst_vosk_convert_roundtrip.
  repeat constructor; unfold is_gint16; lia.
Defined.

(** ** Setting up and bypassing the denoise step *)

Section DenoiseSetup.

Context {ext : Externals}.

(** X3.  [gst_vosk_init_denoise] does nothing and reports success when
    denoising is disabled or already set up; it does nothing and reports
    failure while the sink pad has no rate.  Otherwise it destroys the old
    RNNoise state, if there is one, and creates a new one: if that fails it
    reports failure and the step stays uninitialised; if it succeeds both
    buffers are two frames of zeros, both positions are zero and the step is
    initialised.  The rest of the element is never touched. *)
Theorem gst_vosk_init_denoise_outcomes (w : World) :
  let w' := fst (gst_vosk_init_denoise w) in
  let ok := snd (gst_vosk_init_denoise w) in
  let v := vosk w in
  let v' := vosk w' in
  outside_denoise v' = outside_denoise v /\
  (enable_denoise v = false \/ denoise_initialized v = true ->
   w' = w /\ ok = true) /\
  (enable_denoise v = true -> denoise_initialized v = false ->
   gst_vosk_get_rate v <= 0 ->
   w' = w /\ ok = false) /\
  (enable_denoise v = true -> denoise_initialized v = false ->
   0 < gst_vosk_get_rate v ->
   events_since w w'
   = (if is_null (denoise_state v) then []
      else [Call_rnnoise_destroy (denoise_state v)])
     ++ [Call_rnnoise_create (denoise_state v')] /\
   (denoise_state v' = NULL ->
    ok = false /\ denoise_initialized v' = false) /\
   (denoise_state v' <> NULL ->
    ok = true /\ denoise_initialized v' = true /\
    denoise_buffer_size v' = (2 * RNNOISE_FRAME_SIZE)%nat /\
    denoise_input_buffer v'
    = Some (repeat 0%Q (2 * RNNOISE_FRAME_SIZE)) /\
    denoise_output_buffer v'
    = Some (repeat 0%Q (2 * RNNOISE_FRAME_SIZE)) /\
    denoise_buffer_pos v' = 0%nat /\
    denoise_output_pos v' = 0%nat)).
Proof.
  cbv zeta. unfold gst_vosk_init_denoise.
  destruct (enable_denoise (vosk w)) eqn:Hen;
    destruct (denoise_initialized (vosk w)) eqn:Hinit; cbn [negb orb fst snd];
    try (repeat split; intros; try discriminate; try reflexivity;
         match goal with H : _ \/ _ |- _ => destruct H; discriminate end).
  destruct (gst_vosk_get_rate (vosk w) <=? 0) eqn:Hrate; cbn [fst snd].
  - apply Z.leb_le in Hrate.
    repeat split; intros; try lia;
      match goal with H : _ \/ _ |- _ => destruct H; discriminate end.
  - apply Z.leb_gt in Hrate. cbv zeta.
    destruct (is_null (denoise_state (vosk w))) eqn:Hold;
      cbn [vosk upd emit trace];
      match goal with
      | |- context [is_null (rnnoise_create ?t)] =>
        set (st := rnnoise_create t);
        destruct (is_null st) eqn:Hst
      end;
      cbn [fst snd]; since;
      (split; [reflexivity|]);
      (split; [intros [H|H]; discriminate|]);
      (split; [intros; lia|]);
      intros _ _ _; (split; [reflexivity|]); cbn;
      unfold is_null in Hst;
      [apply Nat.eqb_eq in Hst|apply Nat.eqb_neq in Hst
      |apply Nat.eqb_eq in Hst|apply Nat.eqb_neq in Hst];
      (split; [intros Hn|intros Hn]);
      try contradiction; repeat split; try reflexivity;
      try assumption; try (exfalso; apply Hn; exact Hst).
Qed.

Lemma gst_vosk_apply_denoise_off (w : World) (s16 : list Z) :
  enable_denoise (vosk w) = false \/ denoise_initialized (vosk w) = false
  \/ rate (vosk w) <> 48000 ->
  gst_vosk_apply_denoise w s16 = (w, s16).
Proof.
  unfold gst_vosk_apply_denoise. intros [H|[H|H]].
  - now rewrite H.
  - rewrite H. now rewrite orb_true_r.
  - apply Z.eqb_neq in H. rewrite H. cbn [negb].
    now destruct (_ || _).
Qed.

(** X4.  The denoise step is the identity while denoising is disabled, not
    set up, or the rate is not 48000 Hz; in particular it is the identity
    after the [enable-denoise] property was written, whatever the value,
    since that marks the step as not set up. *)
Theorem gst_vosk_apply_denoise_bypass (w : World) (s16 : list Z) :
  (enable_denoise (vosk w) = false \/ denoise_initialized (vosk w) = false
   \/ rate (vosk w) <> 48000 ->
   gst_vosk_apply_denoise w s16 = (w, s16)) /\
  (forall (s : GstState) (x : GValue),
      let w' := gst_vosk_set_property s w PROP_ENABLE_DENOISE x in
      enable_denoise (vosk w') = g_value_get_boolean x /\
      gst_vosk_apply_denoise w' s16 = (w', s16)).
Proof.
  split.
  - apply gst_vosk_apply_denoise_off.
  - intros s x. cbv zeta. split; [reflexivity|].
    unfold gst_vosk_apply_denoise. cbn. now rewrite orb_true_r.
Qed.

End DenoiseSetup.

Lemma gst_vosk_init_denoise_outcomes_witness :
  denoise_initialized
    (vosk (fst (@gst_vosk_init_denoise final_engine caps_world))) = true.
Proof.
  destruct (@gst_vosk_init_denoise_outcomes final_engine caps_world)
    as (_ & _ & _ & H).
  destruct H as (_ & _ & H); [reflexivity|reflexivity|reflexivity|].
  destruct H as (_ & Hinit & _); [vm_compute; lia|exact Hinit].
Defined.

Lemma gst_vosk_apply_denoise_bypass_witness :
  @gst_vosk_apply_denoise final_engine (world_of ready_vosk) [1; 2; 3]
  = (world_of ready_vosk, [1; 2; 3]).
Proof.
  destruct (@gst_vosk_apply_denoise_bypass final_engine (world_of ready_vosk)
              [1; 2; 3]) as (H & _).
  apply H. left. reflexivity.
Defined.

(** ** What the denoise step does to the audio *)

Lemma frames_of_app (a b : list Event) :
  frames_of (a ++ b) = frames_of a ++ frames_of b.
Proof. unfold frames_of. apply flat_map_app. Qed.

Lemma skipn_repeat {A} (x : A) (n m : nat) :
  skipn n (repeat x m) = repeat x (m - n).
Proof.
  revert n. induction m as [|m IH]; intros [|n]; cbn; try reflexivity.
  apply IH.
Qed.

Lemma array_read_nothing {A} (a : option (list A)) (off : nat) :
  array_read a off 0 = [].
Proof. destruct a; reflexivity. Qed.

Section DenoiseAudio.

Context {ext : Externals}.

Lemma denoise_full_frame_frames (w : World) :
  denoise_buffers_ok (vosk w) ->
  denoise_initialized (vosk w) = true ->
  exists evs,
    trace (denoise_full_frame w) = trace w ++ evs /\
    frames_of evs
    = [array_read (denoise_input_buffer (vosk w)) 0 RNNOISE_FRAME_SIZE] /\
    frames_run evs = 1%nat /\
    (denoise_output_pos (vosk (denoise_full_frame w))
     <= denoise_output_pos (vosk w) + RNNOISE_FRAME_SIZE)%nat.
Proof.
  intros (Hst & (ib & Hib & Lib) & (ob & Hob & Lob) & Hsize & Hopos) Hinit.
  unfold denoise_full_frame, gst_vosk_process_denoise_frame.
  apply Nat.eqb_neq in Hst. unfold is_null. rewrite Hst, Hinit.
  cbn [orb negb]. cbn.
  destruct (_ <=? _)%nat; cbn.
  - eexists. split; [reflexivity|]. repeat split. lia.
  - eexists. split; [now rewrite <- app_assoc|]. repeat split. lia.
Qed.

Lemma accumulate_turn_frames (w : World) (s16 : list Z) (read : nat) :
  denoise_wf (vosk w) ->
  denoise_initialized (vosk w) = true ->
  (read < length s16)%nat ->
  let w2 := fst (accumulate_turn w s16 read) in
  let read2 := snd (accumulate_turn w s16 read) in
  exists evs,
    trace w2 = trace w ++ evs /\
    List.concat (frames_of evs) ++ pending_samples (vosk w2)
    = pending_samples (vosk w)
      ++ gst_vosk_convert_s16_to_float
           (firstn (read2 - read) (skipn read s16)) /\
    Forall (fun f => length f = RNNOISE_FRAME_SIZE) (frames_of evs) /\
    (denoise_output_pos (vosk w2)
     <= denoise_output_pos (vosk w) + RNNOISE_FRAME_SIZE * frames_run evs)%nat.
Proof.
  intros ((Hst & (ib & Hib & Lib) & (ob & Hob & Lob) & Hsize & Hopos) & Hpos)
         Hinit Hread.
  cbv zeta. unfold accumulate_turn. cbv zeta. cbn [fst snd].
  set (to_copy := Nat.min _ _).
  assert (Htc : (1 <= to_copy <= length s16 - read
                 /\ denoise_buffer_pos (vosk w) + to_copy
                    <= RNNOISE_FRAME_SIZE)%nat)
    by (unfold to_copy; lia).
  replace (read + to_copy - read)%nat with to_copy by lia.
  set (src := gst_vosk_convert_s16_to_float _).
  assert (Lsrc : length src = to_copy).
  { unfold src, gst_vosk_convert_s16_to_float.
    rewrite length_map, length_firstn, length_skipn. lia. }
  set (w1 := upd (set_denoise_buffer_pos _) (upd _ w)).
  assert (Hok1 : denoise_buffers_ok (vosk w1)).
  { unfold w1, denoise_buffers_ok. cbn. rewrite Hib, Hob. cbn.
    split; [exact Hst|].
    split; [eexists; split; [reflexivity|]|].
    { rewrite length_array_write; [exact Lib|lia]. }
    split; [eexists; split; [reflexivity|exact Lob]|].
    split; assumption. }
  assert (Hpend : array_read (denoise_input_buffer (vosk w1)) 0
                    (denoise_buffer_pos (vosk w) + to_copy)
                  = pending_samples (vosk w) ++ src).
  { unfold w1, pending_samples. cbn. rewrite Hib. cbn.
    rewrite <- Lsrc at 1. apply firstn_array_write. lia. }
  destruct (_ =? _)%nat eqn:Hfull.
  - apply Nat.eqb_eq in Hfull. cbn in Hfull.
    destruct (denoise_full_frame_frames w1 Hok1 Hinit)
      as (evs & Htr & Hfr & Hrun & Hop).
    exists evs. split; [exact Htr|].
    rewrite Hfr, Hrun. cbn [List.concat]. rewrite app_nil_r.
    rewrite <- Hfull, Hpend.
    split.
    + destruct (denoise_full_frame_spec w1 Hok1 Hinit) as (_ & Hp0 & _).
      assert (Hnil : pending_samples (vosk (denoise_full_frame w1)) = []).
      { unfold pending_samples. rewrite Hp0.
        apply array_read_nothing. }
      rewrite Hnil. apply app_nil_r.
    + split; [|change (denoise_output_pos (vosk w1))
                 with (denoise_output_pos (vosk w)) in Hop; lia].
      constructor; [|constructor].
      rewrite length_app, Lsrc. unfold pending_samples. rewrite Hib. cbn.
      rewrite length_firstn. lia.
  - apply Nat.eqb_neq in Hfull. cbn in Hfull.
    exists []. split; [now rewrite app_nil_r|].
    split; [exact Hpend|]. split; [constructor|cbn; lia].
Qed.

Lemma denoise_accumulate_frames (s16 : list Z) (fuel : nat) :
  forall (w : World) (read : nat) (w' : World),
    denoise_wf (vosk w) ->
    denoise_initialized (vosk w) = true ->
    (read <= length s16)%nat ->
    denoise_accumulate fuel w s16 read = Some w' ->
    exists evs,
      trace w' = trace w ++ evs /\
      List.concat (frames_of evs) ++ pending_samples (vosk w')
      = pending_samples (vosk w)
        ++ gst_vosk_convert_s16_to_float (skipn read s16) /\
      Forall (fun f => length f = RNNOISE_FRAME_SIZE) (frames_of evs) /\
      (denoise_output_pos (vosk w')
       <= denoise_output_pos (vosk w)
          + RNNOISE_FRAME_SIZE * frames_run evs)%nat.
Proof.
  assert (Hstop : forall (w : World) (read : nat),
             (length s16 <= read)%nat ->
             exists evs,
               trace w = trace w ++ evs /\
               List.concat (frames_of evs) ++ pending_samples (vosk w)
               = pending_samples (vosk w)
                 ++ gst_vosk_convert_s16_to_float (skipn read s16) /\
               Forall (fun f => length f = RNNOISE_FRAME_SIZE)
                 (frames_of evs) /\
               (denoise_output_pos (vosk w)
                <= denoise_output_pos (vosk w)
                   + RNNOISE_FRAME_SIZE * frames_run evs)%nat).
  { intros w read Hle. exists []. rewrite skipn_all2 by exact Hle.
    cbn. rewrite !app_nil_r. repeat split; [constructor|lia]. }
  induction fuel as [|fuel IH]; intros w read w' Hwf Hinit Hread.
  - cbn [denoise_accumulate].
    destruct (length s16 <=? read)%nat eqn:Hdone; [|discriminate].
    intros [= <-]. apply Hstop. now apply Nat.leb_le.
  - rewrite accumulate_unfold.
    destruct (length s16 <=? read)%nat eqn:Hdone.
    + intros [= <-]. apply Hstop. now apply Nat.leb_le.
    + apply Nat.leb_gt in Hdone.
      destruct (accumulate_turn_spec w s16 read Hwf Hinit Hdone)
        as (Hwf2 & Hinit2 & _ & _ & Hr2 & _).
      destruct (accumulate_turn_frames w s16 read Hwf Hinit Hdone)
        as (evs1 & Ht1 & Hc1 & Hl1 & Ho1).
      destruct (accumulate_turn w s16 read) as [w2 read2].
      cbn [fst snd] in *. intros Hacc.
      destruct (IH w2 read2 w' Hwf2 Hinit2 ltac:(lia) Hacc)
        as (evs2 & Ht2 & Hc2 & Hl2 & Ho2).
      exists (evs1 ++ evs2).
      split; [now rewrite Ht2, Ht1, app_assoc|].
      rewrite frames_of_app, concat_app, frames_run_app.
      split; [|split; [now apply Forall_app|lia]].
      rewrite <- app_assoc, Hc2, app_assoc, Hc1, <- app_assoc.
      f_equal. unfold gst_vosk_convert_s16_to_float.
      rewrite <- map_app. f_equal.
      rewrite <- (firstn_skipn (read2 - read) (skipn read s16)) at 2.
      f_equal. rewrite skipn_skipn. f_equal. lia.
Qed.

Lemma gst_vosk_apply_denoise_active (w wa : World) (s16 : list Z) :
  denoise_active (vosk w) ->
  denoise_accumulate (length s16) w s16 0 = Some wa ->
  gst_vosk_apply_denoise w s16 = denoise_drain wa s16.
Proof.
  intros (Hen & Hinit & Hrate) Hacc. unfold gst_vosk_apply_denoise.
  now rewrite Hen, Hinit, Hrate, Hacc.
Qed.

Lemma denoise_drain_input (w : World) (s16 : list Z) :
  denoise_input_buffer (vosk (fst (denoise_drain w s16)))
  = denoise_input_buffer (vosk w).
Proof.
  unfold denoise_drain. cbv zeta.
  repeat match goal with
         | |- context [if ?c then _ else _] => destruct c
         end; reflexivity.
Qed.

(** What one denoise step does, seen from the buffer it accumulated. *)
Lemma gst_vosk_apply_denoise_audio (w : World) (s16 : list Z) :
  denoise_active (vosk w) ->
  denoise_wf (vosk w) ->
  let w' := fst (gst_vosk_apply_denoise w s16) in
  let evs := events_since w w' in
  let n := Nat.min (denoise_output_pos (vosk w)
                    + RNNOISE_FRAME_SIZE * frames_run evs)
                   (denoise_buffer_size (vosk w)) in
  List.concat (frames_of evs) ++ pending_samples (vosk w')
  = pending_samples (vosk w) ++ gst_vosk_convert_s16_to_float s16 /\
  Forall (fun f => length f = RNNOISE_FRAME_SIZE) (frames_of evs) /\
  (RNNOISE_FRAME_SIZE * frames_run evs + denoise_buffer_pos (vosk w')
   = denoise_buffer_pos (vosk w) + length s16)%nat /\
  length (snd (gst_vosk_apply_denoise w s16)) = length s16 /\
  skipn n (snd (gst_vosk_apply_denoise w s16)) = repeat 0 (length s16 - n) /\
  denoise_buffer_size (vosk w') = denoise_buffer_size (vosk w).
Proof.
  intros Hact Hwf. cbv zeta.
  destruct (gst_vosk_apply_denoise_spec w s16 Hact Hwf)
    as (wa & evs & added & Hacc & Hoka & Hsza & _ & Htr & Hfr & _ & _ & Hsz'
        & Hs & _).
  rewrite (events_since_app _ _ _ Htr).
  destruct (denoise_accumulate_frames s16 (length s16) w 0%nat wa Hwf
              ltac:(apply Hact) ltac:(lia) Hacc)
    as (evs' & Htr' & Hcons & Hlen & Hop).
  pose proof (gst_vosk_apply_denoise_active w wa s16 Hact Hacc) as Heq.
  destruct (denoise_drain_spec wa s16 Hoka)
    as (_ & _ & _ & _ & Hpos' & _ & _ & _ & Htra).
  assert (evs' = evs) as ->.
  { apply (app_inv_head (trace w)). rewrite <- Htr', <- Htr, Heq.
    symmetry. exact Htra. }
  assert (Hpend : pending_samples (vosk (fst (gst_vosk_apply_denoise w s16)))
                  = pending_samples (vosk wa)).
  { unfold pending_samples. rewrite Heq, denoise_drain_input, Hpos'.
    reflexivity. }
  rewrite Hpend. cbn [skipn] in Hcons.
  split; [exact Hcons|]. split; [exact Hlen|]. split; [exact Hfr|].
  pose proof (output_queue_length (vosk wa) Hoka) as Lq.
  assert (Hopa : (denoise_output_pos (vosk wa)
                  <= denoise_buffer_size (vosk w))%nat)
    by (rewrite <- Hsza; apply Hoka).
  set (k := Nat.min (denoise_output_pos (vosk wa)) (length s16)) in *.
  assert (Lconv : length (gst_vosk_convert_float_to_s16
                            (firstn k (output_queue (vosk wa)))) = k).
  { unfold gst_vosk_convert_float_to_s16.
    rewrite length_map, length_firstn. unfold k. lia. }
  rewrite Hs.
  split; [rewrite length_app, Lconv, repeat_length; unfold k; lia|].
  split; [|exact Hsz'].
  rewrite skipn_app, Lconv, skipn_repeat.
  rewrite skipn_all2 by (rewrite Lconv; unfold k; lia).
  cbn [app]. f_equal. unfold k. lia.
Qed.

End DenoiseAudio.

(** ** The clean samples of the frame adapter *)

Lemma Forall2_map_r {A B} (R : A -> B -> Prop) (f : A -> B) (l : list A) :
  (forall x, R x (f x)) -> Forall2 R l (map f l).
Proof. intros H. induction l; cbn; constructor; auto. Qed.

Lemma clean_sample_of_cast (x : Q) :
  clean_sample_of x (gint16_of_gfloat (CLAMP x (-32768) 32767)).
Proof.
  unfold clean_sample_of, CLAMP.
  destruct (Qle_bool x 32767) eqn:Hhi; cbn [negb].
  - apply Qle_bool_iff in Hhi.
    destruct (Qle_bool (-32768) x) eqn:Hlo; cbn [negb].
    + apply Qle_bool_iff in Hlo.
      split; [intros H; exfalso; apply (Qlt_not_le _ _ H Hhi)|].
      split; [intros H; exfalso; apply (Qlt_not_le _ _ H Hlo)|].
      intros _. unfold gint16_of_gfloat.
      destruct x as [n d]. cbn [Qnum Qden].
      unfold Qle, Qlt. cbn [Qnum Qden inject_Z].
      rewrite !Z.mul_1_r.
      split; intros Hs.
      * assert (Hn : 0 <= n) by lia.
        rewrite Z.quot_div_nonneg by lia.
        pose proof (Z.mul_div_le n (Zpos d) ltac:(lia)).
        pose proof (Z.mul_succ_div_gt n (Zpos d) ltac:(lia)).
        nia.
      * assert (Hn : n <= 0) by lia.
        replace n with (- (- n)) by lia.
        rewrite Z.quot_opp_l by lia.
        rewrite Z.quot_div_nonneg by lia.
        pose proof (Z.mul_div_le (- n) (Zpos d) ltac:(lia)).
        pose proof (Z.mul_succ_div_gt (- n) (Zpos d) ltac:(lia)).
        nia.
    + assert (Hlt : (x < -32768)%Q).
      { apply Qnot_le_lt. intros H. apply Qle_bool_iff in H. congruence. }
      split; [intros H; exfalso; apply (Qlt_not_le _ _ H Hhi)|].
      split; [reflexivity|].
      intros [H _]. exfalso. apply (Qlt_not_le _ _ Hlt H).
  - assert (Hlt : (32767 < x)%Q).
    { apply Qnot_le_lt. intros H. apply Qle_bool_iff in H. congruence. }
    split; [reflexivity|].
    split; [intros H; exfalso;
            apply (Qlt_irrefl x), (Qlt_trans _ (-32768)); [exact H|];
            apply (Qlt_trans _ 32767); [reflexivity|exact Hlt]|].
    intros [_ H]. exfalso. apply (Qlt_not_le _ _ Hlt H).
Qed.

Section CleanSamples.

Context {ext : Externals}.

Lemma clean_frames_app (a b : list Event) :
  forall (hist : list Event) (acc : list (list Q)),
    clean_frames hist (a ++ b) acc
    = clean_frames (hist ++ a) b (clean_frames hist a acc).
Proof.
  induction a as [|e a IH]; intros hist acc; cbn [app clean_frames].
  - now rewrite app_nil_r.
  - rewrite IH, <- app_assoc. reflexivity.
Qed.

Lemma denoise_full_frame_clean (w : World) :
  denoise_buffers_ok (vosk w) ->
  denoise_initialized (vosk w) = true ->
  exists evs frames,
    trace (denoise_full_frame w) = trace w ++ evs /\
    (forall acc, clean_frames (trace w) evs acc = acc ++ frames) /\
    output_queue (vosk (denoise_full_frame w))
    = output_queue (vosk w) ++ List.concat frames.
Proof.
  intros (Hst & (ib & Hib & Lib) & (ob & Hob & Lob) & Hsize & Hopos) Hinit.
  unfold denoise_full_frame, gst_vosk_process_denoise_frame.
  apply Nat.eqb_neq in Hst. unfold is_null. rewrite Hst, Hinit.
  cbn [orb negb]. unfold output_queue.
  rewrite Hib.
  set (out := map _ (seq 0 RNNOISE_FRAME_SIZE)).
  assert (Lout : length out = RNNOISE_FRAME_SIZE)
    by (unfold out; now rewrite length_map, length_seq).
  assert (HF : firstn RNNOISE_FRAME_SIZE (out ++ skipn (length out) ib) = out).
  { rewrite <- Lout at 1.
    now rewrite firstn_app, Nat.sub_diag, firstn_O, app_nil_r, firstn_all. }
  cbn. rewrite Hob.
  destruct (_ <=? _)%nat eqn:Hfit; cbn; rewrite ?Hob, ?Hib; cbn; rewrite ?HF.
  - apply Nat.leb_le in Hfit.
    exists [Call_rnnoise_process_frame (denoise_state (vosk w))
              (firstn RNNOISE_FRAME_SIZE ib)], [out].
    split; [reflexivity|]. split; [reflexivity|].
    cbn [List.concat]. rewrite app_nil_r.
    rewrite <- Lout at 1. apply firstn_array_write. lia.
  - exists [Call_rnnoise_process_frame (denoise_state (vosk w))
              (firstn RNNOISE_FRAME_SIZE ib); Warning_frame_dropped], [].
    split; [now rewrite <- app_assoc|].
    split; [|cbn [List.concat]; now rewrite app_nil_r].
    intros acc. cbn [clean_frames]. rewrite removelast_last.
    now rewrite app_nil_r.
Qed.

Lemma accumulate_turn_clean (w : World) (s16 : list Z) (read : nat) :
  denoise_wf (vosk w) ->
  denoise_initialized (vosk w) = true ->
  (read < length s16)%nat ->
  let w2 := fst (accumulate_turn w s16 read) in
  exists evs frames,
    trace w2 = trace w ++ evs /\
    (forall acc, clean_frames (trace w) evs acc = acc ++ frames) /\
    output_queue (vosk w2) = output_queue (vosk w) ++ List.concat frames.
Proof.
  intros ((Hst & (ib & Hib & Lib) & (ob & Hob & Lob) & Hsize & Hopos) & Hpos)
         Hinit Hread.
  cbv zeta. unfold accumulate_turn. cbv zeta. cbn [fst snd].
  set (to_copy := Nat.min _ _).
  assert (Htc : (1 <= to_copy <= length s16 - read
                 /\ denoise_buffer_pos (vosk w) + to_copy
                    <= RNNOISE_FRAME_SIZE)%nat)
    by (unfold to_copy; lia).
  set (src := gst_vosk_convert_s16_to_float _).
  assert (Lsrc : length src = to_copy).
  { unfold src, gst_vosk_convert_s16_to_float.
    rewrite length_map, length_firstn, length_skipn. lia. }
  set (w1 := upd (set_denoise_buffer_pos _) (upd _ w)).
  assert (Hok1 : denoise_buffers_ok (vosk w1)).
  { unfold w1, denoise_buffers_ok. cbn. rewrite Hib, Hob. cbn.
    split; [exact Hst|].
    split; [eexists; split; [reflexivity|]|].
    { rewrite length_array_write; [exact Lib|lia]. }
    split; [eexists; split; [reflexivity|exact Lob]|].
    split; assumption. }
  destruct (_ =? _)%nat.
  - destruct (denoise_full_frame_clean w1 Hok1 Hinit)
      as (evs & frames & Htr & Hcl & Hq).
    exists evs, frames. split; [exact Htr|]. split; [exact Hcl|exact Hq].
  - exists [], []. cbn [List.concat]. rewrite !app_nil_r.
    split; [reflexivity|]. split; [|reflexivity].
    intros acc. cbn [clean_frames]. now rewrite app_nil_r.
Qed.

Lemma denoise_accumulate_clean (s16 : list Z) (fuel : nat) :
  forall (w : World) (read : nat) (w' : World),
    denoise_wf (vosk w) ->
    denoise_initialized (vosk w) = true ->
    (read <= length s16)%nat ->
    denoise_accumulate fuel w s16 read = Some w' ->
    exists evs frames,
      trace w' = trace w ++ evs /\
      (forall acc, clean_frames (trace w) evs acc = acc ++ frames) /\
      output_queue (vosk w') = output_queue (vosk w) ++ List.concat frames.
Proof.
  assert (Hstop : forall w : World,
             exists evs frames,
               trace w = trace w ++ evs /\
               (forall acc, clean_frames (trace w) evs acc = acc ++ frames) /\
               output_queue (vosk w)
               = output_queue (vosk w) ++ List.concat frames).
  { intros w. exists [], []. cbn [List.concat]. rewrite !app_nil_r.
    split; [reflexivity|]. split; [|reflexivity].
    intros acc. cbn [clean_frames]. now rewrite app_nil_r. }
  induction fuel as [|fuel IH]; intros w read w' Hwf Hinit Hread.
  - cbn [denoise_accumulate].
    destruct (length s16 <=? read)%nat; [|discriminate].
    intros [= <-]. apply Hstop.
  - rewrite accumulate_unfold.
    destruct (length s16 <=? read)%nat eqn:Hdone.
    + intros [= <-]. apply Hstop.
    + apply Nat.leb_gt in Hdone.
      destruct (accumulate_turn_spec w s16 read Hwf Hinit Hdone)
        as (Hwf2 & Hinit2 & _ & _ & Hr2 & _).
      destruct (accumulate_turn_clean w s16 read Hwf Hinit Hdone)
        as (evs1 & fr1 & Ht1 & Hc1 & Hq1).
      destruct (accumulate_turn w s16 read) as [w2 read2].
      cbn [fst snd] in *. intros Hacc.
      destruct (IH w2 read2 w' Hwf2 Hinit2 ltac:(lia) Hacc)
        as (evs2 & fr2 & Ht2 & Hc2 & Hq2).
      exists (evs1 ++ evs2), (fr1 ++ fr2).
      split; [now rewrite Ht2, Ht1, app_assoc|].
      split.
      * intros acc. rewrite clean_frames_app, Hc1, <- Ht1, Hc2.
        now rewrite app_assoc.
      * rewrite Hq2, Hq1, concat_app. now rewrite app_assoc.
Qed.


End CleanSamples.


(** With a transform that leaves the frame as it is, the samples come back
    as they went in once their frame is complete: a buffer that does not
    complete a frame returns silence, and the buffer that completes it
    returns the start of the frame. *)
Example clean_samples_come_back :
  let r1 := @gst_vosk_apply_denoise final_engine streaming_world
              (map Z.of_nat (seq 1 100)) in
  let r2 := @gst_vosk_apply_denoise final_engine (fst r1)
              (map Z.of_nat (seq 101 380)) in
  snd r1 = repeat 0%Z 100%nat /\ snd r2 = map Z.of_nat (seq 1 380).
Proof. vm_compute. split; reflexivity. Qed.

(** ** Properties of the denoise fields that every step keeps *)

Section DenoiseProperty.

Context {ext : Externals}.

Variable P : GstVosk -> Prop.

Hypothesis P_fields :
  forall v v', denoise_fields v' = denoise_fields v -> P v -> P v'.
Hypothesis P_uninitialized :
  forall v, denoise_initialized v = false -> P v.
Hypothesis P_apply_denoise :
  forall w s16, P (vosk w) -> P (vosk (fst (gst_vosk_apply_denoise w s16))).
Hypothesis P_init_denoise :
  forall w, P (vosk w) -> P (vosk (fst (gst_vosk_init_denoise w))).

Lemma gst_vosk_result_fields (w : World) :
  denoise_fields (vosk (fst (gst_vosk_result w))) = denoise_fields (vosk w).
Proof. unfold gst_vosk_result. split_cases; reflexivity. Qed.

Lemma gst_vosk_handle_buffer_keeps (w : World) (buf : GstBuffer) (t : Z) :
  P (vosk w) -> P (vosk (fst (gst_vosk_handle_buffer w buf t))).
Proof.
  intros HP. rewrite gst_vosk_handle_buffer_eq.
  destruct (negb _); [exact HP|].
  destruct (_ =? _)%nat; [exact HP|].
  pose proof (P_apply_denoise w (samples buf) HP) as H.
  destruct (gst_vosk_apply_denoise w (samples buf)) as [w1 data].
  eapply P_fields; [apply recognize_buffer_denoise_fields|exact H].
Qed.

Lemma gst_vosk_recognizer_new_keeps (w : World) (model : pointer) :
  P (vosk w) -> P (vosk (fst (gst_vosk_recognizer_new w model))).
Proof.
  intros HP. unfold gst_vosk_recognizer_new. cbv zeta.
  set (w0 := upd (set_rate _) w).
  assert (H0 : P (vosk w0)) by (apply (P_fields (vosk w)); [reflexivity|exact HP]).
  destruct (_ <=? 0); [exact H0|].
  destruct (is_null model); [exact H0|].
  cbn [fst].
  destruct (enable_denoise (vosk w0)).
  - apply (P_fields (vosk (fst (gst_vosk_init_denoise w0))));
      [reflexivity|apply P_init_denoise; exact H0].
  - apply (P_fields (vosk w0)); [reflexivity|exact H0].
Qed.

Lemma load_model_locked_keeps (status : GstVoskThreadData) (model : pointer)
  (w : World) :
  P (vosk w) -> P (vosk (load_model_locked status model w)).
Proof.
  intros HP. unfold load_model_locked, load_model_clean. cbv zeta.
  assert (H0 : P (vosk (upd (set_current_operation NULL) w)))
    by (apply (P_fields (vosk w)); [reflexivity|exact HP]).
  destruct (g_cancellable_is_cancelled _ _);
    [rewrite g_cancellable_cancel_vosk; exact H0|].
  destruct (is_null model);
    [rewrite g_cancellable_cancel_vosk; exact H0|].
  rewrite g_cancellable_cancel_vosk. cbn [vosk emit].
  now apply gst_vosk_recognizer_new_keeps.
Qed.

Lemma vosk_step_keeps (w w' : World) :
  vosk_step w w' -> P (vosk w) -> P (vosk w').
Proof.
  intros Hstep HP.
  assert (Hsame : forall x : World,
             denoise_fields (vosk x) = denoise_fields (vosk w) -> P (vosk x))
    by (intros x Hx; exact (P_fields _ _ Hx HP)).
  destruct Hstep.
  - unfold gst_vosk_chain.
    destruct (negb _).
    + match goal with
      | |- context [gst_vosk_handle_buffer ?x buf t] =>
        pose proof (gst_vosk_handle_buffer_keeps x buf t) as H;
        destruct (gst_vosk_handle_buffer x buf t) as [wh bh]
      end.
      cbn [fst vosk emit] in *. apply H.
      apply Hsame. destruct (_ =? _); reflexivity.
    + cbn [fst]. apply Hsame. destruct (_ =? _); reflexivity.
  - destruct e; cbn [gst_vosk_sink_event]; try (apply Hsame; reflexivity).
    + apply Hsame. unfold gst_vosk_flush. destruct (negb _); reflexivity.
    + apply Hsame. rewrite gst_vosk_final_result_msg_fields.
      apply gst_vosk_cancel_model_loading_fields.
  - destruct p; cbn [gst_vosk_set_property];
      try (apply Hsame; reflexivity).
    + apply Hsame. unfold gst_vosk_set_model_path.
      destruct s; try reflexivity; destruct (g_strcmp0_eq _ _); reflexivity.
    + now apply P_uninitialized.
    + apply Hsame. destruct (_ =? _); [reflexivity|].
      unfold gst_vosk_set_num_alternatives.
      destruct (negb _); reflexivity.
  - destruct p; cbn [gst_vosk_get_property fst];
      try (apply Hsame; reflexivity).
    + apply Hsame. pose proof (gst_vosk_final_result_fields w) as H.
      destruct (gst_vosk_final_result w) as [w1 txt]. exact H.
    + apply Hsame. pose proof (gst_vosk_result_fields w) as H.
      destruct (gst_vosk_result w) as [w1 txt]. exact H.
  - unfold gst_vosk_change_state, gst_vosk_check_model_path.
    destruct tr; cbn [fst]; destruct parent_ok; cbn [negb fst];
      try (apply Hsame; reflexivity);
      try (apply P_uninitialized; reflexivity);
      destruct (model_path (vosk w)); cbn [fst];
      try (apply Hsame; reflexivity);
      destruct (negb _); cbn [fst]; apply Hsame; reflexivity.
  - apply Hsame. reflexivity.
  - now apply load_model_locked_keeps.
  - apply Hsame. unfold load_model_clean.
    now rewrite g_cancellable_cancel_vosk.
  - apply Hsame. reflexivity.
Qed.

Lemma reachable_keeps (w : World) : reachable w -> P (vosk w).
Proof.
  induction 1 as [|w w' _ IH Hstep].
  - now apply P_uninitialized.
  - exact (vosk_step_keeps w w' Hstep IH).
Qed.

End DenoiseProperty.

Section DenoiseReachable.

Context {ext : Externals}.

Lemma gst_vosk_init_denoise_uninitialized (w : World) :
  denoise_initialized (vosk w) = false ->
  snd (gst_vosk_init_denoise w) = false ->
  denoise_initialized (vosk (fst (gst_vosk_init_denoise w))) = false.
Proof.
  intros Hinit. unfold gst_vosk_init_denoise. rewrite Hinit, orb_false_r.
  destruct (negb _); [discriminate|].
  destruct (_ <=? 0); [intros _; exact Hinit|].
  cbv zeta. destruct (is_null (rnnoise_create _)); [|discriminate].
  intros _. destruct (is_null (denoise_state (vosk w))); exact Hinit.
Qed.

Lemma reachable_denoise_sized (w : World) :
  reachable w -> denoise_sized (vosk w).
Proof.
  apply (reachable_keeps denoise_sized).
  - intros v v' Hf [Hinv Hsz]. split; [exact (denoise_inv_fields _ _ Hf Hinv)|].
    unfold denoise_fields in Hf. injection Hf as _ E2 _ _ _ E6 _ _.
    rewrite E2, E6. exact Hsz.
  - intros v Hu. split; [now apply denoise_inv_uninitialized|congruence].
  - intros w0 s16 [Hinv Hsz].
    split; [now apply gst_vosk_apply_denoise_inv|].
    destruct (enable_denoise (vosk w0)) eqn:Hen;
      [|unfold gst_vosk_apply_denoise; now rewrite Hen].
    destruct (denoise_initialized (vosk w0)) eqn:Hinit;
      [|unfold gst_vosk_apply_denoise; rewrite Hen, Hinit; cbn; congruence].
    destruct (rate (vosk w0) =? 48000) eqn:Hrate;
      [|unfold gst_vosk_apply_denoise; rewrite Hen, Hinit, Hrate; cbn;
        intros _; now apply Hsz].
    apply Z.eqb_eq in Hrate.
    destruct (gst_vosk_apply_denoise_spec w0 s16)
      as (_ & _ & _ & _ & _ & _ & _ & _ & _ & _ & _ & Hsz' & _).
    + repeat split; assumption.
    + apply Hinv, Hinit.
    + intros _. rewrite Hsz'. now apply Hsz.
  - intros w0 [Hinv Hsz].
    split; [now apply gst_vosk_init_denoise_inv|].
    destruct (enable_denoise (vosk w0)) eqn:Hen;
      [|unfold gst_vosk_init_denoise; rewrite Hen; cbn; exact Hsz].
    destruct (denoise_initialized (vosk w0)) eqn:Hinit;
      [unfold gst_vosk_init_denoise; rewrite Hen, Hinit; cbn;
       intros _; now apply Hsz|].
    destruct (snd (gst_vosk_init_denoise w0)) eqn:Hret.
    + intros _. now apply gst_vosk_init_denoise_wf.
    + rewrite (gst_vosk_init_denoise_uninitialized w0 Hinit Hret).
      discriminate.
Qed.

(** X5.  In any world the element can be in, with denoising active, the
    frames handed to the noise suppression are the samples of the buffers in
    the order they arrived, cut every 480 samples: the samples waiting from
    before followed by the samples of the buffer are the frames run during
    the step followed by the samples left waiting.  No sample is given to the
    transform twice and none is skipped. *)
Theorem denoise_frames_are_the_input (w : World) (s16 : list Z) :
  reachable w ->
  denoise_active (vosk w) ->
  let w' := fst (gst_vosk_apply_denoise w s16) in
  let evs := events_since w w' in
  pending_samples (vosk w) ++ gst_vosk_convert_s16_to_float s16
  = List.concat (frames_of evs) ++ pending_samples (vosk w') /\
  Forall (fun frame => length frame = RNNOISE_FRAME_SIZE) (frames_of evs) /\
  (length (pending_samples (vosk w')) < RNNOISE_FRAME_SIZE)%nat.
Proof.
  intros Hreach Hact. cbv zeta.
  assert (Hwf : denoise_wf (vosk w))
    by (apply (reachable_denoise_inv w Hreach); apply Hact).
  destruct (gst_vosk_apply_denoise_audio w s16 Hact Hwf)
    as (Hcons & Hlen & _).
  split; [symmetry; exact Hcons|]. split; [exact Hlen|].
  destruct (gst_vosk_apply_denoise_spec w s16 Hact Hwf)
    as (_ & _ & _ & _ & _ & _ & _ & _ & _ & _ & Hwf' & _).
  destruct Hwf' as ((_ & (ib & Hib & Lib) & _ & Hsize & _) & Hpos).
  unfold pending_samples. rewrite Hib. cbn.
  rewrite length_firstn. lia.
Qed.

(** X6.  In any world the element can be in, with denoising active, a buffer
    comes back with as many samples as it had, and only as much of it is
    sound as the output queue can hold: everything past the first 960 samples
    is silence, and a buffer that arrives when the queue is empty and does
    not complete a frame comes back as silence only. *)
Theorem denoise_silence (w : World) (s16 : list Z) :
  reachable w ->
  denoise_active (vosk w) ->
  let out := snd (gst_vosk_apply_denoise w s16) in
  length out = length s16 /\
  skipn 960 out = repeat 0 (length s16 - 960) /\
  (denoise_output_pos (vosk w) = 0%nat ->
   (denoise_buffer_pos (vosk w) + length s16 < RNNOISE_FRAME_SIZE)%nat ->
   out = repeat 0 (length s16)).
Proof.
  intros Hreach Hact. cbv zeta.
  destruct (reachable_denoise_sized w Hreach) as [Hinv Hsz].
  assert (Hwf : denoise_wf (vosk w)) by (apply Hinv; apply Hact).
  specialize (Hsz ltac:(apply Hact)).
  destruct (gst_vosk_apply_denoise_audio w s16 Hact Hwf)
    as (_ & _ & Hfr & Hlen & Hskip & _).
  set (out := snd (gst_vosk_apply_denoise w s16)) in *.
  set (n := Nat.min _ _) in Hskip.
  split; [exact Hlen|]. split.
  - assert (Hn : (n <= 960)%nat)
      by (unfold n; rewrite Hsz; unfold RNNOISE_FRAME_SIZE; lia).
    replace 960%nat with ((960 - n) + n)%nat at 1 by lia.
    rewrite <- skipn_skipn, Hskip, skipn_repeat. f_equal. lia.
  - intros Hempty Hshort.
    assert (Hn : n = 0%nat).
    { unfold n. rewrite Hempty.
      unfold RNNOISE_FRAME_SIZE in *. lia. }
    rewrite Hn, Nat.sub_0_r in Hskip. exact Hskip.
Qed.

End DenoiseReachable.

(** ** The streaming thread *)

Section Streaming.

Context {ext : Externals}.

Lemma gst_vosk_chain_eq (w : World) (buf : GstBuffer) (t : Z) :
  gst_vosk_chain w buf t =
  let '(w1, b1) :=
    if negb (is_null (recognizer (vosk w)))
    then gst_vosk_handle_buffer (chain_baseline w buf) buf t
    else (chain_baseline w buf, buf) in
  (emit (Call_gst_pad_push (samples b1)) w1, b1).
Proof. reflexivity. Qed.

Lemma recognize_buffer_config (w : World) (buf : GstBuffer) (t : Z) :
  config_fields (vosk (fst (recognize_buffer w buf t)))
  = config_fields (vosk w).
Proof.
  unfold recognize_buffer, gst_vosk_result_msg, gst_vosk_result,
    gst_vosk_partial_result, gst_vosk_message_new.
  cbv zeta. split_cases; reflexivity.
Qed.

Lemma recognize_buffer_events_ok (w : World) (buf : GstBuffer) (t : Z) :
  forallb (engine_event_ok (vosk w))
    (events_since w (fst (recognize_buffer w buf t))) = true.
Proof.
  unfold recognize_buffer, gst_vosk_result_msg, gst_vosk_result,
    gst_vosk_partial_result, gst_vosk_message_new.
  cbv zeta. split_cases; cbn [fst]; since; cbn;
    rewrite ?Nat.eqb_refl;
    repeat match goal with
           | H : use_signals _ = _ |- _ => cbn in H; rewrite H
           end; reflexivity.
Qed.

Lemma engine_event_ok_ext (v v' : GstVosk) (evs : list Event) :
  recognizer v' = recognizer v -> use_signals v' = use_signals v ->
  forallb (engine_event_ok v') evs = forallb (engine_event_ok v) evs.
Proof.
  intros Hr Hu. induction evs as [|e evs IH]; [reflexivity|].
  cbn [forallb]. rewrite IH. f_equal.
  destruct e; cbn; rewrite ?Hr, ?Hu; reflexivity.
Qed.

(** Handling a buffer: the world after the denoise step, and what the
    recogniser part adds. *)
Lemma gst_vosk_handle_buffer_split (w : World) (buf : GstBuffer) (t : Z) :
  exists evsd rest,
    trace (fst (gst_vosk_handle_buffer w buf t)) = trace w ++ evsd ++ rest /\
    forallb is_denoise_event evsd = true /\
    forallb (engine_event_ok (vosk w)) rest = true /\
    config_fields (vosk (fst (gst_vosk_handle_buffer w buf t)))
    = config_fields (vosk w) /\
    cancellables (fst (gst_vosk_handle_buffer w buf t)) = cancellables w /\
    pts (snd (gst_vosk_handle_buffer w buf t)) = pts buf /\
    odd_byte (snd (gst_vosk_handle_buffer w buf t)) = odd_byte buf /\
    map_ok (snd (gst_vosk_handle_buffer w buf t)) = map_ok buf /\
    samples (snd (gst_vosk_handle_buffer w buf t))
    = (if negb (map_ok buf) || (info_size buf =? 0)%nat then samples buf
       else snd (gst_vosk_apply_denoise w (samples buf))).
Proof.
  rewrite gst_vosk_handle_buffer_eq.
  destruct (negb (map_ok buf)); cbn [orb];
    [exists [], []; rewrite app_nil_r; repeat split|].
  destruct (info_size buf =? 0)%nat;
    [exists [], []; rewrite app_nil_r; repeat split|].
  pose proof (gst_vosk_apply_denoise_step w (samples buf)) as Hd.
  destruct (gst_vosk_apply_denoise w (samples buf)) as [w1 data].
  cbn [fst snd] in *. destruct Hd as (Ho & Hc & evsd & Ht & Hev).
  destruct (recognize_buffer_spec w1 (set_samples data buf) t)
    as (Hb & Hc' & (rest & Ht') & _).
  pose proof (recognize_buffer_events_ok w1 (set_samples data buf) t) as Hok.
  rewrite (events_since_app _ _ _ Ht') in Hok.
  exists evsd, rest.
  split; [now rewrite Ht', Ht, app_assoc|]. split; [exact Hev|].
  unfold outside_denoise in Ho.
  split.
  { rewrite <- Hok. symmetry. apply engine_event_ok_ext; congruence. }
  split.
  { rewrite recognize_buffer_config. unfold config_fields. congruence. }
  split; [congruence|].
  rewrite Hb. repeat split.
Qed.

(** X7.  Handling a buffer never changes the caps rate, the recogniser
    handle, the model path, the bound rate, the alternatives, the delivery
    mode, the partial interval or the pending operation, and never touches a
    cancellable: only the two timestamps, the cached partial and the denoise
    buffers can change. *)
Theorem gst_vosk_chain_keeps_configuration (w : World) (buf : GstBuffer)
  (t : Z) :
  config_fields (vosk (fst (gst_vosk_chain w buf t))) = config_fields (vosk w)
  /\ cancellables (fst (gst_vosk_chain w buf t)) = cancellables w.
Proof.
  rewrite gst_vosk_chain_eq.
  assert (Hb : config_fields (vosk (chain_baseline w buf))
               = config_fields (vosk w)
               /\ cancellables (chain_baseline w buf) = cancellables w)
    by (unfold chain_baseline; destruct (_ =? _); split; reflexivity).
  destruct (negb _).
  - destruct (gst_vosk_handle_buffer_split (chain_baseline w buf) buf t)
      as (_ & _ & _ & _ & _ & Hc & Hk & _).
    destruct (gst_vosk_handle_buffer _ buf t) as [w1 b1].
    cbn [fst snd vosk emit cancellables] in *.
    split; [rewrite Hc|rewrite Hk]; apply Hb.
  - exact Hb.
Qed.

(** X8.  For a buffer the streaming thread first runs the noise suppression,
    then feeds and queries the installed recogniser (never for the final
    result) and delivers results the way [use-signals] says, and last pushes
    the buffer, once, with the timestamp it came with.  It creates and frees
    nothing and posts no error and no state message. *)
Theorem gst_vosk_chain_events (w : World) (buf : GstBuffer) (t : Z) :
  let w' := fst (gst_vosk_chain w buf t) in
  let buf' := snd (gst_vosk_chain w buf t) in
  (exists evsd rest,
      events_since w w'
      = evsd ++ rest ++ [Call_gst_pad_push (samples buf')] /\
      forallb is_denoise_event evsd = true /\
      forallb (engine_event_ok (vosk w)) rest = true) /\
  pts buf' = pts buf /\ odd_byte buf' = odd_byte buf.
Proof.
  cbv zeta. rewrite gst_vosk_chain_eq.
  assert (Hb : trace (chain_baseline w buf) = trace w
               /\ recognizer (vosk (chain_baseline w buf)) = recognizer (vosk w)
               /\ use_signals (vosk (chain_baseline w buf))
                  = use_signals (vosk w))
    by (unfold chain_baseline; destruct (_ =? _); repeat split).
  destruct Hb as (Htb & Hrb & Hub).
  destruct (negb _).
  - destruct (gst_vosk_handle_buffer_split (chain_baseline w buf) buf t)
      as (evsd & rest & Ht & Hd & Hok & _ & _ & Hpts & Hodd & _).
    destruct (gst_vosk_handle_buffer _ buf t) as [w1 b1].
    cbn [fst snd] in *.
    rewrite (engine_event_ok_ext _ _ rest Hrb Hub) in Hok.
    split; [|split; assumption].
    exists evsd, rest. split; [|split; assumption].
    apply events_since_app. cbn. rewrite Ht, Htb.
    now rewrite <- !app_assoc.
  - cbn [fst snd]. split; [|split; reflexivity].
    exists [], []. split; [|split; reflexivity].
    apply events_since_app. cbn. now rewrite Htb.
Qed.

End Streaming.

Lemma g_strcmp0_eq_true (a b : option string) :
  g_strcmp0_eq a b = true -> a = b.
Proof.
  unfold g_strcmp0_eq. destruct a, b; try discriminate; [|reflexivity].
  intros H. apply String.eqb_eq in H. congruence.
Qed.

Lemma g_strcmp0_eq_refl (a : option string) : g_strcmp0_eq a a = true.
Proof.
  unfold g_strcmp0_eq. destruct a; [apply String.eqb_refl|reflexivity].
Qed.

Section Queries.

Context {ext : Externals}.

Lemma partial_due_dec (v : GstVosk) (buf : GstBuffer) :
  partial_due v buf \/ ~ partial_due v buf.
Proof. unfold partial_due. lia. Qed.

(** Either nothing is queried and nothing emitted for a buffer, or one
    query is made. *)
Lemma gst_vosk_handle_buffer_queries (w : World) (buf : GstBuffer) (t : Z) :
  let w' := fst (gst_vosk_handle_buffer w buf t) in
  let evs := events_since w w' in
  (length (fed evs) <= 1)%nat /\
  ((queries evs = [] /\ emissions evs = []) \/
   (exists q,
       queries evs = [q] /\
       (length (emissions evs) <= 1)%nat /\
       fed evs <> [] /\
       ~ throttled (vosk w) buf t /\
       last_partial (vosk w') = pts buf /\
       last_processed_time (vosk w') = pts buf /\
       (is_partial_query q = true ->
        0 <= partial_time_interval (vosk w) /\ partial_due (vosk w) buf))).
Proof.
  cbv zeta.
  assert (Hcase : (map_ok buf = false \/ info_size buf = 0%nat)
                  \/ (map_ok buf = true /\ info_size buf <> 0%nat)).
  { destruct (map_ok buf); [|auto].
    destruct (Nat.eq_dec (info_size buf) 0); auto. }
  destruct Hcase as [Hun|[Hmap Hsize]].
  - rewrite (gst_vosk_handle_buffer_unmapped w buf t Hun). cbn [fst].
    rewrite events_since_refl. cbn. split; [lia|left; auto].
  - destruct (gst_vosk_handle_buffer_spec w buf t Hmap Hsize)
      as (_ & d & ret & Hfed & Herr & Hthr & Hrun).
    rewrite Hfed. split; [cbn; lia|].
    destruct (Z.eq_dec ret (-1)) as [E|E];
      [left; destruct (Herr E) as (? & ? & _); auto|].
    destruct (throttled_dec (vosk w) buf t) as [T|T];
      [left; destruct (Hthr T) as (? & ? & _); auto|].
    destruct (Hrun E T) as (Hlpt & Hfin & Hnull & Hoff & Hdue & Hnot).
    destruct (Z.eq_dec ret 1) as [E1|E1].
    + destruct (Nat.eq_dec (recognizer (vosk w)) NULL) as [N|N];
        [left; destruct (Hnull E1 N) as (? & ? & _); auto|].
      destruct (Hfin E1 N) as (txt & Hq & Hem & Hlp & _).
      right. eexists. split; [exact Hq|]. rewrite Hem.
      split; [destruct (result_is_empty txt); [cbn; lia|];
              destruct txt; cbn; lia|].
      split; [discriminate|]. split; [exact T|].
      split; [exact Hlp|]. split; [exact Hlpt|]. discriminate.
    + destruct (Z_lt_le_dec (partial_time_interval (vosk w)) 0) as [Hn|Hp];
        [left; destruct (Hoff E1 Hn) as (? & ? & _); auto|].
      destruct (partial_due_dec (vosk w) buf) as [D|D];
        [|left; destruct (Hnot E1 Hp D) as (? & ? & _); auto].
      destruct (Hdue E1 Hp D) as (txt & Hq & Hem & Hlp & _).
      right. eexists. split; [exact Hq|]. rewrite Hem.
      split; [destruct (_ || _); [cbn; lia|]; destruct txt; cbn; lia|].
      split; [discriminate|]. split; [exact T|].
      split; [exact Hlp|]. split; [exact Hlpt|]. auto.
Qed.

(** X9.  A buffer is fed to the recogniser at most once and leads to at most
    one result query and at most one emitted result; nothing is emitted
    without a query, and nothing is queried for a buffer that was not fed. *)
Theorem one_query_per_buffer (w : World) (buf : GstBuffer) (t : Z) :
  let evs := events_since w (fst (gst_vosk_handle_buffer w buf t)) in
  (length (fed evs) <= 1)%nat /\
  (length (queries evs) <= 1)%nat /\
  (length (emissions evs) <= 1)%nat /\
  (emissions evs <> [] -> queries evs <> []) /\
  (queries evs <> [] -> fed evs <> []).
Proof.
  cbv zeta.
  destruct (gst_vosk_handle_buffer_queries w buf t)
    as (Hfed & [[Hq Hem]|(q & Hq & Hem & Hf & _)]).
  - rewrite Hq, Hem. cbn. repeat split; try lia; congruence.
  - rewrite Hq. cbn. repeat split; try lia; try discriminate. auto.
Qed.

(** X10.  When the recogniser answers -1 for a buffer, the buffer is given
    up: nothing is queried, nothing is emitted, and outside the denoise
    buffers the element is as it was, timestamps included. *)
Theorem accept_waveform_error_abandons_buffer (w : World) (buf : GstBuffer)
  (t : Z) (r : pointer) (d : list Z) :
  let w' := fst (gst_vosk_handle_buffer w buf t) in
  let evs := events_since w w' in
  In (Call_vosk_recognizer_accept_waveform r d (-1)) evs ->
  queries evs = [] /\ emissions evs = [] /\
  outside_denoise (vosk w') = outside_denoise (vosk w).
Proof.
  cbv zeta. intros Hin.
  assert (Hcase : (map_ok buf = false \/ info_size buf = 0%nat)
                  \/ (map_ok buf = true /\ info_size buf <> 0%nat)).
  { destruct (map_ok buf); [|auto].
    destruct (Nat.eq_dec (info_size buf) 0); auto. }
  destruct Hcase as [Hun|[Hmap Hsize]].
  - rewrite (gst_vosk_handle_buffer_unmapped w buf t Hun) in *.
    cbn [fst] in *. rewrite events_since_refl in *. contradiction.
  - destruct (gst_vosk_handle_buffer_spec w buf t Hmap Hsize)
      as (_ & d' & ret & Hfed & Herr & _).
    apply Herr. pose proof (In_fed _ _ _ Hfed Hin eq_refl) as E. congruence.
Qed.

(** X11.  Between a buffer that was queried (for a result or a partial
    result) and the next buffer whose partial result is queried lies more
    than the partial interval: partial results are asked for no more often
    than the interval allows. *)
Theorem partial_queries_are_spaced (w : World) (b1 b2 : GstBuffer)
  (t1 t2 : Z) :
  let w1 := fst (gst_vosk_handle_buffer w b1 t1) in
  let w2 := fst (gst_vosk_handle_buffer w1 b2 t2) in
  queries (events_since w w1) <> [] ->
  filter is_partial_query (events_since w1 w2) <> [] ->
  0 <= partial_time_interval (vosk w) < GST_CLOCK_DIFF (pts b1) (pts b2).
Proof.
  cbv zeta. intros Hq1 Hq2.
  destruct (gst_vosk_handle_buffer_split w b1 t1)
    as (_ & _ & _ & _ & _ & Hcfg & _).
  assert (Hint : partial_time_interval
                   (vosk (fst (gst_vosk_handle_buffer w b1 t1)))
                 = partial_time_interval (vosk w))
    by (unfold config_fields in Hcfg; congruence).
  destruct (gst_vosk_handle_buffer_queries w b1 t1)
    as (_ & [[Hn _]|(q1 & _ & _ & _ & _ & Hlp & _)]); [contradiction|].
  set (w1 := fst (gst_vosk_handle_buffer w b1 t1)) in *.
  destruct (gst_vosk_handle_buffer_queries w1 b2 t2)
    as (_ & [[Hn _]|(q2 & Hq & _ & _ & _ & _ & _ & Hpart)]).
  - rewrite partial_queries_of_queries, Hn in Hq2. contradiction.
  - rewrite partial_queries_of_queries, Hq in Hq2. cbn in Hq2.
    destruct (is_partial_query q2); [|contradiction].
    destruct (Hpart eq_refl) as [Hpos Hdue].
    unfold partial_due in Hdue. rewrite Hlp, Hint in *. lia.
Qed.

(** X12.  A partial result that is not empty is remembered, and asking again
    and getting the same text emits nothing: the same partial text is never
    delivered twice in a row. *)
Theorem partial_result_is_not_repeated (w : World) :
  let r := recognizer (vosk w) in
  let p1 := vosk_recognizer_partial_result (trace w) r in
  let w1 := gst_vosk_partial_result w in
  let p2 := vosk_recognizer_partial_result (trace w1) r in
  let w2 := gst_vosk_partial_result w1 in
  partial_result_is_empty p1 = false ->
  prev_partial (vosk w1) = p1 /\
  (p2 = p1 ->
   events_since w1 w2 = [Call_vosk_recognizer_partial_result r p1] /\
   vosk w2 = vosk w1).
Proof.
  cbv zeta.
  set (p1 := vosk_recognizer_partial_result (trace w) (recognizer (vosk w))).
  intros Hne.
  assert (H1 : prev_partial (vosk (gst_vosk_partial_result w)) = p1
               /\ recognizer (vosk (gst_vosk_partial_result w))
                  = recognizer (vosk w)).
  { unfold gst_vosk_partial_result, gst_vosk_message_new. cbv zeta.
    fold p1. rewrite Hne. cbn [vosk emit].
    destruct (g_strcmp0_eq p1 (prev_partial (vosk w))) eqn:Hsame.
    - apply g_strcmp0_eq_true in Hsame. cbn. split; congruence.
    - destruct p1; cbn; [destruct (use_signals _)|]; split; reflexivity. }
  destruct H1 as [Hprev Hrec]. split; [exact Hprev|].
  intros Hsame.
  set (w1 := gst_vosk_partial_result w) in *.
  unfold gst_vosk_partial_result. cbv zeta.
  rewrite Hrec, Hsame, Hne. cbn [vosk emit].
  rewrite Hprev, g_strcmp0_eq_refl. since. split; reflexivity.
Qed.

End Queries.

Section PassThrough.

Context {ext : Externals}.

(** X13.  A buffer that finds no recogniser, cannot be mapped or is empty is
    not recognised: the engine is not called, nothing is emitted, and the
    buffer is pushed as it came.  The only trace it leaves in the element is
    the last-processed time, and only if there was none. *)
Theorem unrecognized_buffer_passes_through (w : World) (buf : GstBuffer)
  (t : Z) :
  recognizer (vosk w) = NULL \/ map_ok buf = false \/ info_size buf = 0%nat ->
  let w' := fst (gst_vosk_chain w buf t) in
  snd (gst_vosk_chain w buf t) = buf /\
  events_since w w' = [Call_gst_pad_push (samples buf)] /\
  cancellables w' = cancellables w /\
  vosk w'
  = (if last_processed_time (vosk w) =? GST_CLOCK_TIME_NONE
     then set_last_processed_time (pts buf) (vosk w) else vosk w).
Proof.
  intros H. cbv zeta. rewrite gst_vosk_chain_eq.
  assert (Hpass :
    (if negb (is_null (recognizer (vosk w)))
     then gst_vosk_handle_buffer (chain_baseline w buf) buf t
     else (chain_baseline w buf, buf)) = (chain_baseline w buf, buf)).
  { destruct H as [H|H].
    - unfold is_null. rewrite H. reflexivity.
    - destruct (negb _); [|reflexivity].
      apply gst_vosk_handle_buffer_unmapped. exact H. }
  rewrite Hpass. cbn [fst snd]. unfold chain_baseline.
  destruct (_ =? _); since; repeat split.
Qed.

Lemma gst_vosk_apply_denoise_length (w : World) (s16 : list Z) :
  denoise_inv (vosk w) ->
  length (snd (gst_vosk_apply_denoise w s16)) = length s16.
Proof.
  intros Hinv.
  destruct (enable_denoise (vosk w)) eqn:Hen;
    [|unfold gst_vosk_apply_denoise; now rewrite Hen].
  destruct (denoise_initialized (vosk w)) eqn:Hinit;
    [|unfold gst_vosk_apply_denoise; now rewrite Hen, Hinit].
  destruct (rate (vosk w) =? 48000) eqn:Hrate;
    [|unfold gst_vosk_apply_denoise; now rewrite Hen, Hinit, Hrate].
  apply Z.eqb_eq in Hrate.
  destruct (gst_vosk_apply_denoise_audio w s16)
    as (_ & _ & _ & Hlen & _); [repeat split; assumption|now apply Hinv|].
  exact Hlen.
Qed.

(** X14.  In any world the element can be in, the buffer pushed downstream
    has as many samples as the buffer received, and the very same samples
    unless denoising is enabled, set up and the rate is 48000 Hz. *)
Theorem gst_vosk_chain_keeps_buffer_size (w : World) (buf : GstBuffer)
  (t : Z) :
  reachable w ->
  let buf' := snd (gst_vosk_chain w buf t) in
  length (samples buf') = length (samples buf) /\
  (enable_denoise (vosk w) = false \/ denoise_initialized (vosk w) = false
   \/ rate (vosk w) <> 48000 ->
   buf' = buf).
Proof.
  intros Hreach. cbv zeta. rewrite gst_vosk_chain_eq.
  pose proof (reachable_denoise_inv w Hreach) as Hinv.
  assert (Hinv0 : denoise_inv (vosk (chain_baseline w buf)))
    by (unfold chain_baseline; destruct (_ =? _); exact Hinv).
  assert (Hsame : enable_denoise (vosk (chain_baseline w buf))
                  = enable_denoise (vosk w)
                  /\ denoise_initialized (vosk (chain_baseline w buf))
                     = denoise_initialized (vosk w)
                  /\ rate (vosk (chain_baseline w buf)) = rate (vosk w))
    by (unfold chain_baseline; destruct (_ =? _); repeat split).
  destruct Hsame as (He & Hi & Hr).
  destruct (negb (is_null _)); [|cbn; auto].
  destruct (gst_vosk_handle_buffer_split (chain_baseline w buf) buf t)
    as (_ & _ & _ & _ & _ & _ & _ & Hpts & Hodd & Hmok & Hs).
  pose proof (gst_vosk_handle_buffer_unmapped (chain_baseline w buf) buf t)
    as Hun.
  destruct (gst_vosk_handle_buffer _ buf t) as [w1 b1].
  cbn [fst snd] in *. split.
  - rewrite Hs. destruct (_ || _); [reflexivity|].
    now apply gst_vosk_apply_denoise_length.
  - intros Hoff.
    destruct (map_ok buf) eqn:Hmap;
      [|assert (E := Hun ltac:(auto)); congruence].
    cbn [negb orb] in Hs.
    destruct (info_size buf =? 0)%nat eqn:Hz;
      [apply Nat.eqb_eq in Hz; assert (E := Hun ltac:(auto)); congruence|].
    rewrite (gst_vosk_apply_denoise_off (chain_baseline w buf) (samples buf))
      in Hs by (rewrite He, Hi, Hr; exact Hoff).
    cbn [snd] in Hs.
    destruct b1, buf. cbn in *. congruence.
Qed.

(** X15.  At end of stream a pending load is cancelled and forgotten, and
    the final result is asked for once if a recogniser is installed, whatever
    the timestamps and the clock: it is emitted unless it is [NULL] or an
    empty text, and the cached partial is cleared.  Without a recogniser
    nothing is asked and nothing emitted. *)
Theorem end_of_stream_final_result (w : World) :
  let w' := gst_vosk_sink_event w GST_EVENT_EOS in
  let r := recognizer (vosk w) in
  current_operation (vosk w') = NULL /\
  recognizer (vosk w') = r /\
  (r = NULL -> events_since w w' = [] /\ prev_partial (vosk w') = prev_partial (vosk w)) /\
  (r <> NULL ->
   exists txt,
     events_since w w'
     = Call_vosk_recognizer_final_result r txt
       :: (if final_result_is_empty txt then []
           else emission_events (vosk w) txt) /\
     prev_partial (vosk w') = None).
Proof.
  cbv zeta. cbn [gst_vosk_sink_event].
  set (w0 := gst_vosk_cancel_model_loading w).
  assert (H0 : current_operation (vosk w0) = NULL
               /\ recognizer (vosk w0) = recognizer (vosk w)
               /\ prev_partial (vosk w0) = prev_partial (vosk w)
               /\ use_signals (vosk w0) = use_signals (vosk w)
               /\ trace w0 = trace w).
  { unfold w0, gst_vosk_cancel_model_loading.
    destruct (is_null (current_operation (vosk w))) eqn:Hn.
    - apply Nat.eqb_eq in Hn. repeat split. exact Hn.
    - cbn [vosk upd trace]. rewrite g_cancellable_cancel_vosk.
      repeat split. destruct (current_operation (vosk w)); reflexivity. }
  destruct H0 as (Hop & Hrec & Hpp & Hus & Htr).
  unfold gst_vosk_final_result_msg, gst_vosk_final_result,
    gst_vosk_message_new, events_since.
  rewrite Hrec, <- Htr.
  destruct (is_null (recognizer (vosk w))) eqn:Hnull.
  - apply Nat.eqb_eq in Hnull.
    split; [exact Hop|]. split; [exact Hrec|].
    split; [|intros Hn; contradiction].
    intros _. rewrite skipn_all. auto.
  - apply Nat.eqb_neq in Hnull.
    set (txt := vosk_recognizer_final_result (trace w0) (recognizer (vosk w))).
    destruct (final_result_is_empty txt) eqn:He; cbn [fst snd].
    + split; [exact Hop|]. split; [exact Hrec|].
      split; [intros Hn; contradiction|]. intros _. exists txt.
      rewrite He. cbn.
      rewrite skipn_app, skipn_all, Nat.sub_diag. auto.
    + destruct txt as [s|] eqn:Et; [|discriminate].
      unfold emission_events, emission_of. rewrite <- Hus.
      destruct (use_signals (vosk w0)) eqn:Hu; cbn [vosk upd emit trace];
        cbn; rewrite Hu;
        (split; [exact Hop|]); (split; [exact Hrec|]);
        (split; [intros Hn; contradiction|]); intros _;
        exists (Some s); rewrite He; cbn;
        rewrite <- app_assoc, skipn_app, skipn_all, Nat.sub_diag; auto.
Qed.

End PassThrough.

(** ** Properties *)

Lemma events_since_upd (f : GstVosk -> GstVosk) (w : World) :
  events_since w (upd f w) = [].
Proof. unfold events_since. cbn [trace upd]. apply skipn_all. Qed.

Section Properties.

Context {ext : Externals}.

(** X16.  Writing [alternatives] stores the value, which reads back, and
    tells the recogniser the new maximum exactly when the value changed and
    a recogniser is installed; nothing else changes. *)
Theorem alternatives_property (s : GstState) (w : World) (n : Z) :
  let w' := gst_vosk_set_property s w PROP_ALTERNATIVES (GInt n) in
  gst_vosk_get_property w' PROP_ALTERNATIVES = (w', GInt n) /\
  events_since w w'
  = (if (alternatives (vosk w) =? n) || is_null (recognizer (vosk w))
     then []
     else [Call_vosk_recognizer_set_max_alternatives (recognizer (vosk w)) n])
  /\
  vosk w'
  = (if alternatives (vosk w) =? n then vosk w
     else set_alternatives n (vosk w)) /\
  cancellables w' = cancellables w.
Proof.
  cbv zeta. cbn [gst_vosk_set_property gst_vosk_get_property g_value_get_int].
  destruct (alternatives (vosk w) =? n) eqn:Heq; cbn [orb].
  - apply Z.eqb_eq in Heq. rewrite events_since_refl.
    repeat split. now rewrite Heq.
  - unfold gst_vosk_set_num_alternatives. cbn [vosk upd].
    change (recognizer (set_alternatives n (vosk w)))
      with (recognizer (vosk w)).
    change (alternatives (set_alternatives n (vosk w))) with n.
    destruct (is_null (recognizer (vosk w))); cbn [negb].
    + rewrite events_since_upd. repeat split.
    + since. repeat split.
Qed.

(** X17.  The model path can be written only while the element is in the
    NULL or READY state, where it then reads back; in any other state the
    write is ignored.  Writing it never calls the engine and never starts a
    load. *)
Theorem speech_model_property (s : GstState) (w : World)
  (model : option string) :
  let w' := gst_vosk_set_property s w PROP_SPEECH_MODEL (GString model) in
  events_since w w' = [] /\
  cancellables w' = cancellables w /\
  (s = GST_STATE_NULL \/ s = GST_STATE_READY ->
   gst_vosk_get_property w' PROP_SPEECH_MODEL = (w', GString model)) /\
  (s <> GST_STATE_NULL -> s <> GST_STATE_READY -> w' = w).
Proof.
  cbv zeta.
  cbn [gst_vosk_set_property gst_vosk_get_property g_value_get_string].
  unfold gst_vosk_set_model_path.
  destruct s;
    try (rewrite events_since_refl; repeat split;
         try (intros [H|H]; discriminate); intros; congruence);
    destruct (g_strcmp0_eq model (model_path (vosk w))) eqn:Hsame;
    try (apply g_strcmp0_eq_true in Hsame);
    rewrite ?events_since_refl, ?events_since_upd;
    repeat split; intros; try congruence.
Qed.

(** X18.  Reading a property never emits a result and never changes the
    settings.  Reading [current-results] or [current-final-results] with a
    recogniser installed is not free of effects, though: it queries the
    engine once, clears the cached partial, and gives the payload unless it
    is one the query mutes. *)
Theorem reading_properties (w : World) (p : PropId) :
  let w' := fst (gst_vosk_get_property w p) in
  emissions (events_since w w') = [] /\
  config_fields (vosk w') = config_fields (vosk w) /\
  (p <> PROP_CURRENT_FINAL_RESULTS -> p <> PROP_CURRENT_RESULTS -> w' = w) /\
  (recognizer (vosk w) <> NULL ->
   (p = PROP_CURRENT_FINAL_RESULTS ->
    exists txt,
      events_since w w'
      = [Call_vosk_recognizer_final_result (recognizer (vosk w)) txt] /\
      prev_partial (vosk w') = None /\
      snd (gst_vosk_get_property w p)
      = GString (if final_result_is_empty txt then None else txt)) /\
   (p = PROP_CURRENT_RESULTS ->
    exists txt,
      events_since w w'
      = [Call_vosk_recognizer_result (recognizer (vosk w)) txt] /\
      prev_partial (vosk w') = None /\
      snd (gst_vosk_get_property w p)
      = GString (if result_is_empty txt then None else txt))).
Proof.
  cbv zeta.
  destruct p; cbn [gst_vosk_get_property fst snd];
    try (rewrite events_since_refl; repeat split; intros; congruence).
  - unfold gst_vosk_final_result.
    destruct (is_null (recognizer (vosk w))) eqn:Hn.
    + apply Nat.eqb_eq in Hn. cbn [fst snd]. rewrite events_since_refl.
      repeat split; intros; congruence.
    + destruct (final_result_is_empty _) eqn:He; cbn [fst snd]; since;
        (split; [reflexivity|]); (split; [reflexivity|]);
        (split; [intros; congruence|]); intros _;
        (split; [|intros; discriminate]); intros _;
        eexists; (split; [reflexivity|]); (split; [reflexivity|]);
        rewrite He; reflexivity.
  - unfold gst_vosk_result.
    destruct (is_null (recognizer (vosk w))) eqn:Hn.
    + apply Nat.eqb_eq in Hn. cbn [fst snd]. rewrite events_since_refl.
      repeat split; intros; congruence.
    + destruct (result_is_empty _) eqn:He; cbn [fst snd]; since;
        (split; [reflexivity|]); (split; [reflexivity|]);
        (split; [intros; congruence|]); intros _;
        (split; [intros; discriminate|]); intros _;
        eexists; (split; [reflexivity|]); (split; [reflexivity|]);
        rewrite He; reflexivity.
Qed.

End Properties.

(** ** Activation, loading and cancellation *)

Lemma cancellables_grow_refl (l : list bool) : cancellables_grow l l.
Proof. split; auto. Qed.

Lemma cancellables_grow_trans (a b c : list bool) :
  cancellables_grow a b -> cancellables_grow b c -> cancellables_grow a c.
Proof. intros [H1 H2] [H3 H4]. split; [lia|auto]. Qed.

Lemma length_set_nth_true (i : nat) (l : list bool) :
  length (set_nth_true i l) = length l.
Proof.
  revert i. induction l as [|b l IH]; intros [|i]; cbn; try reflexivity.
  now rewrite IH.
Qed.

Lemma set_nth_true_grow (i : nat) (l : list bool) :
  cancellables_grow l (set_nth_true i l).
Proof.
  split; [now rewrite length_set_nth_true|].
  revert i. induction l as [|b l IH]; intros [|i] [|j]; cbn; auto.
Qed.

Lemma nth_set_nth_true (i : nat) (l : list bool) :
  (i < length l)%nat -> nth i (set_nth_true i l) false = true.
Proof.
  revert i. induction l as [|b l IH]; intros [|i]; cbn; try lia; auto.
  intros H. apply IH. lia.
Qed.

Lemma g_cancellable_cancel_grow (c : pointer) (w : World) :
  cancellables_grow (cancellables w) (cancellables (g_cancellable_cancel c w)).
Proof.
  destruct c as [|i]; cbn; [apply cancellables_grow_refl|].
  apply set_nth_true_grow.
Qed.

Lemma g_cancellable_cancel_trace (c : pointer) (w : World) :
  trace (g_cancellable_cancel c w) = trace w.
Proof. destruct c; reflexivity. Qed.

Lemma g_cancellable_cancel_sets (c : pointer) (w : World) :
  token_allocated w c ->
  g_cancellable_is_cancelled (g_cancellable_cancel c w) c = true.
Proof.
  unfold token_allocated. destruct c as [|i]; [lia|]. intros H. cbn.
  apply nth_set_nth_true. lia.
Qed.

Lemma g_cancellable_new_grow (w : World) :
  cancellables_grow (cancellables w) (cancellables (fst (g_cancellable_new w))).
Proof.
  cbn. split; [rewrite length_app; lia|].
  intros i H. rewrite app_nth1; [exact H|].
  destruct (Nat.lt_ge_cases i (length (cancellables w))) as [|Hge]; [assumption|].
  rewrite nth_overflow in H by exact Hge. discriminate.
Qed.

Lemma cancellables_grow_cancelled (w w' : World) (c : pointer) :
  cancellables_grow (cancellables w) (cancellables w') ->
  g_cancellable_is_cancelled w c = true ->
  g_cancellable_is_cancelled w' c = true.
Proof. intros [_ H]. destruct c as [|i]; cbn; auto. Qed.

Lemma cancellables_grow_allocated (w w' : World) (c : pointer) :
  cancellables_grow (cancellables w) (cancellables w') ->
  token_allocated w c -> token_allocated w' c.
Proof. intros [H _]. unfold token_allocated. lia. Qed.

Lemma gst_vosk_cancel_model_loading_grow (w : World) :
  cancellables_grow (cancellables w)
    (cancellables (gst_vosk_cancel_model_loading w)).
Proof.
  unfold gst_vosk_cancel_model_loading.
  destruct (is_null _); [apply cancellables_grow_refl|].
  cbn [cancellables upd]. apply g_cancellable_cancel_grow.
Qed.

Lemma gst_vosk_cancel_model_loading_trace (w : World) :
  trace (gst_vosk_cancel_model_loading w) = trace w.
Proof.
  unfold gst_vosk_cancel_model_loading.
  destruct (is_null _); [reflexivity|].
  cbn [trace upd]. apply g_cancellable_cancel_trace.
Qed.

Lemma gst_vosk_cancel_model_loading_recognizer (w : World) :
  recognizer (vosk (gst_vosk_cancel_model_loading w)) = recognizer (vosk w).
Proof.
  unfold gst_vosk_cancel_model_loading.
  destruct (is_null _); [reflexivity|].
  cbn [vosk upd]. now rewrite g_cancellable_cancel_vosk.
Qed.

Lemma gst_vosk_cancel_model_loading_cancels (w : World) :
  token_allocated w (current_operation (vosk w)) ->
  g_cancellable_is_cancelled (gst_vosk_cancel_model_loading w)
    (current_operation (vosk w)) = true.
Proof.
  intros H. unfold gst_vosk_cancel_model_loading.
  destruct (is_null _) eqn:Hn.
  - apply Nat.eqb_eq in Hn. unfold token_allocated, NULL in *. lia.
  - apply (g_cancellable_cancel_sets _ _ H).
Qed.

Lemma gst_vosk_reset_cancellables (w : World) :
  cancellables (gst_vosk_reset w) = cancellables w.
Proof.
  unfold gst_vosk_reset. cbv zeta.
  destruct (is_null (recognizer (vosk w)));
    cbn [vosk upd emit]; destruct (denoise_input_buffer _); reflexivity.
Qed.

Section Lifecycle.

Context {ext : Externals}.

Lemma gst_vosk_init_denoise_frame (w : World) :
  exists evs,
    trace (fst (gst_vosk_init_denoise w)) = trace w ++ evs /\
    forallb is_rnnoise_setup evs = true /\
    cancellables (fst (gst_vosk_init_denoise w)) = cancellables w /\
    outside_denoise (vosk (fst (gst_vosk_init_denoise w)))
    = outside_denoise (vosk w).
Proof.
  unfold gst_vosk_init_denoise. cbv zeta.
  destruct (negb _ || _);
    [exists []; rewrite app_nil_r; repeat split|].
  destruct (_ <=? 0);
    [exists []; rewrite app_nil_r; repeat split|].
  destruct (is_null (denoise_state (vosk w))); cbn [trace emit upd vosk];
    match goal with
    | |- context [is_null ?x] => destruct (is_null x)
    end; cbn [fst trace emit upd vosk cancellables];
    eexists; rewrite <- ?app_assoc; (split; [reflexivity|]);
    repeat split.
Qed.

Lemma gst_vosk_recognizer_new_cancellables (w : World) (model : pointer) :
  cancellables (fst (gst_vosk_recognizer_new w model)) = cancellables w.
Proof.
  unfold gst_vosk_recognizer_new. cbv zeta.
  destruct (_ <=? 0); [reflexivity|].
  destruct (is_null model); [reflexivity|].
  cbn [fst cancellables emit upd].
  destruct (enable_denoise _); [|reflexivity].
  destruct (gst_vosk_init_denoise_frame (upd (set_rate (gst_vosk_get_rate (vosk w))) w))
    as (evs & _ & _ & Hc & _).
  exact Hc.
Qed.

Lemma load_model_locked_grow (status : GstVoskThreadData) (model : pointer)
  (w : World) :
  cancellables_grow (cancellables w)
    (cancellables (load_model_locked status model w)).
Proof.
  unfold load_model_locked, load_model_clean. cbv zeta.
  split_cases;
    (eapply cancellables_grow_trans; [|apply g_cancellable_cancel_grow]);
    cbn [cancellables emit upd];
    rewrite ?gst_vosk_recognizer_new_cancellables;
    apply cancellables_grow_refl.
Qed.

Lemma gst_vosk_final_result_msg_cancellables (w : World) :
  cancellables (gst_vosk_final_result_msg w) = cancellables w.
Proof.
  unfold gst_vosk_final_result_msg, gst_vosk_final_result,
    gst_vosk_message_new.
  split_cases; reflexivity.
Qed.

Lemma gst_vosk_chain_cancellables (w : World) (buf : GstBuffer) (t : Z) :
  cancellables (fst (gst_vosk_chain w buf t)) = cancellables w.
Proof.
  rewrite gst_vosk_chain_eq.
  assert (Hb : cancellables (chain_baseline w buf) = cancellables w)
    by (unfold chain_baseline; destruct (_ =? _); reflexivity).
  destruct (negb _).
  - destruct (gst_vosk_handle_buffer_split (chain_baseline w buf) buf t)
      as (evsd & rest & _ & _ & _ & _ & Hc & _).
    destruct (gst_vosk_handle_buffer _ buf t) as [w1 b1].
    cbn [fst snd] in *. cbn. congruence.
  - cbn. exact Hb.
Qed.

Lemma gst_vosk_check_model_path_grow (w : World) :
  cancellables_grow (cancellables w)
    (cancellables (fst (fst (gst_vosk_check_model_path w)))).
Proof.
  unfold gst_vosk_check_model_path.
  destruct (model_path (vosk w)); [|apply cancellables_grow_refl].
  cbv zeta. cbn [vosk upd].
  destruct (negb _); [apply cancellables_grow_refl|].
  cbn. split; [rewrite length_app; lia|].
  intros i H. rewrite app_nth1; [exact H|].
  destruct (Nat.lt_ge_cases i (length (cancellables w))) as [|Hge];
    [assumption|].
  rewrite nth_overflow in H by exact Hge. discriminate.
Qed.

Lemma gst_vosk_change_state_grow (parent_ok : bool) (w : World)
  (tr : GstStateChange) :
  cancellables_grow (cancellables w)
    (cancellables (fst (fst (gst_vosk_change_state parent_ok w tr)))).
Proof.
  pose proof (gst_vosk_check_model_path_grow w) as Hc.
  unfold gst_vosk_change_state.
  destruct tr;
    try (destruct (gst_vosk_check_model_path w) as [[w1 ret] pushed];
         cbn [fst] in Hc; destruct ret, parent_ok; cbn; exact Hc);
    destruct parent_ok; cbn [negb fst];
    try apply cancellables_grow_refl;
    rewrite gst_vosk_reset_cancellables;
    apply gst_vosk_cancel_model_loading_grow.
Qed.

Lemma vosk_step_grow (w w' : World) :
  vosk_step w w' -> cancellables_grow (cancellables w) (cancellables w').
Proof.
  intros Hs. destruct Hs.
  - rewrite gst_vosk_chain_cancellables. apply cancellables_grow_refl.
  - destruct e; cbn [gst_vosk_sink_event];
      try apply cancellables_grow_refl.
    + unfold gst_vosk_flush. destruct (negb _); apply cancellables_grow_refl.
    + rewrite gst_vosk_final_result_msg_cancellables.
      apply gst_vosk_cancel_model_loading_grow.
  - destruct p; cbn [gst_vosk_set_property];
      try apply cancellables_grow_refl.
    + unfold gst_vosk_set_model_path.
      destruct s; try apply cancellables_grow_refl;
        destruct (g_strcmp0_eq _ _); apply cancellables_grow_refl.
    + destruct (_ =? _); [apply cancellables_grow_refl|].
      unfold gst_vosk_set_num_alternatives.
      destruct (negb _); apply cancellables_grow_refl.
  - destruct p; cbn [gst_vosk_get_property fst];
      try apply cancellables_grow_refl.
    + unfold gst_vosk_final_result. split_cases; apply cancellables_grow_refl.
    + unfold gst_vosk_result. split_cases; apply cancellables_grow_refl.
  - apply gst_vosk_change_state_grow.
  - apply cancellables_grow_refl.
  - apply load_model_locked_grow.
  - apply g_cancellable_cancel_grow.
  - apply cancellables_grow_refl.
Qed.

Lemma vosk_steps_grow (w w' : World) :
  vosk_steps w w' -> cancellables_grow (cancellables w) (cancellables w').
Proof.
  induction 1 as [|w w' w'' _ IH Hs]; [apply cancellables_grow_refl|].
  eapply cancellables_grow_trans; [exact IH|]. now apply vosk_step_grow.
Qed.

(** X19.  A cancellation is permanent: whatever the element does after a
    token was cancelled (buffers, events, property accesses, state changes,
    loader steps, new tokens), the token stays cancelled. *)
Theorem cancellation_is_permanent (w w' : World) (c : pointer) :
  vosk_steps w w' ->
  g_cancellable_is_cancelled w c = true ->
  g_cancellable_is_cancelled w' c = true.
Proof.
  intros Hs. apply cancellables_grow_cancelled. now apply vosk_steps_grow.
Qed.

End Lifecycle.

Lemma gst_vosk_reset_world (w : World) :
  gst_vosk_reset w
  = {| vosk :=
         {| sinkpad_rate := sinkpad_rate (vosk w);
            recognizer := NULL;
            prev_partial := None;
            model_path := model_path (vosk w);
            rate := 0;
            alternatives := alternatives (vosk w);
            use_signals := use_signals (vosk w);
            partial_time_interval := partial_time_interval (vosk w);
            last_processed_time := GST_CLOCK_TIME_NONE;
            last_partial := last_partial (vosk w);
            current_operation := current_operation (vosk w);
            enable_denoise := enable_denoise (vosk w);
            denoise_initialized := false;
            denoise_state := denoise_state (vosk w);
            denoise_input_buffer :=
              array_write (denoise_input_buffer (vosk w)) 0
                (repeat 0%Q (denoise_buffer_size (vosk w)));
            denoise_output_buffer := denoise_output_buffer (vosk w);
            denoise_buffer_size := denoise_buffer_size (vosk w);
            denoise_buffer_pos :=
              match denoise_input_buffer (vosk w) with
              | Some _ => 0%nat
              | None => denoise_buffer_pos (vosk w)
              end;
            denoise_output_pos := denoise_output_pos (vosk w) |};
       cancellables := cancellables w;
       trace := trace w ++
                (if is_null (recognizer (vosk w)) then []
                 else [Call_vosk_recognizer_free (recognizer (vosk w))]) |}.
Proof.
  destruct w as [v c t]. destruct v as [sr r pp mp ra al us pti lpt lp co ed
    di ds dib dob dbs dbp dop].
  unfold gst_vosk_reset. cbv zeta.
  cbn [vosk recognizer]. destruct r as [|r]; cbn [is_null NULL Nat.eqb];
    cbn [vosk upd emit denoise_input_buffer set_prev_partial set_recognizer];
    destruct dib; cbn [array_write]; rewrite ?app_nil_r; reflexivity.
Qed.

(** X20.  Deactivation work of [gst_vosk_reset]: the recogniser is freed
    (once, and only if there is one) and forgotten, the cached partial, the
    rate and the last-processed time are cleared, the denoise step is marked
    uninitialised with nothing pending.  The settings, the pending
    operation, the time of the last partial and the RNNoise state are left
    alone, and a second reset changes nothing. *)
Theorem gst_vosk_reset_clears (w : World) :
  let w' := gst_vosk_reset w in
  events_since w w'
  = (if is_null (recognizer (vosk w)) then []
     else [Call_vosk_recognizer_free (recognizer (vosk w))]) /\
  recognizer (vosk w') = NULL /\
  prev_partial (vosk w') = None /\
  rate (vosk w') = 0 /\
  last_processed_time (vosk w') = GST_CLOCK_TIME_NONE /\
  denoise_initialized (vosk w') = false /\
  (denoise_input_buffer (vosk w) <> None -> pending_samples (vosk w') = []) /\
  (sinkpad_rate (vosk w'), model_path (vosk w'), alternatives (vosk w'),
   use_signals (vosk w'), partial_time_interval (vosk w'),
   last_partial (vosk w'), current_operation (vosk w'),
   enable_denoise (vosk w'), denoise_state (vosk w'))
  = (sinkpad_rate (vosk w), model_path (vosk w), alternatives (vosk w),
     use_signals (vosk w), partial_time_interval (vosk w),
     last_partial (vosk w), current_operation (vosk w),
     enable_denoise (vosk w), denoise_state (vosk w)) /\
  cancellables w' = cancellables w /\
  gst_vosk_reset w' = w'.
Proof.
  cbv zeta.
  assert (Hidem : gst_vosk_reset (gst_vosk_reset w) = gst_vosk_reset w).
  { rewrite (gst_vosk_reset_world (gst_vosk_reset w)).
    rewrite (gst_vosk_reset_world w).
    cbn [vosk cancellables trace sinkpad_rate recognizer prev_partial
         model_path rate alternatives use_signals partial_time_interval
         last_processed_time last_partial current_operation enable_denoise
         denoise_initialized denoise_state denoise_input_buffer
         denoise_output_buffer denoise_buffer_size denoise_buffer_pos
         denoise_output_pos is_null NULL Nat.eqb].
    rewrite app_nil_r.
    destruct (denoise_input_buffer (vosk w)) as [l|]; cbn [array_write];
      [|reflexivity].
    cbn [firstn app Nat.add]. rewrite repeat_length.
    rewrite skipn_app, repeat_length, skipn_all2, Nat.sub_diag
      by (rewrite repeat_length; lia).
    reflexivity. }
  split; [|split; [|split; [|split; [|split; [|split; [|split;
    [|split; [|split; [|exact Hidem]]]]]]]]];
    clear Hidem; rewrite (gst_vosk_reset_world w); try reflexivity.
  - apply events_since_app. reflexivity.
  - unfold pending_samples. cbn [vosk denoise_input_buffer denoise_buffer_pos].
    destruct (denoise_input_buffer (vosk w)); [reflexivity|].
    intros H. now elim H.
Qed.

Lemma gst_vosk_check_model_path_none (w : World) :
  model_path (vosk w) = None ->
  gst_vosk_check_model_path w
  = (emit Element_error w, GST_STATE_CHANGE_FAILURE, None).
Proof. intros H. unfold gst_vosk_check_model_path. now rewrite H. Qed.

Lemma gst_vosk_check_model_path_async (w : World) (p : string) :
  model_path (vosk w) = Some p ->
  recognizer (vosk w) = NULL ->
  let c := S (length (cancellables w)) in
  gst_vosk_check_model_path w
  = (emit Message_async_start
       (emit (Call_g_thread_pool_push p c)
          (upd (set_current_operation c)
             (set_cancellables (cancellables w ++ [false])
                (upd (set_last_processed_time GST_CLOCK_TIME_NONE) w)))),
     GST_STATE_CHANGE_ASYNC,
     Some {| path := p; cancellable := c |}).
Proof.
  intros Hp Hr. unfold gst_vosk_check_model_path. rewrite Hp. cbv zeta.
  cbn [vosk upd].
  change (recognizer (set_last_processed_time GST_CLOCK_TIME_NONE (vosk w)))
    with (recognizer (vosk w)).
  rewrite Hr. reflexivity.
Qed.

Lemma fresh_token_not_cancelled (l : list bool) :
  nth (length l) (l ++ [false]) false = false.
Proof. rewrite app_nth2 by lia. now rewrite Nat.sub_diag. Qed.

(** X21.  What activation finds.  With no model path it fails with an
    element error and starts nothing.  With a recogniser it succeeds at once.
    Otherwise it is asynchronous: a token that did not exist and is not
    cancelled becomes the pending operation, the request pushed to the pool
    carries that token and the path, the flags of the older tokens are as
    they were, and [async-start] is posted after the push.  In the last two
    cases the last-processed time is cleared. *)
Theorem gst_vosk_check_model_path_outcomes (w : World) :
  let w' := fst (fst (gst_vosk_check_model_path w)) in
  let ret := snd (fst (gst_vosk_check_model_path w)) in
  let pushed := snd (gst_vosk_check_model_path w) in
  match model_path (vosk w) with
  | None =>
    ret = GST_STATE_CHANGE_FAILURE /\ pushed = None /\
    events_since w w' = [Element_error] /\
    vosk w' = vosk w /\ cancellables w' = cancellables w
  | Some p =>
    last_processed_time (vosk w') = GST_CLOCK_TIME_NONE /\
    recognizer (vosk w') = recognizer (vosk w) /\
    if is_null (recognizer (vosk w)) then
      let c := current_operation (vosk w') in
      ret = GST_STATE_CHANGE_ASYNC /\
      pushed = Some {| path := p; cancellable := c |} /\
      events_since w w' = [Call_g_thread_pool_push p c; Message_async_start] /\
      ~ token_allocated w c /\ token_allocated w' c /\
      g_cancellable_is_cancelled w' c = false /\
      (forall c', token_allocated w c' ->
         g_cancellable_is_cancelled w' c' = g_cancellable_is_cancelled w c')
    else
      ret = GST_STATE_CHANGE_SUCCESS /\ pushed = None /\
      events_since w w' = [] /\
      vosk w' = set_last_processed_time GST_CLOCK_TIME_NONE (vosk w) /\
      cancellables w' = cancellables w
  end.
Proof.
  cbv zeta. unfold gst_vosk_check_model_path.
  destruct (model_path (vosk w)) as [p|].
  - cbv zeta. cbn [vosk upd].
    change (recognizer (set_last_processed_time GST_CLOCK_TIME_NONE (vosk w)))
      with (recognizer (vosk w)).
    destruct (is_null (recognizer (vosk w))); cbn [negb fst snd].
    + cbn [g_cancellable_new]. cbn [vosk upd emit set_cancellables fst snd].
      split; [reflexivity|]. split; [reflexivity|].
      split; [reflexivity|]. split; [reflexivity|].
      split; [apply events_since_app; cbn [trace set_cancellables upd
                emit]; now rewrite <- app_assoc|].
      unfold token_allocated. cbn [cancellables emit upd set_cancellables
        current_operation set_current_operation].
      rewrite length_app. cbn [length].
      split; [lia|]. split; [lia|].
      split.
      * cbn. rewrite app_nth2 by lia. now rewrite Nat.sub_diag.
      * intros [|i] Hc'; [reflexivity|]. cbn. apply app_nth1. lia.
    + rewrite events_since_upd. repeat split.
  - cbn [fst snd]. since. repeat split.
Qed.

Section Loading.

Context {ext : Externals}.

Lemma gst_vosk_recognizer_new_installs (w : World) (model : pointer) :
  model <> NULL ->
  0 < gst_vosk_get_rate (vosk w) ->
  let w' := fst (gst_vosk_recognizer_new w model) in
  let rate' := gst_vosk_get_rate (vosk w) in
  exists pre,
    let r := vosk_recognizer_new (trace w ++ pre) model rate' in
    trace w'
    = trace w ++ pre ++
      [Call_vosk_recognizer_new model rate' r;
       Call_vosk_recognizer_set_max_alternatives r (alternatives (vosk w))] /\
    forallb is_rnnoise_setup pre = true /\
    (enable_denoise (vosk w) = false -> pre = []) /\
    cancellables w' = cancellables w /\
    recognizer (vosk w') = r /\
    rate (vosk w') = rate' /\
    current_operation (vosk w') = current_operation (vosk w).
Proof.
  intros Hm Hr. cbv zeta. unfold gst_vosk_recognizer_new. cbv zeta.
  set (w0 := upd (set_rate (gst_vosk_get_rate (vosk w))) w).
  change (rate (vosk w0)) with (gst_vosk_get_rate (vosk w)).
  destruct (gst_vosk_get_rate (vosk w) <=? 0) eqn:Hle;
    [apply Z.leb_le in Hle; lia|].
  destruct (is_null model) eqn:Hn; [apply Nat.eqb_eq in Hn; contradiction|].
  destruct (gst_vosk_init_denoise_frame w0)
    as (evs & Ht & Hsetup & Hcanc & Hout).
  set (w1 := if enable_denoise (vosk w0) then fst (gst_vosk_init_denoise w0)
             else w0).
  assert (H1 : exists pre,
             trace w1 = trace w ++ pre /\
             forallb is_rnnoise_setup pre = true /\
             (enable_denoise (vosk w) = false -> pre = []) /\
             cancellables w1 = cancellables w /\
             outside_denoise (vosk w1) = outside_denoise (vosk w0)).
  { subst w1. change (enable_denoise (vosk w0)) with (enable_denoise (vosk w)).
    destruct (enable_denoise (vosk w)).
    - exists evs. repeat split; try assumption. discriminate.
    - exists []. rewrite app_nil_r. repeat split. }
  destruct H1 as (pre & Ht1 & Hpre & Hnone & Hc1 & Ho1).
  unfold outside_denoise in Ho1.
  injection Ho1 as E1 E2 E3 E4 E5 E6 E7 E8 E9 E10 E11.
  exists pre. cbv zeta.
  cbn [fst trace emit upd vosk cancellables recognizer set_recognizer
       alternatives rate current_operation].
  rewrite Ht1, E5, E6, E11, Hc1. cbn [rate alternatives current_operation
    set_rate vosk upd w0].
  rewrite <- !app_assoc. repeat split; assumption.
Qed.

Lemma nth_set_nth_true_other (i j : nat) (l : list bool) :
  j <> i -> nth j (set_nth_true i l) false = nth j l false.
Proof.
  revert i j. induction l as [|b l IH]; intros [|i] [|j] H; cbn;
    try reflexivity; try congruence.
  apply IH. congruence.
Qed.

Lemma gst_vosk_cancel_model_loading_others (w : World) (c : pointer) :
  c <> current_operation (vosk w) ->
  g_cancellable_is_cancelled (gst_vosk_cancel_model_loading w) c
  = g_cancellable_is_cancelled w c.
Proof.
  intros Hc. unfold gst_vosk_cancel_model_loading.
  destruct (is_null _); [reflexivity|].
  destruct c as [|j]; [reflexivity|].
  destruct (current_operation (vosk w)) as [|i]; [reflexivity|].
  cbn. apply nth_set_nth_true_other. congruence.
Qed.

(** X22.  Going back to READY and end of stream cancel the load whose token
    is in the slot of the pending operation at that moment, and only that
    one.  If a load request carries the token that was in the slot, then
    whatever the element does next, a worker that starts on the request
    leaves at once and changes nothing, and a worker that already built its
    model frees it and installs nothing.  The flag of every other token is
    left as it was: a request whose token is no longer in the slot (a later
    activation overwrote it, or another worker emptied it) is not cancelled
    by the deactivation. *)
Theorem deactivation_cancels_slot_token_only (w w2 : World) :
  w2 = fst (fst (gst_vosk_change_state true w GST_STATE_CHANGE_PAUSED_TO_READY))
  \/ w2 = fst (fst (gst_vosk_change_state true w
                      GST_STATE_CHANGE_READY_TO_READY))
  \/ w2 = gst_vosk_sink_event w GST_EVENT_EOS ->
  (forall (status : GstVoskThreadData) (w3 : World) (model : pointer)
          (meanwhile : World -> World),
      cancellable status = current_operation (vosk w) ->
      token_allocated w (cancellable status) ->
      vosk_steps w2 w3 ->
      gst_vosk_load_model_async meanwhile status w3 = w3 /\
      let w4 := load_model_locked status model w3 in
      events_since w3 w4 = [Call_vosk_model_free model] /\
      vosk w4 = set_current_operation NULL (vosk w3) /\
      cancellables w4 = cancellables w3) /\
  (forall c : pointer,
      c <> current_operation (vosk w) ->
      g_cancellable_is_cancelled w2 c = g_cancellable_is_cancelled w c).
Proof.
  intros Hw2.
  assert (Hcanc : cancellables w2
                  = cancellables (gst_vosk_cancel_model_loading w)).
  { destruct Hw2 as [->|[->| ->]]; cbn [gst_vosk_change_state negb fst
      gst_vosk_sink_event].
    - apply gst_vosk_reset_cancellables.
    - apply gst_vosk_reset_cancellables.
    - apply gst_vosk_final_result_msg_cancellables. }
  assert (Hsame : forall c,
             g_cancellable_is_cancelled w2 c
             = g_cancellable_is_cancelled (gst_vosk_cancel_model_loading w) c).
  { intros [|i]; [reflexivity|]. cbn. now rewrite Hcanc. }
  split.
  - intros status w3 model meanwhile Hop Hal Hsteps.
    assert (Hc2 : g_cancellable_is_cancelled w2 (cancellable status) = true).
    { rewrite Hsame, Hop. apply gst_vosk_cancel_model_loading_cancels.
      now rewrite <- Hop. }
    assert (Hc3 : g_cancellable_is_cancelled w3 (cancellable status) = true).
    { apply (cancellables_grow_cancelled w2); [|exact Hc2].
      now apply vosk_steps_grow. }
    split.
    + unfold gst_vosk_load_model_async. rewrite Hc3. unfold load_model_clean.
      now apply g_cancellable_cancel_cancelled.
    + cbv zeta. unfold load_model_locked. cbv zeta.
      change (g_cancellable_is_cancelled
                (upd (set_current_operation NULL) w3) (cancellable status))
        with (g_cancellable_is_cancelled w3 (cancellable status)).
      rewrite Hc3. unfold load_model_clean.
      rewrite g_cancellable_cancel_cancelled by exact Hc3.
      since. repeat split.
  - intros c Hc. rewrite Hsame.
    now apply gst_vosk_cancel_model_loading_others.
Qed.

(** X23.  A load that is still wanted when the worker holds the lock, for a
    model that was built and with the rate known from the caps, installs a
    recogniser: the handle is the one the engine returns for the model at
    that rate, it is told the number of alternatives, the model reference is
    dropped and the state change is completed, in that order, after at most
    the set-up of the denoise step.  The pending operation is emptied and
    the token is spent. *)
Theorem load_installs_recognizer (status : GstVoskThreadData)
  (model : pointer) (w : World) :
  g_cancellable_is_cancelled w (cancellable status) = false ->
  model <> NULL ->
  0 < gst_vosk_get_rate (vosk w) ->
  let w' := load_model_locked status model w in
  let rate' := gst_vosk_get_rate (vosk w) in
  exists pre,
    let r := vosk_recognizer_new (trace w ++ pre) model rate' in
    events_since w w'
    = pre ++ [Call_vosk_recognizer_new model rate' r;
              Call_vosk_recognizer_set_max_alternatives r
                (alternatives (vosk w));
              Call_vosk_model_free model;
              Message_async_done;
              Call_gst_element_continue_state] /\
    forallb is_rnnoise_setup pre = true /\
    (enable_denoise (vosk w) = false -> pre = []) /\
    recognizer (vosk w') = r /\
    rate (vosk w') = rate' /\
    current_operation (vosk w') = NULL /\
    (token_allocated w (cancellable status) ->
     g_cancellable_is_cancelled w' (cancellable status) = true).
Proof.
  intros Hc Hm Hr. cbv zeta. unfold load_model_locked. cbv zeta.
  change (g_cancellable_is_cancelled
            (upd (set_current_operation NULL) w) (cancellable status))
    with (g_cancellable_is_cancelled w (cancellable status)).
  rewrite Hc.
  destruct (is_null model) eqn:Hn; [apply Nat.eqb_eq in Hn; contradiction|].
  destruct (gst_vosk_recognizer_new_installs
              (upd (set_current_operation NULL) w) model Hm Hr)
    as (pre & Ht & Hpre & Hnone & Hcanc & Hrec & Hrate & Hop).
  cbv zeta in Ht, Hrec.
  exists pre. cbv zeta. unfold load_model_clean.
  rewrite g_cancellable_cancel_vosk. cbn [vosk emit].
  split.
  { apply events_since_app. rewrite g_cancellable_cancel_trace.
    cbn [trace emit]. rewrite Ht. cbn [trace upd vosk].
    rewrite <- !app_assoc. reflexivity. }
  split; [exact Hpre|]. split; [exact Hnone|].
  split; [exact Hrec|]. split; [exact Hrate|]. split; [exact Hop|].
  intros Hal.
  apply g_cancellable_cancel_sets. unfold token_allocated in *.
  cbn [cancellables emit]. now rewrite Hcanc.
Qed.

(** X24.  What a wanted load does when it cannot install.  If the engine
    built no model, the element posts an error and aborts the state change,
    and only the pending operation is emptied.  If the model was built but
    the caps give no rate yet, no recogniser is created and the handle
    stays as it was, yet the state change is completed all the same. *)
Theorem load_without_model_or_rate (status : GstVoskThreadData)
  (model : pointer) (w : World) :
  g_cancellable_is_cancelled w (cancellable status) = false ->
  let w' := load_model_locked status model w in
  (model = NULL ->
   events_since w w' = [Element_error; Call_gst_element_abort_state] /\
   vosk w' = set_current_operation NULL (vosk w)) /\
  (model <> NULL -> gst_vosk_get_rate (vosk w) <= 0 ->
   events_since w w'
   = [Call_vosk_model_free model; Message_async_done;
      Call_gst_element_continue_state] /\
   vosk w'
   = set_rate (gst_vosk_get_rate (vosk w))
       (set_current_operation NULL (vosk w))) /\
  (token_allocated w (cancellable status) ->
   g_cancellable_is_cancelled w' (cancellable status) = true).
Proof.
  intros Hc. cbv zeta.
  split; [|split].
  - intros ->. unfold load_model_locked. cbv zeta.
    change (g_cancellable_is_cancelled
              (upd (set_current_operation NULL) w) (cancellable status))
      with (g_cancellable_is_cancelled w (cancellable status)).
    rewrite Hc. cbn [is_null NULL Nat.eqb]. unfold load_model_clean.
    rewrite g_cancellable_cancel_vosk. split; [|reflexivity].
    apply events_since_app. rewrite g_cancellable_cancel_trace.
    cbn [trace emit upd]. now rewrite <- app_assoc.
  - intros Hm Hr. unfold load_model_locked. cbv zeta.
    change (g_cancellable_is_cancelled
              (upd (set_current_operation NULL) w) (cancellable status))
      with (g_cancellable_is_cancelled w (cancellable status)).
    rewrite Hc.
    destruct (is_null model) eqn:Hn; [apply Nat.eqb_eq in Hn; contradiction|].
    unfold gst_vosk_recognizer_new. cbv zeta. cbn [vosk upd].
    change (gst_vosk_get_rate (set_current_operation NULL (vosk w)))
      with (gst_vosk_get_rate (vosk w)).
    change (rate (set_rate (gst_vosk_get_rate (vosk w))
                    (set_current_operation NULL (vosk w))))
      with (gst_vosk_get_rate (vosk w)).
    destruct (gst_vosk_get_rate (vosk w) <=? 0) eqn:Hle;
      [|apply Z.leb_gt in Hle; lia].
    cbn [fst]. unfold load_model_clean.
    rewrite g_cancellable_cancel_vosk. split; [|reflexivity].
    apply events_since_app. rewrite g_cancellable_cancel_trace.
    cbn [trace emit upd]. now rewrite <- !app_assoc.
  - intros Hal.
    assert (Hg : cancellables_grow (cancellables w)
                   (cancellables (load_model_locked status model w)))
      by apply load_model_locked_grow.
    unfold load_model_locked in *. cbv zeta in *.
    change (g_cancellable_is_cancelled
              (upd (set_current_operation NULL) w) (cancellable status))
      with (g_cancellable_is_cancelled w (cancellable status)) in *.
    rewrite Hc in *. unfold load_model_clean in *.
    destruct (is_null model).
    + apply g_cancellable_cancel_sets. exact Hal.
    + apply g_cancellable_cancel_sets. unfold token_allocated in *.
      cbn [cancellables emit upd].
      now rewrite gst_vosk_recognizer_new_cancellables.
Qed.

End Loading.

(** ** Recogniser handles *)

Lemma handles_after_app (live : list pointer) (a b : list Event) :
  handles_after live (a ++ b)
  = match handles_after live a with
    | Some live' => handles_after live' b
    | None => None
    end.
Proof.
  revert live. induction a as [|e a IH]; intros live; cbn; [reflexivity|].
  destruct (handle_step live e); [apply IH|reflexivity].
Qed.

Lemma handles_after_no_handle (live : list pointer) (evs : list Event) :
  forallb no_handle evs = true -> handles_after live evs = Some live.
Proof.
  induction evs as [|e evs IH]; cbn; [reflexivity|].
  intros H. apply andb_prop in H as [He H].
  destruct e; try discriminate; cbn; auto.
Qed.

Lemma handles_after_uses_only (r : pointer) (live : list pointer)
  (evs : list Event) :
  handle_is_live r live = true ->
  forallb (uses_only r) evs = true -> handles_after live evs = Some live.
Proof.
  intros Hr. induction evs as [|e evs IH]; cbn; [reflexivity|].
  intros H. apply andb_prop in H as [He H].
  destruct e; try discriminate; cbn in *; auto;
    apply Nat.eqb_eq in He; subst; rewrite Hr; auto.
Qed.

Lemma no_handle_uses_only (r : pointer) (e : Event) :
  no_handle e = true -> uses_only r e = true.
Proof. destruct e; cbn; congruence. Qed.

Lemma is_denoise_event_no_handle (evs : list Event) :
  forallb is_denoise_event evs = true -> forallb no_handle evs = true.
Proof.
  rewrite !forallb_forall. intros H e He. specialize (H e He).
  destruct e; try discriminate; reflexivity.
Qed.

Lemma is_rnnoise_setup_no_handle (evs : list Event) :
  forallb is_rnnoise_setup evs = true -> forallb no_handle evs = true.
Proof.
  rewrite !forallb_forall. intros H e He. specialize (H e He).
  destruct e; try discriminate; reflexivity.
Qed.

Lemma engine_event_ok_uses_only (v : GstVosk) (evs : list Event) :
  forallb (engine_event_ok v) evs = true ->
  forallb (uses_only (recognizer v)) evs = true.
Proof.
  rewrite !forallb_forall. intros H e He. specialize (H e He).
  destruct e; try discriminate; try reflexivity; exact H.
Qed.

Lemma handle_is_live_filter (r h : pointer) (live : list pointer) :
  handle_is_live h (filter (fun x => negb (Nat.eqb r x)) live)
  = handle_is_live h live && negb (Nat.eqb r h).
Proof.
  unfold handle_is_live. induction live as [|x live IH]; cbn; [reflexivity|].
  destruct (Nat.eqb r x) eqn:Erx; cbn.
  - rewrite IH. apply Nat.eqb_eq in Erx. subst x.
    destruct (Nat.eqb h r) eqn:Ehr; cbn; [|reflexivity].
    apply Nat.eqb_eq in Ehr. subst. rewrite Nat.eqb_refl. cbn.
    now rewrite andb_false_r.
  - rewrite IH. destruct (Nat.eqb h x) eqn:Ehx; cbn; [|reflexivity].
    apply Nat.eqb_eq in Ehx. subst. now rewrite Erx.
Qed.

(** The steps that leave the handle where it is and use no other. *)
Lemma recognizer_safe_keep (w w' : World) (evs : list Event) :
  recognizer_safe w ->
  trace w' = trace w ++ evs ->
  recognizer (vosk w') = recognizer (vosk w) ->
  (recognizer (vosk w) <> NULL ->
   forallb (uses_only (recognizer (vosk w))) evs = true) ->
  (recognizer (vosk w) = NULL -> forallb no_handle evs = true) ->
  recognizer_safe w'.
Proof.
  intros (live & Hl & Hr) Ht Hrec Huse Hnone.
  exists live. rewrite Ht, Hrec, handles_after_app, Hl.
  split; [|exact Hr].
  destruct (Nat.eq_dec (recognizer (vosk w)) NULL) as [E|E].
  - now apply handles_after_no_handle, Hnone.
  - apply (handles_after_uses_only (recognizer (vosk w))); auto.
Qed.

Lemma recognizer_safe_reset (w : World) :
  recognizer_safe w -> recognizer_safe (gst_vosk_reset w).
Proof.
  intros (live & Hl & Hr). rewrite gst_vosk_reset_world.
  unfold recognizer_safe. cbn [trace vosk recognizer].
  destruct (is_null (recognizer (vosk w))) eqn:Hn.
  - exists live. rewrite app_nil_r. split; [exact Hl|]. intros H. now elim H.
  - apply Nat.eqb_neq in Hn. specialize (Hr Hn).
    eexists. rewrite handles_after_app, Hl. cbn. rewrite Hr.
    split; [reflexivity|]. intros H. now elim H.
Qed.

Ltac keep_handle Hs :=
  eapply recognizer_safe_keep;
  [ exact Hs
  | cbn [trace emit upd vosk];
    first [ rewrite <- ?app_assoc; reflexivity
          | symmetry; apply app_nil_r ]
  | reflexivity
  | intros _; cbn; rewrite ?Nat.eqb_refl; reflexivity
  | intros Hnull;
    first [ reflexivity
          | repeat match goal with
                   | H : negb _ = true |- _ => apply negb_true_iff in H
                   | H : negb _ = false |- _ => apply negb_false_iff in H
                   end;
            bool_hyps; congruence ] ].

Section Handles.

Context {ext : Externals}.

Lemma recognizer_safe_final_result_msg (w : World) :
  recognizer_safe w -> recognizer_safe (gst_vosk_final_result_msg w).
Proof.
  intros Hs.
  unfold gst_vosk_final_result_msg, gst_vosk_final_result,
    gst_vosk_message_new.
  split_cases; keep_handle Hs.
Qed.

Lemma recognizer_safe_cancel_model_loading (w : World) :
  recognizer_safe w -> recognizer_safe (gst_vosk_cancel_model_loading w).
Proof.
  intros Hs. apply (recognizer_safe_keep w _ []); auto.
  - rewrite app_nil_r. apply gst_vosk_cancel_model_loading_trace.
  - apply gst_vosk_cancel_model_loading_recognizer.
Qed.

Lemma recognizer_safe_cancel (c : pointer) (w : World) :
  recognizer_safe w -> recognizer_safe (g_cancellable_cancel c w).
Proof.
  intros Hs. apply (recognizer_safe_keep w _ []); auto.
  - rewrite app_nil_r. apply g_cancellable_cancel_trace.
  - now rewrite g_cancellable_cancel_vosk.
Qed.

Lemma recognizer_safe_chain (w : World) (buf : GstBuffer) (t : Z) :
  recognizer_safe w -> recognizer_safe (fst (gst_vosk_chain w buf t)).
Proof.
  intros Hs. rewrite gst_vosk_chain_eq.
  assert (Hb : trace (chain_baseline w buf) = trace w
               /\ recognizer (vosk (chain_baseline w buf)) = recognizer (vosk w))
    by (unfold chain_baseline; destruct (_ =? _); repeat split).
  destruct Hb as (Htb & Hrb).
  destruct (negb (is_null (recognizer (vosk w)))) eqn:Hn.
  - destruct (gst_vosk_handle_buffer_split (chain_baseline w buf) buf t)
      as (evsd & rest & Ht & Hd & Hok & Hcfg & _).
    destruct (gst_vosk_handle_buffer _ buf t) as [w1 b1].
    cbn [fst snd] in *.
    unfold config_fields in Hcfg. injection Hcfg as _ Hrec _ _ _ _ _ _.
    apply engine_event_ok_uses_only in Hok. rewrite Hrb in Hok.
    apply is_denoise_event_no_handle in Hd.
    apply (recognizer_safe_keep w _
             (evsd ++ rest ++ [Call_gst_pad_push (samples b1)])); auto.
    + cbn [trace emit]. rewrite Ht, Htb. now rewrite <- !app_assoc.
    + cbn [vosk emit]. congruence.
    + intros _. rewrite !forallb_app, Hok. cbn. rewrite andb_true_r.
      rewrite forallb_forall in *. intros e He.
      apply no_handle_uses_only. auto.
    + intros E. apply negb_true_iff in Hn. apply Nat.eqb_neq in Hn.
      contradiction.
  - cbn [fst].
    apply (recognizer_safe_keep w _ [Call_gst_pad_push (samples buf)]); auto.
    cbn [trace emit]. now rewrite Htb.
Qed.

Lemma recognizer_safe_check_model_path (w : World) :
  recognizer_safe w ->
  recognizer_safe (fst (fst (gst_vosk_check_model_path w))).
Proof.
  intros Hs. unfold gst_vosk_check_model_path.
  destruct (model_path (vosk w)); cbv zeta; cbn [vosk upd];
    [destruct (negb _)|]; cbn [fst g_cancellable_new]; keep_handle Hs.
Qed.

Lemma recognizer_safe_change_state (parent_ok : bool) (w : World)
  (tr : GstStateChange) :
  recognizer_safe w ->
  recognizer_safe (fst (fst (gst_vosk_change_state parent_ok w tr))).
Proof.
  intros Hs. pose proof (recognizer_safe_check_model_path w Hs) as Hc.
  unfold gst_vosk_change_state.
  destruct tr;
    try (destruct (gst_vosk_check_model_path w) as [[w1 ret] pushed];
         cbn [fst] in Hc; destruct ret, parent_ok; cbn; exact Hc);
    destruct parent_ok; cbn [negb fst]; try exact Hs;
    apply recognizer_safe_reset, recognizer_safe_cancel_model_loading, Hs.
Qed.

Lemma recognizer_safe_load_model_locked (status : GstVoskThreadData)
  (model : pointer) (w : World) :
  recognizer_safe w -> recognizer_safe (load_model_locked status model w).
Proof.
  intros Hs. unfold load_model_locked, load_model_clean. cbv zeta.
  destruct (g_cancellable_is_cancelled _ _);
    [apply recognizer_safe_cancel; keep_handle Hs|].
  destruct (is_null model) eqn:Hn;
    [apply recognizer_safe_cancel; keep_handle Hs|].
  apply recognizer_safe_cancel.
  apply Nat.eqb_neq in Hn.
  set (w0 := upd (set_current_operation NULL) w).
  assert (H0 : recognizer_safe w0) by (subst w0; keep_handle Hs).
  assert (H1 : recognizer_safe (fst (gst_vosk_recognizer_new w0 model))).
  { destruct (Z_lt_le_dec 0 (gst_vosk_get_rate (vosk w0))) as [Hr|Hr].
    - destruct (gst_vosk_recognizer_new_installs w0 model Hn Hr)
        as (pre & Ht & Hpre & _ & _ & Hrec & _).
      cbv zeta in Ht, Hrec.
      destruct H0 as (live & Hl & _).
      eexists. rewrite Ht, Hrec, handles_after_app, Hl.
      rewrite handles_after_app.
      rewrite (handles_after_no_handle live pre)
        by now apply is_rnnoise_setup_no_handle.
      cbn [handles_after handle_step handle_is_live existsb].
      rewrite Nat.eqb_refl. cbn [orb].
      split; [reflexivity|]. intros _.
      cbn [handle_is_live existsb]. now rewrite Nat.eqb_refl.
    - unfold gst_vosk_recognizer_new. cbv zeta.
      change (rate (vosk (upd (set_rate (gst_vosk_get_rate (vosk w0))) w0)))
        with (gst_vosk_get_rate (vosk w0)).
      destruct (gst_vosk_get_rate (vosk w0) <=? 0) eqn:Hle;
        [|apply Z.leb_gt in Hle; lia].
      cbn [fst]. keep_handle H0. }
  set (w1 := fst (gst_vosk_recognizer_new w0 model)) in *.
  apply (recognizer_safe_keep w1 _
           [Call_vosk_model_free model; Message_async_done;
            Call_gst_element_continue_state]); auto.
  cbn [trace emit]. now rewrite <- !app_assoc.
Qed.

Lemma recognizer_safe_step (w w' : World) :
  recognizer_safe w -> vosk_step w w' -> recognizer_safe w'.
Proof.
  intros Hs Hstep. destruct Hstep.
  - now apply recognizer_safe_chain.
  - destruct e; cbn [gst_vosk_sink_event]; try exact Hs.
    + unfold gst_vosk_flush. split_cases; keep_handle Hs.
    + apply recognizer_safe_final_result_msg,
        recognizer_safe_cancel_model_loading, Hs.
  - destruct p; cbn [gst_vosk_set_property]; try exact Hs;
      try (keep_handle Hs).
    + unfold gst_vosk_set_model_path.
      destruct s; try exact Hs; split_cases; try exact Hs; keep_handle Hs.
    + destruct (_ =? _); [exact Hs|].
      unfold gst_vosk_set_num_alternatives. cbn [vosk upd].
      change (recognizer (set_alternatives (g_value_get_int x) (vosk w)))
        with (recognizer (vosk w)).
      split_cases; keep_handle Hs.
  - destruct p; cbn [gst_vosk_get_property fst]; try exact Hs.
    + unfold gst_vosk_final_result. split_cases; cbn [fst]; try exact Hs;
        keep_handle Hs.
    + unfold gst_vosk_result. split_cases; cbn [fst]; try exact Hs;
        keep_handle Hs.
  - now apply recognizer_safe_change_state.
  - keep_handle Hs.
  - now apply recognizer_safe_load_model_locked.
  - now apply recognizer_safe_cancel.
  - keep_handle Hs.
Qed.

(** X25.  The element never uses a recogniser after freeing it.  With its
    entry points run one at a time, as the steps have them, in everything a
    reachable element has done each call on a recogniser handle and each
    [vosk_recognizer_free] was made on a handle that [vosk_recognizer_new]
    had returned and that had not been freed since; and the handle the
    element holds, if any, is such a live handle. *)
Theorem recognizer_is_never_used_after_free (w : World) :
  reachable w -> recognizer_safe w.
Proof.
  induction 1 as [|w w' _ IH Hstep].
  - exists []. split; [reflexivity|]. intros H. now elim H.
  - exact (recognizer_safe_step w w' IH Hstep).
Qed.

End Handles.

(** ** The partial-results interval *)

Section Interval.

Context {ext : Externals}.

(** X26.  Within the milliseconds whose nanoseconds fit the field, the
    [partial-results-interval] property stores the value times one million,
    reads back the value set, and does nothing else, in any state of the
    element.  Set to -1 it switches partial results off: no buffer leads to
    a partial-result query. *)
Theorem partial_results_interval_property (s : GstState) (w : World)
  (ms : Z) :
  -1 <= ms <= MAX_INTERVAL_MS ->
  let w' :=
    gst_vosk_set_property s w PROP_PARTIAL_RESULTS_INTERVAL (GInt64 ms) in
  gst_vosk_get_property w' PROP_PARTIAL_RESULTS_INTERVAL = (w', GInt64 ms) /\
  vosk w' = set_partial_time_interval (ms * GST_MSECOND) (vosk w) /\
  cancellables w' = cancellables w /\
  events_since w w' = [] /\
  (ms = -1 ->
   forall (buf : GstBuffer) (t : Z),
     filter is_partial_query
       (events_since w' (fst (gst_vosk_handle_buffer w' buf t))) = []).
Proof.
  intros H. cbv zeta. cbn [gst_vosk_set_property g_value_get_int64].
  assert (E : to_gint64 (ms * GST_MSECOND) = ms * GST_MSECOND).
  { apply to_gint64_in_range.
    unfold MAX_INTERVAL_MS, G_MAXINT64, G_MININT64, GST_MSECOND, GST_SECOND in *.
    change (1000000000 / 1000) with 1000000 in *.
    change ((2 ^ 63 - 1) / 1000000) with 9223372036854 in H. lia. }
  rewrite E.
  split.
  { cbn [gst_vosk_get_property vosk upd partial_time_interval
         set_partial_time_interval].
    f_equal. f_equal. apply Z.quot_mul. discriminate. }
  split; [reflexivity|]. split; [reflexivity|].
  split; [apply events_since_upd|].
  intros -> buf t.
  set (w' := upd _ w).
  destruct (gst_vosk_handle_buffer_queries w' buf t)
    as (_ & [[Hq _]|(q & Hq & _ & _ & _ & _ & _ & Hp)]).
  - rewrite partial_queries_of_queries. cbv zeta in Hq. now rewrite Hq.
  - rewrite partial_queries_of_queries. cbv zeta in Hq. rewrite Hq.
    cbn [filter].
    destruct (is_partial_query q) eqn:Eq; [|reflexivity].
    destruct (Hp eq_refl) as [Hneg _]. subst w'.
    cbn [vosk upd partial_time_interval set_partial_time_interval] in Hneg.
    change GST_MSECOND with 1000000 in Hneg. lia.
Qed.

End Interval.

(** ** State changes *)

Lemma gst_vosk_cancel_model_loading_vosk (w : World) :
  vosk (gst_vosk_cancel_model_loading w)
  = (if is_null (current_operation (vosk w)) then vosk w
     else set_current_operation NULL (vosk w)).
Proof.
  unfold gst_vosk_cancel_model_loading.
  destruct (is_null _); [reflexivity|].
  cbn [vosk upd]. now rewrite g_cancellable_cancel_vosk.
Qed.



(** ** The further properties on concrete elements *)

Lemma denoise_frames_are_the_input_witness :
  (length
     (pending_samples
        (vosk (fst (@gst_vosk_apply_denoise final_engine streaming_world
                      (repeat 0%Z 100%nat)))))
   < RNNOISE_FRAME_SIZE)%nat.
Proof.
  destruct (@denoise_frames_are_the_input final_engine streaming_world
              (repeat 0%Z 100%nat)) as (_ & _ & H).
  - apply streaming_world_reachable.
  - repeat split.
  - exact H.
Defined.

Lemma denoise_silence_witness :
  snd (@gst_vosk_apply_denoise final_engine streaming_world
         (repeat 7%Z 100%nat))
  = repeat 0%Z 100%nat.
Proof.
  destruct (@denoise_silence final_engine streaming_world
              (repeat 7%Z 100%nat)) as (_ & _ & H).
  - apply streaming_world_reachable.
  - repeat split.
  - apply H.
    + reflexivity.
    + vm_compute. lia.
Defined.

Lemma accept_waveform_error_abandons_buffer_witness :
  queries
    (events_since (ready_world_at 0)
       (fst (@gst_vosk_handle_buffer (fixed_engine (-1) None None None)
               (ready_world_at 0) (one_sample_buffer 0) 0)))
  = [].
Proof.
  destruct (@accept_waveform_error_abandons_buffer
              (fixed_engine (-1) None None None)
              (ready_world_at 0) (one_sample_buffer 0) 0 1%nat [0])
    as (H & _).
  - vm_compute. left. reflexivity.
  - exact H.
Defined.

Lemma partial_queries_are_spaced_witness :
  0 <= partial_time_interval (vosk (ready_world_at 0))
    < GST_CLOCK_DIFF (pts (one_sample_buffer (300 * GST_MSECOND)))
        (pts (one_sample_buffer (600 * GST_MSECOND))).
Proof.
  apply (@partial_queries_are_spaced partial_engine (ready_world_at 0)
           (one_sample_buffer (300 * GST_MSECOND))
           (one_sample_buffer (600 * GST_MSECOND))
           (300 * GST_MSECOND) (600 * GST_MSECOND)).
  - vm_compute. discriminate.
  - vm_compute. discriminate.
Defined.

Lemma partial_result_is_not_repeated_witness :
  prev_partial (vosk (@gst_vosk_partial_result partial_engine
                        (ready_world_at 0)))
  = Some hel_partial.
Proof.
  destruct (@partial_result_is_not_repeated partial_engine (ready_world_at 0))
    as (H & _).
  - reflexivity.
  - exact H.
Defined.

Lemma unrecognized_buffer_passes_through_witness :
  snd (@gst_vosk_chain final_engine (world_of gst_vosk_init)
         (one_sample_buffer 0) 0)
  = one_sample_buffer 0.
Proof.
  destruct (@unrecognized_buffer_passes_through final_engine
              (world_of gst_vosk_init) (one_sample_buffer 0) 0) as (H & _).
  - left. reflexivity.
  - exact H.
Defined.

Lemma gst_vosk_chain_keeps_buffer_size_witness :
  length
    (samples (snd (@gst_vosk_chain final_engine streaming_world
                     (one_sample_buffer 0) 0)))
  = length (samples (one_sample_buffer 0)).
Proof.
  destruct (@gst_vosk_chain_keeps_buffer_size final_engine streaming_world
              (one_sample_buffer 0) 0) as (H & _).
  - apply streaming_world_reachable.
  - exact H.
Defined.

Lemma end_of_stream_final_result_witness :
  exists txt,
    events_since streaming_world
      (@gst_vosk_sink_event final_engine streaming_world GST_EVENT_EOS)
    = Call_vosk_recognizer_final_result 1%nat txt
      :: (if final_result_is_empty txt then []
          else emission_events (vosk streaming_world) txt) /\
    prev_partial
      (vosk (@gst_vosk_sink_event final_engine streaming_world GST_EVENT_EOS))
    = None.
Proof.
  destruct (@end_of_stream_final_result final_engine streaming_world)
    as (_ & _ & _ & H).
  apply H. discriminate.
Defined.

Lemma speech_model_property_witness :
  @gst_vosk_get_property final_engine
    (gst_vosk_set_property GST_STATE_READY caps_world PROP_SPEECH_MODEL
       (GString (Some "model"%string)))
    PROP_SPEECH_MODEL
  = (gst_vosk_set_property GST_STATE_READY caps_world PROP_SPEECH_MODEL
       (GString (Some "model"%string)),
     GString (Some "model"%string)).
Proof.
  destruct (@speech_model_property final_engine GST_STATE_READY caps_world
              (Some "model"%string)) as (_ & _ & H & _).
  apply H. right. reflexivity.
Defined.

Lemma reading_properties_witness :
  exists txt,
    events_since streaming_world
      (fst (@gst_vosk_get_property final_engine streaming_world
              PROP_CURRENT_RESULTS))
    = [Call_vosk_recognizer_result 1%nat txt] /\
    prev_partial
      (vosk (fst (@gst_vosk_get_property final_engine streaming_world
                    PROP_CURRENT_RESULTS)))
    = None /\
    snd (@gst_vosk_get_property final_engine streaming_world
           PROP_CURRENT_RESULTS)
    = GString (if result_is_empty txt then None else txt).
Proof.
  destruct (@reading_properties final_engine streaming_world
              PROP_CURRENT_RESULTS) as (_ & _ & _ & H).
  destruct H as (_ & H); [discriminate|].
  apply H. reflexivity.
Defined.

Lemma cancellation_is_permanent_witness :
  g_cancellable_is_cancelled
    (upd (set_sinkpad_rate (Some 48000))
       (gst_vosk_cancel_model_loading loading_world))
    1%nat
  = true.
Proof.
  apply (@cancellation_is_permanent final_engine
           (gst_vosk_cancel_model_loading loading_world)).
  - eapply steps_step; [apply steps_refl|apply step_caps].
  - reflexivity.
Defined.

Lemma gst_vosk_reset_clears_witness :
  pending_samples (vosk (gst_vosk_reset streaming_world)) = [].
Proof.
  destruct (gst_vosk_reset_clears streaming_world)
    as (_ & _ & _ & _ & _ & _ & H & _).
  apply H. discriminate.
Defined.

Lemma deactivation_cancels_slot_token_only_witness :
  @gst_vosk_load_model_async final_engine (fun w => w) loading_request
    (fst (fst (gst_vosk_change_state true loading_world
                 GST_STATE_CHANGE_PAUSED_TO_READY)))
  = fst (fst (gst_vosk_change_state true loading_world
                GST_STATE_CHANGE_PAUSED_TO_READY)).
Proof.
  destruct (@deactivation_cancels_slot_token_only final_engine loading_world
              (fst (fst (gst_vosk_change_state true loading_world
                           GST_STATE_CHANGE_PAUSED_TO_READY))))
    as (H & _).
  - left. reflexivity.
  - destruct (H loading_request
                (fst (fst (gst_vosk_change_state true loading_world
                             GST_STATE_CHANGE_PAUSED_TO_READY)))
                1%nat (fun w => w)) as (Hw & _).
    + reflexivity.
    + unfold token_allocated. vm_compute. lia.
    + apply steps_refl.
    + exact Hw.
Defined.

(** The request the theorem does not cover.  A second activation while a
    load is pending overwrites the slot without cancelling; the deactivation
    that follows cancels the newer token only, and the worker of the older
    request installs a recogniser in an element that went back to READY. *)
Example overwritten_request_survives_deactivation :
  let w1 := fst (fst (gst_vosk_change_state true caps_world
                        GST_STATE_CHANGE_READY_TO_PAUSED)) in
  let w2 := fst (fst (gst_vosk_change_state true w1
                        GST_STATE_CHANGE_PAUSED_TO_PAUSED)) in
  let w3 := fst (fst (gst_vosk_change_state true w2
                        GST_STATE_CHANGE_PAUSED_TO_READY)) in
  let w4 := @gst_vosk_load_model_async final_engine (fun w => w)
              loading_request w3 in
  current_operation (vosk w1) = 1%nat /\
  current_operation (vosk w2) = 2%nat /\
  g_cancellable_is_cancelled w3 1%nat = false /\
  g_cancellable_is_cancelled w3 2%nat = true /\
  recognizer (vosk w3) = NULL /\
  recognizer (vosk w4) = 1%nat.
Proof. vm_compute. repeat split. Qed.

Lemma load_installs_recognizer_witness :
  recognizer
    (vosk (@load_model_locked final_engine loading_request 1%nat
             model_built_world))
  = 1%nat.
Proof.
  destruct (@load_installs_recognizer final_engine loading_request 1%nat
              model_built_world) as (pre & _ & _ & _ & H & _).
  - reflexivity.
  - discriminate.
  - reflexivity.
  - exact H.
Defined.

Lemma load_without_model_or_rate_witness :
  events_since model_built_world
    (@load_model_locked final_engine loading_request NULL model_built_world)
  = [Element_error; Call_gst_element_abort_state].
Proof.
  destruct (@load_without_model_or_rate final_engine loading_request NULL
              model_built_world) as (H & _).
  - reflexivity.
  - apply H. reflexivity.
Defined.

Lemma recognizer_is_never_used_after_free_witness :
  recognizer_safe streaming_world.
Proof.
  apply (@recognizer_is_never_used_after_free final_engine).
  apply streaming_world_reachable.
Defined.

Lemma partial_results_interval_property_witness :
  @gst_vosk_get_property final_engine
    (gst_vosk_set_property GST_STATE_PLAYING streaming_world
       PROP_PARTIAL_RESULTS_INTERVAL (GInt64 250))
    PROP_PARTIAL_RESULTS_INTERVAL
  = (gst_vosk_set_property GST_STATE_PLAYING streaming_world
       PROP_PARTIAL_RESULTS_INTERVAL (GInt64 250),
     GInt64 250).
Proof.
  destruct (@partial_results_interval_property final_engine GST_STATE_PLAYING
              streaming_world 250) as (H & _).
  - vm_compute. split; discriminate.
  - exact H.
Defined.


